(** * Random strategy sampler of autodist ([strategy/auto/strategy_sampler.py])

    A shallow embedding of the sampler: the metadata helpers
    ([VariableHelper], [PartHelper]), the per-variable sampling stages and
    the post-assignment of reduction destinations and collective groups,
    followed by the properties of the natural-language specification that
    concern them.

    Conventions.
    - Python integers are [Z]; list positions are [nat]; [float] values
      (byte sizes, partition bounds) are exact rationals [Q], so a statement
      about a byte size is a statement up to floating rounding.
    - A Python call that may raise is a computation in the monad [M]: it
      takes the world (the random source and [self.helpers]) and returns a
      result or an exception TOGETHER with the world it leaves behind, since
      an exception does not undo earlier mutations.
    - What the sampler imports from other modules of the repository
      ([sample_util], the load balancers, the group assigners,
      [PartitionerConfig]) is either modelled from the specification (and
      marked so) or taken as a Section variable. *)

From Stdlib Require Import ZArith QArith List String Ascii Bool Lia Arith.
From Stdlib Require Import DecimalString.
Import ListNotations.

Set Implicit Arguments.
Set Warnings "-register-all".
Local Open Scope Z_scope.

(* ===================================================================== *)
(** * Python values the sampler manipulates                                *)
(* ===================================================================== *)

(** The exceptions the sampler (and the helpers it calls) can raise. *)
Inductive exn : Type :=
| AttributeError
| TypeError
| ValueError (msg : string)
| AssertionError
| IndexError
| KeyError
| ZeroDivisionError
| ConfigurationError.

Inductive result (A : Type) : Type :=
| Ok (a : A)
| Raise (e : exn).
Arguments Ok {A} a.
Arguments Raise {A} e.

Definition is_ok {A} (r : result A) : bool :=
  match r with Ok _ => true | Raise _ => false end.

(** [class VarType(Enum)] *)
Inductive VarType : Type := SPARSE | DENSE.

Definition VarType_eqb (a b : VarType) : bool :=
  match a, b with
  | SPARSE, SPARSE | DENSE, DENSE => true
  | _, _ => false
  end.

(** Kind of the gradient recorded for a variable: a dense [ops.Tensor], or
    anything else (an [IndexedSlices] update). *)
Inductive Grad : Type := GradTensor | GradIndexedSlices.

(** A raw trainable variable as the graph layer exposes it: its name, the
    gradient paired with it in [var_op_name_to_grad_info], the op types of
    the consumers of its op, [initial_value.shape.as_list()] and the value
    of [byte_size_load_fn]. *)
Record Var : Type := mkVar {
  name : string;
  grad : Grad;
  consumer_types : list string;
  initial_shape : list Z;
  byte_size_load : Q
}.

(** [PartitionerConfig], as far as the helpers read it. *)
Record PartitionerConfig : Type := mkPC {
  partition_list : list Z;
  axis : nat;
  num_shards : Z;
  partition_str : string
}.

(* ===================================================================== *)
(** * PartHelper                                                           *)
(* ===================================================================== *)

Record PartHelper : Type := mkPartHelper {
  part_idx : Z;
  part_var : Var;
  pc : PartitionerConfig
}.

(** [shape[i] = v] on a Python list, for an index that is in range. *)
Fixpoint list_set {A} (l : list A) (i : nat) (v : A) : list A :=
  match l, i with
  | [], _ => []
  | _ :: t, O => v :: t
  | x :: t, S j => x :: list_set t j v
  end.

Module PartHelper.

(** [PartHelper.shape]: floor division and remainder of the extent of the
    partition axis by the number of shards; the first [extras] parts get
    one more. Indexing past the end of [shape] raises [IndexError], a
    shard count of zero raises [ZeroDivisionError]; nothing else is
    checked. *)
Definition shape (p : PartHelper) : result (list Z) :=
  let shape := initial_shape (part_var p) in
  match nth_error shape (axis (pc p)) with
  | None => Raise IndexError
  | Some e =>
      if num_shards (pc p) =? 0 then Raise ZeroDivisionError
      else
        let dim_size := e / num_shards (pc p) in
        let extras := e mod num_shards (pc p) in
        let dim_size := if part_idx p <? extras then dim_size + 1 else dim_size in
        Ok (list_set shape (axis (pc p)) dim_size)
  end.

(** [PartHelper.var_shape] *)
Definition var_shape (p : PartHelper) : list Z :=
  initial_shape (part_var p).

(** [PartHelper.byte_size]:
    [float(byte_size_load_fn(var)) * float(shape[axis]) / float(var_shape[axis])]. *)
Definition byte_size (p : PartHelper) : result Q :=
  match shape p with
  | Raise e => Raise e
  | Ok s =>
      match nth_error s (axis (pc p)), nth_error (var_shape p) (axis (pc p)) with
      | Some d, Some e =>
          if e =? 0 then Raise ZeroDivisionError
          else Ok (byte_size_load (part_var p) * inject_Z d / inject_Z e)%Q
      | _, _ => Raise IndexError
      end
  end.

End PartHelper.

(** [range(n)] for a Python integer [n]. *)
Definition range (n : Z) : list Z :=
  map Z.of_nat (seq 0 (Z.to_nat n)).

(** [range(a, b)] *)
Definition range2 (a b : Z) : list Z :=
  map (fun i => a + Z.of_nat i) (seq 0 (Z.to_nat (b - a))).

(** The shard views [build] creates for a partitioned variable:
    [PartHelper(i, var, pc) for i in range(pc.num_shards)]. *)
Definition part_helpers (v : Var) (c : PartitionerConfig) : list PartHelper :=
  map (fun i => mkPartHelper i v c) (range (num_shards c)).

(** Extent of a shard along the partition axis, when its shape can be read. *)
Definition part_extent (p : PartHelper) : result Z :=
  match PartHelper.shape p with
  | Raise e => Raise e
  | Ok s =>
      match nth_error s (axis (pc p)) with
      | Some d => Ok d
      | None => Raise IndexError
      end
  end.

Definition Zsum (l : list Z) : Z := fold_right Z.add 0 l.
Definition Qsum (l : list Q) : Q := fold_right Qplus (0#1)%Q l.

(** Value carried by a result, with a default for the exceptional case. *)
Definition get_or {A} (d : A) (r : result A) : A :=
  match r with Ok a => a | Raise _ => d end.

(* ===================================================================== *)
(** * VariableHelper                                                       *)
(* ===================================================================== *)

Record VariableHelper : Type := mkVariableHelper {
  var : Var
}.

Definition is_nil {A} (l : list A) : bool :=
  match l with [] => true | _ => false end.

Module VariableHelper.

(** [VarType.DENSE if isinstance(self._grad, ops.Tensor) else VarType.SPARSE] *)
Definition var_type (h : VariableHelper) : VarType :=
  match grad (var h) with
  | GradTensor => DENSE
  | GradIndexedSlices => SPARSE
  end.

Definition is_sparse (h : VariableHelper) : bool :=
  VarType_eqb (var_type h) SPARSE.

(** Some consumer of the variable's op has type ["ResourceGather"]. *)
Definition is_embedding (h : VariableHelper) : bool :=
  existsb (String.eqb "ResourceGather") (consumer_types (var h)).

(** The shape as a list, or [None] when [ndims] is 0 (a scalar). *)
Definition shape (h : VariableHelper) : option (list Z) :=
  if is_nil (initial_shape (var h)) then None
  else Some (initial_shape (var h)).

(** [[idx for idx, dim in enumerate(shape) if dim > 1]] *)
Fixpoint axes_from (idx : nat) (dims : list Z) : list nat :=
  match dims with
  | [] => []
  | dim :: rest =>
      if 1 <? dim then idx :: axes_from (S idx) rest
      else axes_from (S idx) rest
  end.

(** The property the class defines is spelt [partitionable_axes]. *)
Definition partitionable_axes (h : VariableHelper) : list nat :=
  match shape h with
  | None => []
  | Some s =>
      if is_sparse h || is_embedding h then [0%nat]
      else axes_from 0 s
  end.

Definition byte_size (h : VariableHelper) : Q :=
  byte_size_load (var h).

(** What evaluating [var_helper.partitionable_axis] gives on an instance
    of the class as it is written: the class defines [partitionable_axes]
    and no attribute of the name the sampling stages read, so the lookup
    raises. *)
Definition getattr_partitionable_axis (h : VariableHelper) : result (list nat) :=
  Raise AttributeError.

End VariableHelper.

(* ===================================================================== *)
(** * The world of a sampling call and the monad of computations          *)
(* ===================================================================== *)

(** Values of the [helpers] dict. *)
Inductive Helper : Type :=
| VarH (h : VariableHelper)
| PartH (p : PartHelper).

(** A Python dict with string keys, in insertion order. *)
Definition dict (V : Type) : Type := list (string * V).

Fixpoint dict_get {V} (d : dict V) (k : string) : option V :=
  match d with
  | [] => None
  | (k', v) :: rest => if String.eqb k k' then Some v else dict_get rest k
  end.

(** [d[k] = v]: an existing key keeps its position, a new one goes last. *)
Fixpoint dict_set {V} (d : dict V) (k : string) (v : V) : dict V :=
  match d with
  | [] => [(k, v)]
  | (k', v') :: rest =>
      if String.eqb k k' then (k', v) :: rest
      else (k', v') :: dict_set rest k v
  end.

Definition dict_keys {V} (d : dict V) : list string := map fst d.

(** The random source is a tape of naturals (read as zeros once it is used
    up); [helpers] is the dict [self.helpers] of the sampler object. *)
Record World : Type := mkWorld {
  rng : list nat;
  helpers : dict Helper
}.

Definition M (A : Type) : Type := World -> result A * World.

Definition ret {A} (a : A) : M A := fun w => (Ok a, w).

Definition raise {A} (e : exn) : M A := fun w => (Raise e, w).

Definition bind {A B} (m : M A) (f : A -> M B) : M B :=
  fun w =>
    match m w with
    | (Ok a, w') => f a w'
    | (Raise e, w') => (Raise e, w')
    end.

Definition lift {A} (r : result A) : M A := fun w => (r, w).

Declare Scope py_scope.
Delimit Scope py_scope with py.
Notation "x <- c ;; k" := (bind c (fun x => k))
  (at level 100, c at next level, right associativity) : py_scope.
Notation "c ;;; k" := (bind c (fun _ => k))
  (at level 100, right associativity) : py_scope.
Local Open Scope py_scope.

(** Next value of the random source. *)
Definition draw : M nat :=
  fun w =>
    match rng w with
    | [] => (Ok 0%nat, w)
    | r :: rest => (Ok r, mkWorld rest (helpers w))
    end.

Definition get_helpers : M (dict Helper) := fun w => (Ok (helpers w), w).

Definition set_helper (k : string) (h : Helper) : M unit :=
  fun w => (Ok tt, mkWorld (rng w) (dict_set (helpers w) k h)).

Definition clear_helpers : M unit :=
  fun w => (Ok tt, mkWorld (rng w) []).

(** A loop [for x in l: acc = f(acc, x)] whose body may raise. *)
Fixpoint foldM {A B} (f : B -> A -> M B) (l : list A) (acc : B) : M B :=
  match l with
  | [] => ret acc
  | x :: rest => acc' <- f acc x ;; foldM f rest acc'
  end.

(** [[f(x) for x in l]], left to right. *)
Fixpoint mapM {A B} (f : A -> M B) (l : list A) : M (list B) :=
  match l with
  | [] => ret []
  | x :: rest => y <- f x ;; ys <- mapM f rest ;; ret (y :: ys)
  end.

(** The same for pure code that may raise. *)
Definition rbind {A B} (r : result A) (f : A -> result B) : result B :=
  match r with Ok a => f a | Raise e => Raise e end.

Fixpoint rmap {A B} (f : A -> result B) (l : list A) : result (list B) :=
  match l with
  | [] => Ok []
  | x :: rest => rbind (f x) (fun y => rbind (rmap f rest) (fun ys => Ok (y :: ys)))
  end.

(* ===================================================================== *)
(** * sample_util                                                          *)
(* ===================================================================== *)

Definition Qlt_bool (x y : Q) : bool := negb (Qle_bool y x).

Module sample_util.

(** Modelled from the spec: [sample_util.uniform_sample_by_choices], of a
    module other than the sampler's. "Returns one element of a non-empty finite
    ordered collection with equal probability; fails with
    ConfigurationError on an empty collection." The element is the one the
    next value of the random source points at. *)
Definition uniform_sample_by_choices {A} (choices : list A) : M A :=
  match choices with
  | [] => raise ConfigurationError
  | d :: _ =>
      r <- draw ;;
      ret (nth (r mod List.length choices)%nat choices d)
  end.

(** Modelled from the spec: [sample_util.binary_sample], of a module other
    than the sampler's. "Returns true with probability threshold (clamped to
    [0,1]), false otherwise": the next value of the random source, read as
    a point of the unit interval in thousandths, is below the threshold. *)
Definition binary_sample (boundary : Q) : M bool :=
  r <- draw ;;
  ret (Qlt_bool (inject_Z (Z.of_nat (r mod 1000)%nat) / inject_Z 1000) boundary).

(** Modelled from the spec: [sample_util.sample_merge_group], of a module
    other than the sampler's. "An assignment of each of n items (by position) to
    one of k group identifiers ... each item's group chosen independently
    and uniformly over the k ids", the ids being [0 .. k-1]. *)
Fixpoint sample_merge_group (num_group : Z) (n : nat) : M (list Z) :=
  match n with
  | O => ret []
  | S n' =>
      g <- uniform_sample_by_choices (range num_group) ;;
      rest <- sample_merge_group num_group n' ;;
      ret (g :: rest)
  end.

End sample_util.

(* ===================================================================== *)
(** * Configuration: space, heuristics, cluster                            *)
(* ===================================================================== *)

(** The dict [space], by key. *)
Module Space.
Record t : Type := mk {
  synchronizer_types : list string;
  maybe_partition : list bool;
  compressor : list string;
  local_replication : list bool;
  partitionable_axis : list nat
}.
End Space.

(** An entry of [heuristics['num_partition_bounds']]: an [int], a [str], or
    a value of another type. *)
Inductive PyBound : Type :=
| BInt (z : Z)
| BStr (s : string)
| BOther.

(** The dict [heuristics], by key. [ps_load_balancer] and [merge_scheme] are
    [None] or a name; [chunk_size] is [None] when the key is missing. *)
Module Heuristics.
Record t : Type := mk {
  ps_load_balancer : option string;
  merge_scheme : option string;
  chunk_size : option Z;
  num_group_bounds : Z * Z;
  maybe_partition_bounds : Q * Q;
  maybe_partition_by_size : bool;
  num_partition_bounds : PyBound * PyBound;
  enable_single_node_no_partition : bool;
  same_synchronizer_for_parts : bool
}.
End Heuristics.

(** The cluster descriptor: the names of the CPU (aggregation) devices and
    of the GPU (replica) devices, in order, and the two counts. *)
Module ResourceSpec.
Record t : Type := mk {
  cpu_devices : list string;
  gpu_devices : list string;
  num_cpus : Z;
  num_gpus : Z
}.
End ResourceSpec.

(** [autodist.const.MAX_INT32], a constant of another module: the largest
    signed 32-bit integer. *)
Definition MAX_INT32 : Z := 2147483647.

Definition default_space : Space.t :=
  Space.mk ["PS"; "AR"]%string [true; false]
           ["HorovodCompressor"; "NoneCompressor"; "HorovodCompressorEF"]%string
           [false] [].

Definition default_heuristics : Heuristics.t :=
  Heuristics.mk None None (Some (-1)) (-1, MAX_INT32)
                (inject_Z 0, inject_Z MAX_INT32) false
                (BInt 2, BInt MAX_INT32) false false.

(* ===================================================================== *)
(** * The strategy document                                                *)
(* ===================================================================== *)

(** [synchronizers_pb2.AllReduceSynchronizer.Compressor], by the names the
    sampler's documentation lists. *)
Inductive Compressor : Type :=
| NoneCompressor
| HorovodCompressor
| HorovodCompressorEF
| PowerSGDCompressor.

(** [Compressor.Value(name)]: the enum value of a name, [ValueError] for a
    name the enum does not have. *)
Definition Compressor_Value (s : string) : result Compressor :=
  if String.eqb s "NoneCompressor" then Ok NoneCompressor
  else if String.eqb s "HorovodCompressor" then Ok HorovodCompressor
  else if String.eqb s "HorovodCompressorEF" then Ok HorovodCompressorEF
  else if String.eqb s "PowerSGDCompressor" then Ok PowerSGDCompressor
  else Raise (ValueError "Enum Compressor has no value defined for this name").

Inductive Spec : Type := AUTO.

(** [reduction_destination] and [group] are [None] until the post-assignment
    stage writes them. *)
Module PSSynchronizer.
Record t : Type := mk {
  reduction_destination : option string;
  local_replication : bool;
  sync : bool;
  staleness : Z
}.
Definition default : t := mk None false false 0.
End PSSynchronizer.

Module AllReduceSynchronizer.
Record t : Type := mk {
  spec : Spec;
  compressor : Compressor;
  group : option Z
}.
Definition default : t := mk AUTO NoneCompressor None.
End AllReduceSynchronizer.

(** The oneof [synchronizer] of a node: which member is set, if any. *)
Inductive Synchronizer : Type :=
| NoSynchronizer
| PS (s : PSSynchronizer.t)
| AR (s : AllReduceSynchronizer.t).

(** [strategy_pb2.Strategy.Node]; the shards of a partitioned node are nodes
    themselves. *)
Inductive Node : Type := mkNode {
  var_name : string;
  partitioner : string;
  synchronizer : Synchronizer;
  part_config : list Node
}.

Definition new_Node : Node := mkNode "" "" NoSynchronizer [].

(** [Strategy]: the replicas of the graph config and the node configs. *)
Record Strategy : Type := mkStrategy {
  replicas : list string;
  node_config : list Node
}.

Definition with_var_name (n : Node) (s : string) : Node :=
  mkNode s (partitioner n) (synchronizer n) (part_config n).

Definition with_partitioner (n : Node) (s : string) : Node :=
  mkNode (var_name n) s (synchronizer n) (part_config n).

Definition with_synchronizer (n : Node) (s : Synchronizer) : Node :=
  mkNode (var_name n) (partitioner n) s (part_config n).

Definition with_part_config (n : Node) (parts : list Node) : Node :=
  mkNode (var_name n) (partitioner n) (synchronizer n) parts.

(** Writing a field of [node.PSSynchronizer] makes that member of the oneof
    the active one (starting from its default when it was not). *)
Definition set_PS (n : Node) (f : PSSynchronizer.t -> PSSynchronizer.t) : Node :=
  with_synchronizer n
    (PS (f match synchronizer n with
           | PS s => s
           | _ => PSSynchronizer.default
           end)).

Definition set_AR (n : Node) (f : AllReduceSynchronizer.t -> AllReduceSynchronizer.t) : Node :=
  with_synchronizer n
    (AR (f match synchronizer n with
           | AR s => s
           | _ => AllReduceSynchronizer.default
           end)).

(** [getattr(node, node.WhichOneof('synchronizer'))]: the active member;
    with none set [WhichOneof] is [None] and [getattr] raises. *)
Definition which_synchronizer (n : Node) : result Synchronizer :=
  match synchronizer n with
  | NoSynchronizer => Raise TypeError
  | s => Ok s
  end.

(** [hasattr(synchronizer, 'compressor')] *)
Definition has_compressor (s : Synchronizer) : bool :=
  match s with AR _ => true | _ => false end.

(** [hasattr(synchronizer, 'reduction_destination')] *)
Definition has_reduction_destination (s : Synchronizer) : bool :=
  match s with PS _ => true | _ => false end.

(** Truth value of a Python string: non-empty. *)
Definition str_truthy (s : string) : bool :=
  match s with EmptyString => false | _ => true end.

(** Decimal rendering of an integer, as [str.format] and [str] give it. *)
Definition str_of_Z (z : Z) : string :=
  NilZero.string_of_int (Z.to_int z).

(** Modelled from the spec: what [PartitionerConfig], a class of
    [autodist.kernel.partitioner], derives from its list. The descriptor has
    "one shard-count value on the chosen axis, 1 elsewhere", and from it
    come "the partition configuration (axis, shard count)": the axis is the
    first one whose entry exceeds 1, the shard count the product of the
    entries, the string form the entries in decimal separated by commas. *)
Fixpoint first_sharded (idx : nat) (pl : list Z) : nat :=
  match pl with
  | [] => idx
  | p :: rest => if 1 <? p then idx else first_sharded (S idx) rest
  end.

(** Modelled from the spec: the constructor of [PartitionerConfig], from
    the descriptor "one shard-count value on the chosen axis, 1 elsewhere". *)
Definition PartitionerConfig_init (pl : list Z) : PartitionerConfig :=
  mkPC pl (first_sharded 0 pl) (fold_right Z.mul 1 pl)
       (String.concat "," (map str_of_Z pl)).

(** The value [sample_if_partition] hands back: a [bool] on most paths, the
    list [space['maybe_partition']] itself on the first one. *)
Inductive PyVal : Type :=
| PyBool (b : bool)
| PyBoolList (l : list bool).

(** Truth value, as [if not maybe_partition] in [build] reads it. *)
Definition truthy (v : PyVal) : bool :=
  match v with
  | PyBool b => b
  | PyBoolList l => negb (is_nil l)
  end.

(** [set(a) & set(b)], listed in the order of [a]. *)
Definition set_inter (a b : list nat) : list nat :=
  filter (fun x => existsb (Nat.eqb x) b) (nodup Nat.eq_dec a).

(** A pure loop whose body may raise. *)
Fixpoint rfold {A B} (f : B -> A -> result B) (l : list A) (acc : B) : result B :=
  match l with
  | [] => Ok acc
  | x :: rest => rbind (f acc x) (fun acc' => rfold f rest acc')
  end.

(** The two pools of the post-assignment stage, name -> [(idx,)], and the
    running index. *)
Record Pools : Type := mkPools {
  ps_shards : dict nat;
  ar_shards : dict nat;
  idx : nat
}.

(** Modelled from the spec: the loop of [chunk_group_assigner], a function
    of [autodist.strategy.auto.ar_group_assigner]. "Walk records in input
    order, placing consecutive chunk-sized runs into successive group ids
    (last group may be shorter)." *)
Fixpoint chunk_groups_from (acc : dict Z) (i : Z) (names : list string)
    (chunk_size : Z) : dict Z :=
  match names with
  | [] => acc
  | n :: rest =>
      chunk_groups_from (dict_set acc n (i / chunk_size)) (i + 1) rest chunk_size
  end.

(** Modelled from the spec: [chunk_group_assigner]; the group of the record
    at position [i] is [i // chunk_size]. *)
Definition chunk_group_assigner (ar : dict nat) (chunk_size : Z) : result (dict Z) :=
  if chunk_size =? 0 then Raise ZeroDivisionError
  else Ok (chunk_groups_from [] 0 (dict_keys ar) chunk_size).

(* ===================================================================== *)
(** * Sample inputs                                                        *)
(* ===================================================================== *)

(** A helper class on which the attribute the stages read exists and is the
    property [partitionable_axes]. *)
Definition aliased_partitionable_axis (h : VariableHelper) : result (list nat) :=
  Ok (VariableHelper.partitionable_axes h).

(** A dense 3 x 4 kernel of 48 bytes and a sparse 10 x 8 embedding table. *)
Definition kernel : Var :=
  mkVar "dense/kernel:0" GradTensor ["MatMul"%string] [3; 4] (inject_Z 48).

Definition embedding : Var :=
  mkVar "emb/table:0" GradIndexedSlices ["ResourceGather"%string] [10; 8]
        (inject_Z 320).

(** Five shards along axis 0. *)
Definition five_way : PartitionerConfig := PartitionerConfig_init [5; 1].

(** Three shards along axis 0. *)
Definition three_way : PartitionerConfig := PartitionerConfig_init [3; 1].

(** [get_op_name] on the names used below: the name up to the colon. *)
Fixpoint op_name_of (s : string) : string :=
  match s with
  | EmptyString => EmptyString
  | String c rest =>
      if Ascii.eqb c ":"%char then EmptyString else String c (op_name_of rest)
  end.

(** A load balancer that places every shard on the first CPU device, and a
    group assigner that puts every shard in group 0. *)
Definition first_device_balancer (ps : dict nat) (resource_spec : ResourceSpec.t)
    (helpers0 : dict Helper) (sort_by_size : bool) : result (dict string) :=
  match ResourceSpec.cpu_devices resource_spec with
  | [] => Raise IndexError
  | d :: _ => Ok (map (fun e : string * nat => (fst e, d)) ps)
  end.

Definition one_group_assigner (ar : dict nat) (helpers0 : dict Helper)
    (num_group : Z) : result (dict Z) :=
  Ok (map (fun e : string * nat => (fst e, 0)) ar).

(** One machine with two GPUs; two machines with two GPUs each; four
    machines with one GPU each. *)
Definition one_node : ResourceSpec.t :=
  ResourceSpec.mk ["cpu:0"]%string ["gpu:0"; "gpu:1"]%string 1 2.

Definition two_nodes : ResourceSpec.t :=
  ResourceSpec.mk ["n0/cpu:0"; "n1/cpu:0"]%string
                  ["n0/gpu:0"; "n0/gpu:1"; "n1/gpu:0"; "n1/gpu:1"]%string 2 4.

Definition four_nodes : ResourceSpec.t :=
  ResourceSpec.mk ["n0/cpu:0"; "n1/cpu:0"; "n2/cpu:0"; "n3/cpu:0"]%string
                  ["n0/gpu:0"; "n1/gpu:0"; "n2/gpu:0"; "n3/gpu:0"]%string 4 4.

(** The default space with sharding forced off, as a one-element list. *)
Definition never_partition_space : Space.t :=
  Space.mk ["PS"; "AR"]%string [false]
           ["HorovodCompressor"; "NoneCompressor"; "HorovodCompressorEF"]%string
           [false] [].

(** The default space with both local-replication options. *)
Definition replication_space : Space.t :=
  Space.mk ["PS"; "AR"]%string [true; false]
           ["HorovodCompressor"; "NoneCompressor"; "HorovodCompressorEF"]%string
           [false; true] [].

(** The default heuristics with: no sharding on a single node; in addition
    a load balancer the sampler does not know; byte-size bounds of 48 and
    320; the sentinel as both shard-count bounds. *)
Definition single_node_heuristics : Heuristics.t :=
  Heuristics.mk None None (Some (-1)) (-1, MAX_INT32)
                (inject_Z 0, inject_Z MAX_INT32) false
                (BInt 2, BInt MAX_INT32) true false.

Definition unknown_balancer_heuristics : Heuristics.t :=
  Heuristics.mk (Some "LP"%string) None (Some (-1)) (-1, MAX_INT32)
                (inject_Z 0, inject_Z MAX_INT32) false
                (BInt 2, BInt MAX_INT32) true false.

Definition threshold_heuristics : Heuristics.t :=
  Heuristics.mk None None (Some (-1)) (-1, MAX_INT32)
                (inject_Z 48, inject_Z 320) false
                (BInt 2, BInt MAX_INT32) false false.

Definition sentinel_heuristics : Heuristics.t :=
  Heuristics.mk None None (Some (-1)) (-1, MAX_INT32)
                (inject_Z 0, inject_Z MAX_INT32) false
                (BStr "num_nodes", BStr "num_nodes") false false.

(** The default heuristics with the chunk scheme and chunks of two. *)
Definition chunk_heuristics : Heuristics.t :=
  Heuristics.mk None (Some "by_chunk"%string) (Some 2) (-1, MAX_INT32)
                (inject_Z 0, inject_Z MAX_INT32) false
                (BInt 2, BInt MAX_INT32) false false.

(** A decentralized pool of five records. *)
Definition five_records : dict nat :=
  [("a:0", 0); ("b:0", 1); ("c:0", 2); ("d:0", 3); ("e:0", 4)]%string%nat.

(** A call starts with an empty helpers dict; the random source here reads
    3, 1, 4, 1, 5, 9, 2, 6 and then zeros. *)
Definition fresh_world : World := mkWorld [3; 1; 4; 1; 5; 9; 2; 6]%nat [].

From Stdlib Require Import DecimalPos DecimalZ.

(** A scalar step counter, and a sparse table of a single row. *)
Definition step_counter : Var :=
  mkVar "global_step:0" GradTensor ["AssignAddVariableOp"%string] [] (inject_Z 8).

Definition single_row : Var :=
  mkVar "emb/row:0" GradIndexedSlices ["ResourceGather"%string] [1; 8]
        (inject_Z 32).

(** A centralized and a decentralized leaf record, as the synchronizer
    stage leaves them, and a partitioned node over two centralized shards. *)
Definition ps_record : Node :=
  mkNode "a:0" "" (PS (PSSynchronizer.mk None false true 0)) [].

Definition ar_record : Node :=
  mkNode "b:0" "" (AR (AllReduceSynchronizer.mk AUTO HorovodCompressor None)) [].

Definition sharded_record : Node :=
  mkNode "c:0" "2,1" NoSynchronizer
    [mkNode "c/part_0:0" "" (PS (PSSynchronizer.mk None false true 0)) [];
     mkNode "c/part_1:0" "" (PS (PSSynchronizer.mk None false true 0)) []].

(** The default heuristics with a merge scheme the sampler does not know. *)
Definition unknown_scheme_heuristics : Heuristics.t :=
  Heuristics.mk None (Some "by_size"%string) (Some (-1)) (-1, MAX_INT32)
                (inject_Z 0, inject_Z MAX_INT32) false
                (BInt 2, BInt MAX_INT32) false false.

(* ===================================================================== *)
(** * The sampling stages                                                  *)
(* ===================================================================== *)

Section Sampler.

(** [autodist.kernel.common.utils.get_op_name] *)
Variable get_op_name : string -> string.

(** Outcome of evaluating [var_helper.partitionable_axis], the attribute
    the stages below read. For the class of this file it is
    [VariableHelper.getattr_partitionable_axis]. *)
Variable partitionable_axis : VariableHelper -> result (list nat).

(** [ps_load_balancer.greedy_load_balancer] and [christy_load_balancer]:
    pools, cluster, helpers and [sort_by_size] to a dict of destinations. *)
Variable greedy_load_balancer christy_load_balancer :
  dict nat -> ResourceSpec.t -> dict Helper -> bool -> result (dict string).

(** [ar_group_assigner.christy_group_assigner] and
    [ordered_balanced_group_assigner]: pool, helpers and number of groups
    to a dict of group ids. *)
Variable christy_group_assigner ordered_balanced_group_assigner :
  dict nat -> dict Helper -> Z -> result (dict Z).

(** The tail of [sample_if_partition], from the byte-size bounds on. *)
Definition sample_if_partition_by_size (var_helper : VariableHelper)
    (space : Space.t) (heuristics : Heuristics.t) : M PyVal :=
  let lb := fst (Heuristics.maybe_partition_bounds heuristics) in
  let ub := snd (Heuristics.maybe_partition_bounds heuristics) in
  if Qle_bool (VariableHelper.byte_size var_helper) lb then ret (PyBool false)
  else if Qle_bool ub (VariableHelper.byte_size var_helper) then ret (PyBool true)
  else if negb (List.length (Space.maybe_partition space) =? 2)%nat
  then raise AssertionError
  else if Heuristics.maybe_partition_by_size heuristics then
    if Qeq_bool (ub - lb) 0 then raise ZeroDivisionError
    else
      b <- sample_util.binary_sample
             ((VariableHelper.byte_size var_helper - lb) / (ub - lb)) ;;
      ret (PyBool b)
  else
    b <- sample_util.uniform_sample_by_choices (Space.maybe_partition space) ;;
    ret (PyBool b).

Definition sample_if_partition (var_helper : VariableHelper)
    (resource_spec : ResourceSpec.t) (space : Space.t)
    (heuristics : Heuristics.t) : M PyVal :=
  let reduction_device_names := ResourceSpec.cpu_devices resource_spec in
  if (List.length (Space.maybe_partition space) =? 1)%nat
  then ret (PyBoolList (Space.maybe_partition space))
  else if Heuristics.enable_single_node_no_partition heuristics
          && (List.length reduction_device_names <=? 1)%nat
  then ret (PyBool false)
  else
    axes <- lift (partitionable_axis var_helper) ;;
    if is_nil axes then ret (PyBool false)
    else if negb (is_nil (Space.partitionable_axis space))
            && (List.length (set_inter axes (Space.partitionable_axis space)) <? 1)%nat
    then ret (PyBool false)
    else sample_if_partition_by_size var_helper space heuristics.

Definition sample_if_local_replication (local_replication_space : list bool)
    (resource_spec : ResourceSpec.t) : M bool :=
  if ResourceSpec.num_gpus resource_spec <=? ResourceSpec.num_cpus resource_spec
  then ret false
  else sample_util.uniform_sample_by_choices local_replication_space.

Definition sample_ar_compressor (compressor_space : list string) : M string :=
  sample_util.uniform_sample_by_choices compressor_space.

(** The body both [sample_var_synchronizer] and the loop of
    [sample_parts_synchronizers] run once the kind is known. *)
Definition write_synchronizer (synchronizer_type : string) (node : Node)
    (resource_spec : ResourceSpec.t) (space : Space.t) : M Node :=
  if String.eqb synchronizer_type "PS" then
    let node := set_PS node (fun s =>
      PSSynchronizer.mk (PSSynchronizer.reduction_destination s)
                        (PSSynchronizer.local_replication s) true
                        (PSSynchronizer.staleness s)) in
    let node := set_PS node (fun s =>
      PSSynchronizer.mk (PSSynchronizer.reduction_destination s)
                        (PSSynchronizer.local_replication s)
                        (PSSynchronizer.sync s) 0) in
    lr <- sample_if_local_replication (Space.local_replication space) resource_spec ;;
    ret (set_PS node (fun s =>
      PSSynchronizer.mk (PSSynchronizer.reduction_destination s) lr
                        (PSSynchronizer.sync s) (PSSynchronizer.staleness s)))
  else
    let node := set_AR node (fun s =>
      AllReduceSynchronizer.mk AUTO (AllReduceSynchronizer.compressor s)
                               (AllReduceSynchronizer.group s)) in
    c <- sample_ar_compressor (Space.compressor space) ;;
    v <- lift (Compressor_Value c) ;;
    ret (set_AR node (fun s =>
      AllReduceSynchronizer.mk (AllReduceSynchronizer.spec s) v
                               (AllReduceSynchronizer.group s))).

Definition sample_var_synchronizer (node : Node) (var_helper : VariableHelper)
    (resource_spec : ResourceSpec.t) (space : Space.t) : M Node :=
  synchronizer_type <-
    (if VarType_eqb (VariableHelper.var_type var_helper) SPARSE then ret "PS"%string
     else sample_util.uniform_sample_by_choices (Space.synchronizer_types space)) ;;
  write_synchronizer synchronizer_type node resource_spec space.

Definition sample_parts_synchronizers (parts : list Node)
    (var_helper : VariableHelper) (resource_spec : ResourceSpec.t)
    (space : Space.t) (heuristics : Heuristics.t) : M (list Node) :=
  synchronizer_types <-
    (if VarType_eqb (VariableHelper.var_type var_helper) SPARSE
     then ret (repeat "PS"%string (List.length parts))
     else if Heuristics.same_synchronizer_for_parts heuristics then
       type <- sample_util.uniform_sample_by_choices (Space.synchronizer_types space) ;;
       ret (repeat type (List.length parts))
     else
       mapM (fun _ : Node =>
               sample_util.uniform_sample_by_choices (Space.synchronizer_types space))
            parts) ;;
  mapM (fun pt : Node * string =>
          write_synchronizer (snd pt) (fst pt) resource_spec space)
       (combine parts synchronizer_types).

Definition sample_partition_config (var_helper : VariableHelper)
    (resource_spec : ResourceSpec.t) (space : Space.t)
    (heuristics : Heuristics.t) : M PartitionerConfig :=
  axes <- lift (partitionable_axis var_helper) ;;
  if negb (0 <? List.length axes)%nat then raise AssertionError
  else
    let valid_axis :=
      if negb (is_nil (Space.partitionable_axis space))
      then set_inter axes (Space.partitionable_axis space)
      else axes in
    partition_axis <- sample_util.uniform_sample_by_choices valid_axis ;;
    let num_nodes := ResourceSpec.num_cpus resource_spec in
    dim_size <- lift match VariableHelper.shape var_helper with
                     | None => Raise TypeError
                     | Some s =>
                         match nth_error s partition_axis with
                         | Some d => Ok d
                         | None => Raise IndexError
                         end
                     end ;;
    max_shards <- lift match snd (Heuristics.num_partition_bounds heuristics) with
                       | BStr s =>
                           if String.eqb s "num_nodes" then Ok (Z.min dim_size num_nodes)
                           else Raise (ValueError "unseen num_partition_bounds config")
                       | BInt u => Ok (Z.min dim_size u)
                       | BOther => Raise (ValueError "unseen num_partition_bounds config")
                       end ;;
    let min_shards := 2 in
    min_shards <- lift match fst (Heuristics.num_partition_bounds heuristics) with
                       | BInt l => Ok (Z.max min_shards l)
                       | BStr s =>
                           (* [max(min_shards, 'num_nodes')]: the string itself is
                              compared with an [int] *)
                           if String.eqb s "num_nodes" then Raise TypeError
                           else Raise (ValueError "unseen num_partition_bounds config")
                       | BOther => Raise (ValueError "unseen num_partition_bounds config")
                       end ;;
    num_shards <- sample_util.uniform_sample_by_choices
                    (range2 min_shards (max_shards + 1)) ;;
    shape <- lift match VariableHelper.shape var_helper with
                  | None => Raise TypeError
                  | Some s => Ok s
                  end ;;
    let partition_list := repeat 1 (List.length shape) in
    let partition_list := list_set partition_list partition_axis num_shards in
    ret (PartitionerConfig_init partition_list).

(** ** Post-assignment of destinations and groups *)

(** One step of the classification loop of
    [sample_group_and_reduction_destinations]. *)
Definition classify_leaf (st : Pools) (leaf : Node) : result Pools :=
  rbind (which_synchronizer leaf) (fun synchronizer =>
    if has_compressor synchronizer
    then Ok (mkPools (ps_shards st)
                     (dict_set (ar_shards st) (var_name leaf) (idx st))
                     (S (idx st)))
    else Ok (mkPools (dict_set (ps_shards st) (var_name leaf) (idx st))
                     (ar_shards st)
                     (S (idx st)))).

Definition classify_node (st : Pools) (node : Node) : result Pools :=
  if str_truthy (partitioner node)
  then rfold classify_leaf (part_config node) st
  else classify_leaf st node.

Definition assign_ps_leaf (ps : dict (nat * string)) (leaf : Node) : result Node :=
  rbind (which_synchronizer leaf) (fun synchronizer =>
    match synchronizer with
    | PS s =>
        match dict_get ps (var_name leaf) with
        | Some (_, destination) =>
            Ok (with_synchronizer leaf
                  (PS (PSSynchronizer.mk (Some destination)
                         (PSSynchronizer.local_replication s)
                         (PSSynchronizer.sync s) (PSSynchronizer.staleness s))))
        | None => Raise KeyError
        end
    | _ => Ok leaf
    end).

Definition assign_ps_reduction_destinations (node_config : list Node)
    (ps : dict (nat * string)) : result (list Node) :=
  rmap (fun node =>
          if str_truthy (partitioner node)
          then rbind (rmap (assign_ps_leaf ps) (part_config node))
                     (fun parts => Ok (with_part_config node parts))
          else assign_ps_leaf ps node)
       node_config.

Definition assign_ar_leaf (ar : dict (nat * Z)) (leaf : Node) : result Node :=
  rbind (which_synchronizer leaf) (fun synchronizer =>
    match synchronizer with
    | AR s =>
        match dict_get ar (var_name leaf) with
        | Some (_, g) =>
            Ok (with_synchronizer leaf
                  (AR (AllReduceSynchronizer.mk (AllReduceSynchronizer.spec s)
                         (AllReduceSynchronizer.compressor s) (Some g))))
        | None => Raise KeyError
        end
    | _ => Ok leaf
    end).

Definition assign_ar_group (node_config : list Node)
    (ar : dict (nat * Z)) : result (list Node) :=
  rmap (fun node =>
          if str_truthy (partitioner node)
          then rbind (rmap (assign_ar_leaf ar) (part_config node))
                     (fun parts => Ok (with_part_config node parts))
          else assign_ar_leaf ar node)
       node_config.

(** [for name, (idx,) in shards.items(): shards[name] = (idx, values[name])] *)
Definition attach {V} (shards : dict nat) (values : dict V) : result (dict (nat * V)) :=
  rmap (fun e : string * nat =>
          match dict_get values (fst e) with
          | Some v => Ok (fst e, (snd e, v))
          | None => Raise KeyError
          end)
       shards.

(** [not load_balancer]: [None] or the empty string. *)
Definition opt_str_falsy (o : option string) : bool :=
  match o with
  | None => true
  | Some s => negb (str_truthy s)
  end.

Definition opt_str_eqb (o : option string) (s : string) : bool :=
  match o with
  | None => false
  | Some s' => String.eqb s' s
  end.

Definition sample_ps_reduction_destinations (node_config : list Node)
    (ps : dict nat) (resource_spec : ResourceSpec.t) (helpers : dict Helper)
    (heuristics : Heuristics.t) : M (list Node) :=
  let load_balancer := Heuristics.ps_load_balancer heuristics in
  let reduction_device_names := ResourceSpec.cpu_devices resource_spec in
  destinations <-
    (if opt_str_falsy load_balancer then
       foldM (fun (destinations : dict string) shard_name =>
                d <- sample_util.uniform_sample_by_choices reduction_device_names ;;
                ret (dict_set destinations shard_name d))
             (dict_keys ps) []
     else if opt_str_eqb load_balancer "greedy" then
       lift (greedy_load_balancer ps resource_spec helpers false)
     else if opt_str_eqb load_balancer "christy" then
       lift (christy_load_balancer ps resource_spec helpers false)
     else if opt_str_eqb load_balancer "sorted_christy" then
       lift (christy_load_balancer ps resource_spec helpers true)
     else if opt_str_eqb load_balancer "sorted_greedy" then
       lift (greedy_load_balancer ps resource_spec helpers true)
     else raise (ValueError "Cannot recognize load balancer")) ;;
  ps <- lift (attach ps destinations) ;;
  lift (assign_ps_reduction_destinations node_config ps).

Definition sample_num_ar_groups (ar : dict nat) (lb ub : Z) : M Z :=
  let min_num_group := Z.max 1 lb in
  let max_num_group := Z.min (Z.of_nat (List.length ar)) ub in
  sample_util.uniform_sample_by_choices (range2 min_num_group (max_num_group + 1)).

Definition sample_chunk_size (num_ar_shards : Z) : M Z :=
  sample_util.uniform_sample_by_choices (range2 1 (num_ar_shards + 1)).

(** The first half of [sample_ar_groups]: the chunk size or the number of
    groups, and the assertion on it. *)
Definition resolve_chunk_size_or_num_group (ar : dict nat)
    (heuristics : Heuristics.t) : M Z :=
  let merge_scheme := Heuristics.merge_scheme heuristics in
  chunk_size_or_num_group <-
    (if opt_str_eqb merge_scheme "by_chunk" then
       match Heuristics.chunk_size heuristics with
       | Some c =>
           if 0 <? c then ret c
           else sample_chunk_size (Z.of_nat (List.length ar))
       | None => sample_chunk_size (Z.of_nat (List.length ar))
       end
     else
       sample_num_ar_groups ar
         (fst (Heuristics.num_group_bounds heuristics))
         (snd (Heuristics.num_group_bounds heuristics))) ;;
  if 0 <? chunk_size_or_num_group then ret chunk_size_or_num_group
  else raise AssertionError.

(** The second half: the dict of group ids, by scheme. *)
Definition group_assignments_of (ar : dict nat) (helpers : dict Helper)
    (heuristics : Heuristics.t) (chunk_size_or_num_group : Z) : M (dict Z) :=
  let merge_scheme := Heuristics.merge_scheme heuristics in
  if opt_str_eqb merge_scheme "random"
     || match merge_scheme with None => true | Some _ => false end
  then
    tmp_assignments <-
      sample_util.sample_merge_group chunk_size_or_num_group (List.length ar) ;;
    ret (fold_left (fun (group_assignments : dict Z) (e : string * Z) =>
                      dict_set group_assignments (fst e) (snd e))
                   (combine (dict_keys ar) tmp_assignments) [])
  else if opt_str_eqb merge_scheme "by_chunk" then
    lift (chunk_group_assigner ar chunk_size_or_num_group)
  else if opt_str_eqb merge_scheme "christy" then
    lift (christy_group_assigner ar helpers chunk_size_or_num_group)
  else if opt_str_eqb merge_scheme "ordered_balanced" then
    lift (ordered_balanced_group_assigner ar helpers chunk_size_or_num_group)
  else raise (ValueError "unseen merge scheme..").

Definition sample_ar_groups (node_config : list Node) (ar : dict nat)
    (helpers : dict Helper) (heuristics : Heuristics.t) : M (list Node) :=
  chunk_size_or_num_group <- resolve_chunk_size_or_num_group ar heuristics ;;
  group_assignments <-
    group_assignments_of ar helpers heuristics chunk_size_or_num_group ;;
  ar <- lift (attach ar group_assignments) ;;
  lift (assign_ar_group node_config ar).

Definition sample_group_and_reduction_destinations (node_config : list Node)
    (resource_spec : ResourceSpec.t) (helpers : dict Helper)
    (heuristics : Heuristics.t) : M (list Node) :=
  pools <- lift (rfold classify_node node_config (mkPools [] [] 0)) ;;
  node_config <-
    (if (0 <? List.length (ps_shards pools))%nat
     then sample_ps_reduction_destinations node_config (ps_shards pools)
            resource_spec helpers heuristics
     else ret node_config) ;;
  if (0 <? List.length (ar_shards pools))%nat
  then sample_ar_groups node_config (ar_shards pools) helpers heuristics
  else ret node_config.

(** ** RandomStrategySampler.build *)

(** ['{}/part_{}:0'.format(get_op_name(var.name), i)] *)
Definition part_name (v : Var) (i : Z) : string :=
  (get_op_name (name v) ++ "/part_" ++ str_of_Z i ++ ":0")%string.

(** The body of the loop over the variables. *)
Definition build_var (space : Space.t) (heuristics : Heuristics.t)
    (resource_spec : ResourceSpec.t) (node_config : list Node) (v : Var)
    : M (list Node) :=
  let var_helper := mkVariableHelper v in
  set_helper (name (var var_helper)) (VarH var_helper) ;;;
  let node := with_var_name new_Node (name (var var_helper)) in
  maybe_partition <- sample_if_partition var_helper resource_spec space heuristics ;;
  node <-
    (if negb (truthy maybe_partition) then
       sample_var_synchronizer node var_helper resource_spec space
     else
       pc <- sample_partition_config var_helper resource_spec space heuristics ;;
       let node := with_partitioner node (partition_str pc) in
       parts <- foldM (fun (parts : list Node) i =>
                         let part := with_var_name new_Node (part_name v i) in
                         set_helper (var_name part) (PartH (mkPartHelper i v pc)) ;;;
                         ret (parts ++ [part]))
                      (range (num_shards pc)) [] ;;
       parts <- sample_parts_synchronizers parts var_helper resource_spec
                  space heuristics ;;
       ret (with_part_config node (part_config node ++ parts))) ;;
  ret (node_config ++ [node]).

(** [build]: the nodes one variable after the other, the post-assignment,
    then [self._reset()]. *)
Definition build (space : Space.t) (heuristics : Heuristics.t)
    (graph_item : list Var) (resource_spec : ResourceSpec.t) : M Strategy :=
  let replicas := ResourceSpec.gpu_devices resource_spec in
  node_config <- foldM (build_var space heuristics resource_spec) graph_item [] ;;
  helpers <- get_helpers ;;
  node_config <- sample_group_and_reduction_destinations node_config
                   resource_spec helpers heuristics ;;
  clear_helpers ;;;
  ret (mkStrategy replicas node_config).

(** ** Notions the properties are stated with *)

(** Extent of shard [i] along the partition axis, for an axis of extent
    [e] cut into [n] shards. *)
Definition shard_extent (e n i : Z) : Z :=
  if i <? e mod n then e / n + 1 else e / n.

(** The local-replication flag of a record, if it is centralized,
    satisfies [P]. *)
Definition PS_flag (P : bool -> Prop) (n : Node) : Prop :=
  forall s, synchronizer n = PS s -> P (PSSynchronizer.local_replication s).

(** A record whose synchronizer is the centralized one. *)
Definition is_PS (n : Node) : Prop := exists s, synchronizer n = PS s.

(** The axes [sample_partition_config] chooses among. *)
Definition valid_axes (axes : list nat) (space : Space.t) : list nat :=
  if negb (is_nil (Space.partitionable_axis space))
  then set_inter axes (Space.partitionable_axis space)
  else axes.

(** The upper bound on the shard count, for an axis of extent [dim]. *)
Definition upper_shards (dim : Z) (resource_spec : ResourceSpec.t)
    (b : PyBound) : option Z :=
  match b with
  | BInt u => Some (Z.min dim u)
  | BStr s =>
      if String.eqb s "num_nodes"
      then Some (Z.min dim (ResourceSpec.num_cpus resource_spec))
      else None
  | BOther => None
  end.

(** [heuristics] with another value under ['merge_scheme'], or under
    ['chunk_size']. *)
Definition with_merge_scheme (h : Heuristics.t) (m : option string) : Heuristics.t :=
  Heuristics.mk (Heuristics.ps_load_balancer h) m (Heuristics.chunk_size h)
    (Heuristics.num_group_bounds h) (Heuristics.maybe_partition_bounds h)
    (Heuristics.maybe_partition_by_size h) (Heuristics.num_partition_bounds h)
    (Heuristics.enable_single_node_no_partition h)
    (Heuristics.same_synchronizer_for_parts h).

Definition with_chunk_size (h : Heuristics.t) (c : option Z) : Heuristics.t :=
  Heuristics.mk (Heuristics.ps_load_balancer h) (Heuristics.merge_scheme h) c
    (Heuristics.num_group_bounds h) (Heuristics.maybe_partition_bounds h)
    (Heuristics.maybe_partition_by_size h) (Heuristics.num_partition_bounds h)
    (Heuristics.enable_single_node_no_partition h)
    (Heuristics.same_synchronizer_for_parts h).

(** The leaf records of a list of node configs: the shards of a
    partitioned node, the node itself otherwise. *)
Definition leaves_of (node : Node) : list Node :=
  if str_truthy (partitioner node) then part_config node else [node].

Definition leaves (node_config : list Node) : list Node :=
  flat_map leaves_of node_config.

(** The number of groups a resolved value stands for: the number of chunks
    of that size under the chunk scheme, the value itself otherwise. *)
Definition group_count (heuristics : Heuristics.t) (c : Z) (pool : nat) : Z :=
  if opt_str_eqb (Heuristics.merge_scheme heuristics) "by_chunk"
  then (Z.of_nat pool + c - 1) / c
  else c.

(** A leaf record with one synchronizer set, a destination among the
    CPU devices if it is centralized, a group id below [count] if it is
    decentralized. *)
Definition leaf_assigned (resource_spec : ResourceSpec.t) (count : Z)
    (leaf : Node) : Prop :=
  match synchronizer leaf with
  | NoSynchronizer => False
  | PS s =>
      exists d, PSSynchronizer.reduction_destination s = Some d /\
                In d (ResourceSpec.cpu_devices resource_spec)
  | AR s =>
      exists g, AllReduceSynchronizer.group s = Some g /\ 0 <= g < count
  end.

(** What the specification asks of a load balancer: it "must only use
    devices from the provided aggregation-device list". *)
Definition uses_given_devices
    (balancer : dict nat -> ResourceSpec.t -> dict Helper -> bool
                -> result (dict string)) : Prop :=
  forall ps resource_spec helpers0 sort_by_size destinations,
    balancer ps resource_spec helpers0 sort_by_size = Ok destinations ->
    forall shard_name d,
      dict_get destinations shard_name = Some d ->
      In d (ResourceSpec.cpu_devices resource_spec).

(** What the specification asks of a group assigner: a "group id in
    [0, resolved group count)". *)
Definition groups_below_count
    (assigner : dict nat -> dict Helper -> Z -> result (dict Z)) : Prop :=
  forall ar helpers0 num_group assignments,
    0 < num_group ->
    assigner ar helpers0 num_group = Ok assignments ->
    forall shard_name g,
      dict_get assignments shard_name = Some g -> 0 <= g < num_group.

(** The loop both [assign_ps_reduction_destinations] and
    [assign_ar_group] are: [f] on the shards of a partitioned node, on the
    node itself otherwise. *)
Definition assign_leaves (f : Node -> result Node) (node_config : list Node)
    : result (list Node) :=
  rmap (fun node =>
          if str_truthy (partitioner node)
          then rbind (rmap f (part_config node))
                     (fun parts => Ok (with_part_config node parts))
          else f node)
       node_config.

(** A leaf record as the classification loop sees it. *)
Definition pooled (st : Pools) (leaf : Node) : Prop :=
  match synchronizer leaf with
  | NoSynchronizer => False
  | PS _ => In (var_name leaf) (dict_keys (ps_shards st))
  | AR _ => In (var_name leaf) (dict_keys (ar_shards st))
  end.

(** A leaf record before and after the destinations are written. *)
Definition ps_written (resource_spec : ResourceSpec.t) (leaf leaf' : Node) : Prop :=
  var_name leaf' = var_name leaf /\
  match synchronizer leaf with
  | PS _ =>
      exists s' d, synchronizer leaf' = PS s' /\
                   PSSynchronizer.reduction_destination s' = Some d /\
                   In d (ResourceSpec.cpu_devices resource_spec)
  | _ => synchronizer leaf' = synchronizer leaf
  end.

(** A leaf record before and after the groups are written. *)
Definition ar_written (count : Z) (leaf leaf' : Node) : Prop :=
  var_name leaf' = var_name leaf /\
  match synchronizer leaf with
  | AR _ =>
      exists s' g, synchronizer leaf' = AR s' /\
                   AllReduceSynchronizer.group s' = Some g /\ 0 <= g < count
  | _ => synchronizer leaf' = synchronizer leaf
  end.

(** Two leaf records of the same name and the same kind of synchronizer. *)
Definition same_kind (leaf leaf' : Node) : Prop :=
  var_name leaf' = var_name leaf /\
  match synchronizer leaf, synchronizer leaf' with
  | NoSynchronizer, NoSynchronizer => True
  | PS _, PS _ => True
  | AR _, AR _ => True
  | _, _ => False
  end.

(** A computation that leaves [self.helpers] as it found it, whether it
    returns or raises. *)
Definition keeps_helpers {A} (m : M A) : Prop :=
  forall w r w', m w = (r, w') -> helpers w' = helpers w.

(** A computation that removes no key of [self.helpers]. *)
Definition helpers_grow {A} (m : M A) : Prop :=
  forall w r w' k,
    m w = (r, w') ->
    In k (dict_keys (helpers w)) -> In k (dict_keys (helpers w')).

(** A record whose synchronizer is the decentralized one. *)
Definition is_AR (n : Node) : Prop := exists s, synchronizer n = AR s.

(** The destination a record carries, and the group: [None] when the
    member of the oneof is not the one that has the field. *)
Definition destination_of (n : Node) : option string :=
  match synchronizer n with
  | PS s => PSSynchronizer.reduction_destination s
  | _ => None
  end.

Definition group_of (n : Node) : option Z :=
  match synchronizer n with
  | AR s => AllReduceSynchronizer.group s
  | _ => None
  end.

(** Two states of a leaf record that differ at most in the destination of
    a centralized synchronizer or the group of a decentralized one. *)
Definition frame_leaf (leaf leaf' : Node) : Prop :=
  var_name leaf' = var_name leaf /\
  partitioner leaf' = partitioner leaf /\
  part_config leaf' = part_config leaf /\
  match synchronizer leaf, synchronizer leaf' with
  | NoSynchronizer, NoSynchronizer => True
  | PS s, PS s' =>
      PSSynchronizer.local_replication s' = PSSynchronizer.local_replication s /\
      PSSynchronizer.sync s' = PSSynchronizer.sync s /\
      PSSynchronizer.staleness s' = PSSynchronizer.staleness s
  | AR s, AR s' =>
      AllReduceSynchronizer.spec s' = AllReduceSynchronizer.spec s /\
      AllReduceSynchronizer.compressor s' = AllReduceSynchronizer.compressor s
  | _, _ => False
  end.

(** The same for a node config: for a partitioned node the node itself is
    as it was and the shards correspond one to one. *)
Definition frame_node (node node' : Node) : Prop :=
  var_name node' = var_name node /\
  partitioner node' = partitioner node /\
  if str_truthy (partitioner node)
  then synchronizer node' = synchronizer node /\
       Forall2 frame_leaf (part_config node) (part_config node')
  else frame_leaf node node'.

(** A leaf record before and after [assign_ps_reduction_destinations]: a
    centralized one has the destination the dict holds under its name
    and is otherwise as it was, a decentralized one is as it was. *)
Definition ps_assigned_from (ps : dict (nat * string)) (leaf leaf' : Node) : Prop :=
  match synchronizer leaf with
  | NoSynchronizer => False
  | PS s =>
      exists i d,
        dict_get ps (var_name leaf) = Some (i, d) /\
        leaf' = with_synchronizer leaf
                  (PS (PSSynchronizer.mk (Some d)
                         (PSSynchronizer.local_replication s)
                         (PSSynchronizer.sync s) (PSSynchronizer.staleness s)))
  | AR _ => leaf' = leaf
  end.

(** The same for [assign_ar_group]. *)
Definition ar_assigned_from (ar : dict (nat * Z)) (leaf leaf' : Node) : Prop :=
  match synchronizer leaf with
  | NoSynchronizer => False
  | PS _ => leaf' = leaf
  | AR s =>
      exists i g,
        dict_get ar (var_name leaf) = Some (i, g) /\
        leaf' = with_synchronizer leaf
                  (AR (AllReduceSynchronizer.mk (AllReduceSynchronizer.spec s)
                         (AllReduceSynchronizer.compressor s) (Some g)))
  end.

(** What [build] makes of one variable: a node under the variable's name;
    when the partition decision came out false (or falsy), a node without
    partitioner and shards; otherwise a node with the string of a
    partition configuration the stage returned for it, and one shard per
    index named after the variable and the index. *)
Definition node_built (space : Space.t) (heuristics : Heuristics.t)
    (resource_spec : ResourceSpec.t) (v : Var) (node : Node) : Prop :=
  var_name node = name v /\
  exists maybe_partition w0 w1,
    sample_if_partition (mkVariableHelper v) resource_spec space heuristics w0
    = (Ok maybe_partition, w1) /\
    if truthy maybe_partition
    then exists c w2 w3,
           sample_partition_config (mkVariableHelper v) resource_spec space
             heuristics w2 = (Ok c, w3) /\
           partitioner node = partition_str c /\
           map var_name (part_config node)
           = map (part_name v) (range (num_shards c))
    else partitioner node = EmptyString /\ part_config node = [].

(** What one pass of the classification loop keeps true of the pools. *)
Definition pools_ok (st : Pools) : Prop :=
  NoDup (dict_keys (ps_shards st)) /\
  NoDup (dict_keys (ar_shards st)) /\
  (forall k i, dict_get (ps_shards st) k = Some i -> (i < idx st)%nat) /\
  (forall k i, dict_get (ar_shards st) k = Some i -> (i < idx st)%nat).

(** A leaf record whose name is a key of the helpers dict of a world. *)
Definition has_helper (w : World) (leaf : Node) : Prop :=
  In (var_name leaf) (dict_keys (helpers w)).

(** A leaf record before and after [sample_ar_groups], given the dict of
    group ids it made: a decentralized record carries the id the dict
    holds under its name and is otherwise as it was, a centralized one is
    as it was. *)
Definition group_written_from (group_assignments : dict Z)
    (leaf leaf' : Node) : Prop :=
  match synchronizer leaf with
  | NoSynchronizer => False
  | PS _ => leaf' = leaf
  | AR s =>
      exists g,
        dict_get group_assignments (var_name leaf) = Some g /\
        leaf' = with_synchronizer leaf
                  (AR (AllReduceSynchronizer.mk (AllReduceSynchronizer.spec s)
                         (AllReduceSynchronizer.compressor s) (Some g)))
  end.

(** What [build] makes of one variable, in the world [w0] in which the
    call reaches the partition decision for it (the variable's helper
    recorded): a node under the variable's name; the decision is the one
    [sample_if_partition] returns in [w0]; when it is falsy the node has
    no partitioner and no shards; otherwise the partitioner is the string
    of the configuration [sample_partition_config] returns in the world
    the decision left, and there is one shard per index, named after the
    variable and the index. *)
Definition node_built_at (space : Space.t) (heuristics : Heuristics.t)
    (resource_spec : ResourceSpec.t) (w0 : World) (v : Var) (node : Node)
    : Prop :=
  var_name node = name v /\
  exists maybe_partition w1,
    sample_if_partition (mkVariableHelper v) resource_spec space heuristics w0
    = (Ok maybe_partition, w1) /\
    if truthy maybe_partition
    then exists c w2,
           sample_partition_config (mkVariableHelper v) resource_spec space
             heuristics w1 = (Ok c, w2) /\
           partitioner node = partition_str c /\
           map var_name (part_config node)
           = map (part_name v) (range (num_shards c))
    else partitioner node = EmptyString /\ part_config node = [].

(* =================================================================== *)
(** * Properties                                                       *)
(* =================================================================== *)

Unset Implicit Arguments.

(** ** Lists, sums and results *)

Lemma nth_error_list_set_eq {A} (l : list A) (i : nat) (v x : A) :
  nth_error l i = Some x -> nth_error (list_set l i v) i = Some v.
Proof.
  revert i; induction l as [|a l IH]; intros [|i] H; simpl in *;
    try discriminate; auto.
Qed.

Lemma nth_error_list_set_neq {A} (l : list A) (i j : nat) (v : A) :
  j <> i -> nth_error (list_set l i v) j = nth_error l j.
Proof.
  revert i j; induction l as [|a l IH]; intros [|i] [|j] H; simpl;
    try reflexivity; try congruence.
  apply IH; congruence.
Qed.

Lemma length_list_set {A} (l : list A) (i : nat) (v : A) :
  List.length (list_set l i v) = List.length l.
Proof.
  revert i; induction l as [|a l IH]; intros [|i]; simpl; auto.
Qed.

Lemma rmap_ok_map {A B} (f : A -> result B) (g : A -> B) (l : list A) :
  (forall x, In x l -> f x = Ok (g x)) -> rmap f l = Ok (map g l).
Proof.
  induction l as [|a l IH]; intros H; simpl; [reflexivity|].
  rewrite (H a (or_introl eq_refl)); simpl.
  rewrite IH by (intros; apply H; right; assumption).
  reflexivity.
Qed.

Lemma in_range (n i : Z) : In i (range n) <-> 0 <= i < n.
Proof.
  unfold range; rewrite in_map_iff; split.
  - intros [k [<- Hk]]. apply in_seq in Hk. lia.
  - intros H. exists (Z.to_nat i). split; [lia|]. apply in_seq. lia.
Qed.

Lemma in_range2 (a b i : Z) : In i (range2 a b) <-> a <= i < b.
Proof.
  unfold range2; rewrite in_map_iff; split.
  - intros [k [<- Hk]]. apply in_seq in Hk. lia.
  - intros H. exists (Z.to_nat (i - a)). split; [lia|]. apply in_seq. lia.
Qed.

(** Extents [q + 1] for the first [r] indices and [q] for the others, over
    the first [n] indices. *)
Lemma Zsum_extents (q r : Z) (n : nat) :
  0 <= r ->
  Zsum (map (fun i => if i <? r then q + 1 else q) (map Z.of_nat (seq 0 n)))
  = Z.of_nat n * q + Z.min (Z.of_nat n) r.
Proof.
  intros Hr. induction n as [|n IH]; [simpl; lia|].
  rewrite seq_S, !map_app, Nat2Z.inj_succ. cbn [map Nat.add].
  unfold Zsum in *. rewrite fold_right_app. cbn [fold_right].
  assert (Hshift : forall l a,
             fold_right Z.add a l = fold_right Z.add 0 l + a).
  { induction l as [|x l IHl]; intros a; cbn [fold_right]; [lia|].
    rewrite IHl. lia. }
  rewrite Hshift, IH.
  destruct (Z.ltb_spec (Z.of_nat n) r); lia.
Qed.

Lemma Qsum_scaled (b : Q) (e : Z) (l : list Z) :
  e <> 0 ->
  (Qsum (map (fun d => b * inject_Z d / inject_Z e) l)
   == b * inject_Z (Zsum l) / inject_Z e)%Q.
Proof.
  intros He.
  assert (Hq : ~ (inject_Z e == 0)%Q).
  { unfold Qeq, inject_Z; simpl. lia. }
  induction l as [|d l IH]; simpl.
  - field. exact Hq.
  - rewrite IH. rewrite inject_Z_plus. field. exact Hq.
Qed.

(** ** PartHelper *)

Lemma PartHelper_shape_ok (i : Z) (v : Var) (c : PartitionerConfig) (e : Z) :
  nth_error (initial_shape v) (axis c) = Some e ->
  num_shards c <> 0 ->
  PartHelper.shape (mkPartHelper i v c)
  = Ok (list_set (initial_shape v) (axis c) (shard_extent e (num_shards c) i)).
Proof.
  intros He Hn. unfold PartHelper.shape, shard_extent; simpl.
  rewrite He. destruct (Z.eqb_spec (num_shards c) 0); [contradiction|].
  destruct (i <? e mod num_shards c); reflexivity.
Qed.

Lemma part_extent_ok (i : Z) (v : Var) (c : PartitionerConfig) (e : Z) :
  nth_error (initial_shape v) (axis c) = Some e ->
  num_shards c <> 0 ->
  part_extent (mkPartHelper i v c) = Ok (shard_extent e (num_shards c) i).
Proof.
  intros He Hn. unfold part_extent.
  rewrite (PartHelper_shape_ok i v c e He Hn); simpl.
  rewrite (nth_error_list_set_eq _ _ _ _ He). reflexivity.
Qed.

Lemma PartHelper_byte_size_ok (i : Z) (v : Var) (c : PartitionerConfig) (e : Z) :
  nth_error (initial_shape v) (axis c) = Some e ->
  num_shards c <> 0 -> e <> 0 ->
  PartHelper.byte_size (mkPartHelper i v c)
  = Ok (byte_size_load v * inject_Z (shard_extent e (num_shards c) i) / inject_Z e)%Q.
Proof.
  intros He Hn He0. unfold PartHelper.byte_size, PartHelper.var_shape.
  rewrite (PartHelper_shape_ok i v c e He Hn); simpl.
  rewrite (nth_error_list_set_eq _ _ _ _ He), He.
  destruct (Z.eqb_spec e 0); [contradiction|reflexivity].
Qed.

Lemma Zsum_shard_extents (e n : Z) :
  0 < n -> Zsum (map (shard_extent e n) (range n)) = e.
Proof.
  intros Hn. unfold range, shard_extent.
  rewrite (Zsum_extents (e / n) (e mod n) (Z.to_nat n)).
  - pose proof (Z.mod_pos_bound e n Hn).
    pose proof (Z.div_mod e n ltac:(lia)). nia.
  - apply Z.mod_pos_bound; assumption.
Qed.

(** C5. For a parameter cut into [n] shards along an axis of extent [e]
    with [0 < n <= e]: the shape of shard [i] can be read, its extent along
    the partition axis is [e / n], plus one for the first [e mod n]
    shards, and it agrees with the parent's shape on every other axis;
    the extents of the shards sum to [e]; and the byte sizes of the
    shards (the parent's scaled by the fraction of the extent, in exact
    arithmetic) sum to the parent's byte size. *)
Theorem part_shapes_split (v : Var) (c : PartitionerConfig) (e : Z) :
  nth_error (initial_shape v) (axis c) = Some e ->
  0 < num_shards c <= e ->
  (forall i, 0 <= i < num_shards c ->
     exists s,
       PartHelper.shape (mkPartHelper i v c) = Ok s /\
       nth_error s (axis c)
       = Some (e / num_shards c + (if i <? e mod num_shards c then 1 else 0)) /\
       List.length s = List.length (initial_shape v) /\
       forall j, j <> axis c -> nth_error s j = nth_error (initial_shape v) j) /\
  (exists extents,
      rmap part_extent (part_helpers v c) = Ok extents /\
      Zsum extents = e) /\
  (exists sizes,
      rmap PartHelper.byte_size (part_helpers v c) = Ok sizes /\
      (Qsum sizes == byte_size_load v)%Q).
Proof.
  intros He [Hn Hle].
  assert (Hn0 : num_shards c <> 0) by lia.
  assert (He0 : e <> 0) by lia.
  split; [|split].
  - intros i Hi. eexists. split; [apply (PartHelper_shape_ok i v c e He Hn0)|].
    split; [|split].
    + rewrite (nth_error_list_set_eq _ _ _ _ He). unfold shard_extent.
      destruct (i <? e mod num_shards c); f_equal; lia.
    + apply length_list_set.
    + intros j Hj. apply nth_error_list_set_neq; assumption.
  - exists (map (shard_extent e (num_shards c)) (range (num_shards c))).
    split; [|apply Zsum_shard_extents; assumption].
    replace (map (shard_extent e (num_shards c)) (range (num_shards c)))
      with (map (fun p => shard_extent e (num_shards c) (part_idx p))
                (part_helpers v c))
      by (unfold part_helpers; rewrite map_map; reflexivity).
    apply rmap_ok_map. intros p Hp. apply in_map_iff in Hp.
    destruct Hp as [i [<- _]]. simpl. apply part_extent_ok; assumption.
  - exists (map (fun d => byte_size_load v * inject_Z d / inject_Z e)%Q
                (map (shard_extent e (num_shards c)) (range (num_shards c)))).
    split.
    + replace (map (fun d => byte_size_load v * inject_Z d / inject_Z e)%Q
                   (map (shard_extent e (num_shards c)) (range (num_shards c))))
        with (map (fun p => (byte_size_load v
                             * inject_Z (shard_extent e (num_shards c) (part_idx p))
                             / inject_Z e)%Q)
                  (part_helpers v c))
        by (unfold part_helpers; rewrite !map_map; reflexivity).
      apply rmap_ok_map. intros p Hp. apply in_map_iff in Hp.
      destruct Hp as [i [<- _]]. simpl. apply PartHelper_byte_size_ok; assumption.
    + rewrite (Qsum_scaled (byte_size_load v) e _ He0).
      rewrite Zsum_shard_extents by assumption.
      field. unfold Qeq, inject_Z; simpl. lia.
Qed.

(** ** The monad *)

Lemma bind_ok {A B} (m : M A) (f : A -> M B) (w w' : World) (b : B) :
  bind m f w = (Ok b, w') ->
  exists a w1, m w = (Ok a, w1) /\ f a w1 = (Ok b, w').
Proof.
  unfold bind. destruct (m w) as [[a|e] w1]; intros H; [|discriminate].
  exists a, w1. split; [reflexivity|assumption].
Qed.

Lemma bind_raise {A B} (m : M A) (f : A -> M B) (w w' : World) (e : exn) :
  bind m f w = (Raise e, w') ->
  m w = (Raise e, w') \/
  exists a w1, m w = (Ok a, w1) /\ f a w1 = (Raise e, w').
Proof.
  unfold bind. destruct (m w) as [[a|e0] w1]; intros H.
  - right. exists a, w1. split; [reflexivity|assumption].
  - left. injection H as -> ->. reflexivity.
Qed.

Lemma mapM_ok {A B} (f : A -> M B) (l : list A) :
  forall w ys w',
    mapM f l w = (Ok ys, w') ->
    Forall2 (fun x y => exists w1 w2, f x w1 = (Ok y, w2)) l ys.
Proof.
  induction l as [|x l IH]; intros w ys w' H; simpl in H.
  - injection H as <- _. constructor.
  - apply bind_ok in H. destruct H as [y [w1 [Hy H]]].
    apply bind_ok in H. destruct H as [ys' [w2 [Hys H]]].
    injection H as <- _. constructor; [eauto | eapply IH; eassumption].
Qed.

Lemma mapM_raise {A B} (f : A -> M B) (l : list A) :
  forall w e w',
    mapM f l w = (Raise e, w') ->
    exists x w1 w2, In x l /\ f x w1 = (Raise e, w2).
Proof.
  induction l as [|x l IH]; intros w e w' H; simpl in H; [discriminate|].
  apply bind_raise in H. destruct H as [H | [y [w1 [Hy H]]]].
  - exists x, w, w'. split; [left; reflexivity | assumption].
  - apply bind_raise in H. destruct H as [H | [ys [w2 [Hys H]]]]; [|discriminate].
    destruct (IH _ _ _ H) as [x' [wa [wb [Hin Hx']]]].
    exists x', wa, wb. split; [right; assumption | assumption].
Qed.

(** ** sample_util *)

Lemma draw_ok (w : World) : exists r w', draw w = (Ok r, w') /\ helpers w' = helpers w.
Proof.
  unfold draw. destruct (rng w) as [|r rest]; eauto.
Qed.

Lemma nth_mod_In {A} (r : nat) (l : list A) (d : A) :
  l <> [] -> In (nth (r mod List.length l)%nat l d) l.
Proof.
  intros Hl. apply nth_In. apply Nat.mod_upper_bound.
  destruct l; [contradiction | discriminate].
Qed.

Lemma uniform_sample_in {A} (l : list A) (w w' : World) (x : A) :
  sample_util.uniform_sample_by_choices l w = (Ok x, w') -> In x l.
Proof.
  destruct l as [|d l]; [discriminate|].
  unfold sample_util.uniform_sample_by_choices. intros H.
  apply bind_ok in H. destruct H as [r [w1 [_ H]]].
  unfold ret in H.
  assert (Hx : nth (r mod List.length (d :: l))%nat (d :: l) d = x) by congruence.
  rewrite <- Hx. apply nth_mod_In. discriminate.
Qed.

Lemma uniform_sample_raise {A} (l : list A) (w w' : World) (e : exn) :
  sample_util.uniform_sample_by_choices l w = (Raise e, w') ->
  l = [] /\ e = ConfigurationError /\ w' = w.
Proof.
  destruct l as [|d l].
  - intros [= <- <-]. auto.
  - unfold sample_util.uniform_sample_by_choices, bind, draw.
    destruct (rng w); discriminate.
Qed.

Lemma uniform_sample_helpers {A} (l : list A) (w w' : World) (r : result A) :
  sample_util.uniform_sample_by_choices l w = (r, w') -> helpers w' = helpers w.
Proof.
  destruct l as [|d l]; [intros [= _ <-]; reflexivity|].
  unfold sample_util.uniform_sample_by_choices, bind, draw.
  destruct (rng w); intros [= _ <-]; reflexivity.
Qed.

(** Every choice is the outcome for some value of the random source. *)
Lemma uniform_sample_reach {A} (l : list A) (x : A) :
  In x l ->
  exists r, forall hs,
    sample_util.uniform_sample_by_choices l (mkWorld [r] hs)
    = (Ok x, mkWorld [] hs).
Proof.
  intros Hin. destruct l as [|d l]; [contradiction|].
  destruct (In_nth _ _ d Hin) as [n [Hn Hx]].
  exists n. intros hs.
  unfold sample_util.uniform_sample_by_choices, bind, draw, ret; simpl rng.
  cbv iota beta. rewrite Nat.mod_small by assumption. rewrite Hx. reflexivity.
Qed.

(** ** The partition decision *)

(** C3. With a single entry [b] in [space['maybe_partition']] the stage
    returns at once, without reading the helper or the random source; what
    it returns is the one-element list itself, which [build] reads as true
    whatever [b] is. *)
Theorem sample_if_partition_singleton (var_helper : VariableHelper)
    (resource_spec : ResourceSpec.t) (space : Space.t)
    (heuristics : Heuristics.t) (b : bool) (w : World) :
  Space.maybe_partition space = [b] ->
  sample_if_partition var_helper resource_spec space heuristics w
  = (Ok (PyBoolList [b]), w) /\
  truthy (PyBoolList [b]) = true.
Proof.
  intros Hs. unfold sample_if_partition. rewrite Hs. simpl. auto.
Qed.

Lemma sample_if_partition_past_checks (var_helper : VariableHelper)
    (resource_spec : ResourceSpec.t) (space : Space.t)
    (heuristics : Heuristics.t) (axes : list nat) (w : World) :
  List.length (Space.maybe_partition space) <> 1%nat ->
  Heuristics.enable_single_node_no_partition heuristics
  && (List.length (ResourceSpec.cpu_devices resource_spec) <=? 1)%nat = false ->
  partitionable_axis var_helper = Ok axes ->
  axes <> [] ->
  (Space.partitionable_axis space = []
   \/ set_inter axes (Space.partitionable_axis space) <> []) ->
  sample_if_partition var_helper resource_spec space heuristics w
  = sample_if_partition_by_size var_helper space heuristics w.
Proof.
  intros Hlen Hsingle Hattr Haxes Hinter. unfold sample_if_partition.
  destruct (Nat.eqb_spec (List.length (Space.maybe_partition space)) 1);
    [contradiction|].
  rewrite Hsingle. unfold bind, lift. rewrite Hattr.
  destruct axes as [|a axes]; [contradiction|]. cbn [is_nil].
  destruct Hinter as [-> | Hne]; [reflexivity|].
  destruct (set_inter (a :: axes) (Space.partitionable_axis space));
    [contradiction|].
  rewrite andb_false_r. reflexivity.
Qed.

(** C4. For a parameter that passes the single-device and the
    partitionable-axis checks under a space that does not force the
    outcome, the decision at the byte-size bounds is deterministic and
    consults no randomness: a byte size at or below the lower bound gives
    false, and, the lower bound being below the upper one, a byte size at
    or above the upper bound gives true. The two comparisons are made in
    this order, so that the second holds more generally for any byte size
    at or above the upper bound that is above the lower one. *)
Theorem sample_if_partition_at_bounds (var_helper : VariableHelper)
    (resource_spec : ResourceSpec.t) (space : Space.t)
    (heuristics : Heuristics.t) (axes : list nat) (w : World) :
  List.length (Space.maybe_partition space) <> 1%nat ->
  Heuristics.enable_single_node_no_partition heuristics
  && (List.length (ResourceSpec.cpu_devices resource_spec) <=? 1)%nat = false ->
  partitionable_axis var_helper = Ok axes ->
  axes <> [] ->
  (Space.partitionable_axis space = []
   \/ set_inter axes (Space.partitionable_axis space) <> []) ->
  ((VariableHelper.byte_size var_helper
    <= fst (Heuristics.maybe_partition_bounds heuristics))%Q ->
   sample_if_partition var_helper resource_spec space heuristics w
   = (Ok (PyBool false), w)) /\
  ((fst (Heuristics.maybe_partition_bounds heuristics)
    < snd (Heuristics.maybe_partition_bounds heuristics))%Q ->
   (snd (Heuristics.maybe_partition_bounds heuristics)
    <= VariableHelper.byte_size var_helper)%Q ->
   sample_if_partition var_helper resource_spec space heuristics w
   = (Ok (PyBool true), w)) /\
  ((fst (Heuristics.maybe_partition_bounds heuristics)
    < VariableHelper.byte_size var_helper)%Q ->
   (snd (Heuristics.maybe_partition_bounds heuristics)
    <= VariableHelper.byte_size var_helper)%Q ->
   sample_if_partition var_helper resource_spec space heuristics w
   = (Ok (PyBool true), w)).
Proof.
  intros Hlen Hsingle Hattr Haxes Hinter.
  rewrite (sample_if_partition_past_checks var_helper resource_spec space
             heuristics axes w Hlen Hsingle Hattr Haxes Hinter).
  assert (Habove :
            (fst (Heuristics.maybe_partition_bounds heuristics)
             < VariableHelper.byte_size var_helper)%Q ->
            (snd (Heuristics.maybe_partition_bounds heuristics)
             <= VariableHelper.byte_size var_helper)%Q ->
            sample_if_partition_by_size var_helper space heuristics w
            = (Ok (PyBool true), w)).
  { intros Hlt Hge. unfold sample_if_partition_by_size.
    destruct (Qle_bool (VariableHelper.byte_size var_helper)
                (fst (Heuristics.maybe_partition_bounds heuristics))) eqn:E.
    + apply Qle_bool_iff in E. exfalso. apply (Qlt_not_le _ _ Hlt E).
    + apply Qle_bool_iff in Hge. rewrite Hge. reflexivity. }
  split; [|split].
  - intros Hle. unfold sample_if_partition_by_size.
    apply Qle_bool_iff in Hle. rewrite Hle. reflexivity.
  - intros Hord Hge. apply Habove; [|exact Hge].
    eapply Qlt_le_trans; eassumption.
  - exact Habove.
Qed.

(** ** Local replication and the synchronizer of a leaf *)

Lemma sample_if_local_replication_in (sp : list bool) (rs : ResourceSpec.t)
    (w w' : World) (b : bool) :
  ResourceSpec.num_cpus rs < ResourceSpec.num_gpus rs ->
  sample_if_local_replication sp rs w = (Ok b, w') -> In b sp.
Proof.
  intros Hlt. unfold sample_if_local_replication.
  destruct (Z.leb_spec (ResourceSpec.num_gpus rs) (ResourceSpec.num_cpus rs));
    [lia|].
  apply uniform_sample_in.
Qed.

(** What [write_synchronizer] leaves in the node, by kind. *)
Lemma write_synchronizer_PS (ty : string) (node : Node) (rs : ResourceSpec.t)
    (space : Space.t) (w w' : World) (node' : Node) (s : PSSynchronizer.t) :
  write_synchronizer ty node rs space w = (Ok node', w') ->
  synchronizer node' = PS s ->
  ty = "PS"%string /\
  PSSynchronizer.sync s = true /\ PSSynchronizer.staleness s = 0 /\
  exists w1, sample_if_local_replication (Space.local_replication space) rs w
             = (Ok (PSSynchronizer.local_replication s), w1).
Proof.
  unfold write_synchronizer. destruct (String.eqb_spec ty "PS") as [->|Hne].
  - intros H Hs. apply bind_ok in H. destruct H as [lr [w1 [Hlr H]]].
    unfold ret in H. injection H as <- <-. simpl in Hs. injection Hs as <-.
    simpl. repeat split. exists w1. assumption.
  - intros H Hs. apply bind_ok in H. destruct H as [c [w1 [_ H]]].
    apply bind_ok in H. destruct H as [v [w2 [_ H]]].
    unfold ret in H. injection H as <- <-. simpl in Hs. discriminate.
Qed.

Lemma write_synchronizer_kind (ty : string) (node : Node) (rs : ResourceSpec.t)
    (space : Space.t) (w w' : World) (node' : Node) :
  write_synchronizer ty node rs space w = (Ok node', w') ->
  var_name node' = var_name node /\
  partitioner node' = partitioner node /\
  part_config node' = part_config node /\
  if String.eqb ty "PS"
  then exists s, synchronizer node' = PS s
  else exists s, synchronizer node' = AR s.
Proof.
  unfold write_synchronizer. destruct (String.eqb ty "PS").
  - intros H. apply bind_ok in H. destruct H as [lr [w1 [_ H]]].
    unfold ret in H. injection H as <- <-. simpl. eauto.
  - intros H. apply bind_ok in H. destruct H as [c [w1 [_ H]]].
    apply bind_ok in H. destruct H as [v [w2 [_ H]]].
    unfold ret in H. injection H as <- <-. simpl. eauto.
Qed.

Lemma write_synchronizer_PS_raise (node : Node) (rs : ResourceSpec.t)
    (space : Space.t) (w w' : World) (e : exn) :
  write_synchronizer "PS" node rs space w = (Raise e, w') ->
  e = ConfigurationError /\ Space.local_replication space = [] /\
  ResourceSpec.num_cpus rs < ResourceSpec.num_gpus rs.
Proof.
  unfold write_synchronizer. cbn [String.eqb Ascii.eqb Bool.eqb andb].
  intros H. apply bind_raise in H. destruct H as [H | [lr [w1 [_ H]]]];
    [|discriminate].
  unfold sample_if_local_replication in H.
  destruct (Z.leb_spec (ResourceSpec.num_gpus rs) (ResourceSpec.num_cpus rs));
    [discriminate|].
  apply uniform_sample_raise in H. destruct H as [Hnil [He _]]. auto.
Qed.

Lemma sample_var_synchronizer_written (node : Node) (var_helper : VariableHelper)
    (resource_spec : ResourceSpec.t) (space : Space.t) (w w' : World)
    (node' : Node) :
  sample_var_synchronizer node var_helper resource_spec space w = (Ok node', w') ->
  exists ty w1, write_synchronizer ty node resource_spec space w1 = (Ok node', w').
Proof.
  unfold sample_var_synchronizer. intros H.
  apply bind_ok in H. destruct H as [ty [w1 [_ H]]]. eauto.
Qed.

Lemma sample_parts_synchronizers_written (parts : list Node)
    (var_helper : VariableHelper) (resource_spec : ResourceSpec.t)
    (space : Space.t) (heuristics : Heuristics.t) (w w' : World)
    (parts' : list Node) :
  sample_parts_synchronizers parts var_helper resource_spec space heuristics w
  = (Ok parts', w') ->
  Forall (fun part' =>
            exists ty part w1 w2,
              write_synchronizer ty part resource_spec space w1 = (Ok part', w2))
         parts'.
Proof.
  unfold sample_parts_synchronizers. intros H.
  apply bind_ok in H. destruct H as [tys [w1 [_ H]]].
  apply mapM_ok in H.
  induction H as [|[part ty] part' l l' [wa [wb Hp]] _ IH]; constructor; [|exact IH].
  exists ty, part, wa, wb. exact Hp.
Qed.

(** C8. When the cluster has no more GPUs than CPUs, the local-replication
    decision is false whatever the option set is, without reading the
    random source, and so is the flag of every centralized leaf record,
    unpartitioned node or shard; otherwise the decision is the uniform
    choice over the option set: the flag of a centralized leaf record is
    one of the options, and every option is the outcome for some value of
    the random source. *)
Theorem local_replication_rule (resource_spec : ResourceSpec.t) :
  (ResourceSpec.num_gpus resource_spec <= ResourceSpec.num_cpus resource_spec ->
   (forall local_replication_space w,
       sample_if_local_replication local_replication_space resource_spec w
       = (Ok false, w)) /\
   (forall node var_helper space w node' w',
       sample_var_synchronizer node var_helper resource_spec space w
       = (Ok node', w') ->
       PS_flag (fun b => b = false) node') /\
   (forall parts var_helper space heuristics w parts' w',
       sample_parts_synchronizers parts var_helper resource_spec space heuristics w
       = (Ok parts', w') ->
       Forall (PS_flag (fun b => b = false)) parts')) /\
  (ResourceSpec.num_cpus resource_spec < ResourceSpec.num_gpus resource_spec ->
   (forall local_replication_space w,
       sample_if_local_replication local_replication_space resource_spec w
       = sample_util.uniform_sample_by_choices local_replication_space w) /\
   (forall node var_helper space w node' w',
       sample_var_synchronizer node var_helper resource_spec space w
       = (Ok node', w') ->
       PS_flag (fun b => In b (Space.local_replication space)) node') /\
   (forall parts var_helper space heuristics w parts' w',
       sample_parts_synchronizers parts var_helper resource_spec space heuristics w
       = (Ok parts', w') ->
       Forall (PS_flag (fun b => In b (Space.local_replication space))) parts') /\
   (forall local_replication_space b,
       In b local_replication_space ->
       exists r, forall hs,
         sample_if_local_replication local_replication_space resource_spec
           (mkWorld [r] hs)
         = (Ok b, mkWorld [] hs))).
Proof.
  split.
  - intros Hle.
    assert (Hf : forall sp w,
               sample_if_local_replication sp resource_spec w = (Ok false, w)).
    { intros sp w. unfold sample_if_local_replication.
      destruct (Z.leb_spec (ResourceSpec.num_gpus resource_spec)
                  (ResourceSpec.num_cpus resource_spec)); [reflexivity | lia]. }
    assert (Hw : forall ty node space w node' w',
               write_synchronizer ty node resource_spec space w = (Ok node', w') ->
               PS_flag (fun b => b = false) node').
    { intros ty node space w node' w' H s Hs.
      destruct (write_synchronizer_PS ty node resource_spec space w w' node' s H Hs)
        as [_ [_ [_ [w1 Hlr]]]].
      rewrite Hf in Hlr. congruence. }
    split; [exact Hf|]. split.
    + intros node var_helper space w node' w' H.
      apply sample_var_synchronizer_written in H. destruct H as [ty [w1 H]].
      eapply Hw. eassumption.
    + intros parts var_helper space heuristics w parts' w' H.
      apply sample_parts_synchronizers_written in H.
      eapply Forall_impl; [|exact H].
      intros part' [ty [part [w1 [w2 Hp]]]]. eapply Hw. eassumption.
  - intros Hlt.
    assert (Hu : forall sp w,
               sample_if_local_replication sp resource_spec w
               = sample_util.uniform_sample_by_choices sp w).
    { intros sp w. unfold sample_if_local_replication.
      destruct (Z.leb_spec (ResourceSpec.num_gpus resource_spec)
                  (ResourceSpec.num_cpus resource_spec)); [lia | reflexivity]. }
    assert (Hw : forall ty node space w node' w',
               write_synchronizer ty node resource_spec space w = (Ok node', w') ->
               PS_flag (fun b => In b (Space.local_replication space)) node').
    { intros ty node space w node' w' H s Hs.
      destruct (write_synchronizer_PS ty node resource_spec space w w' node' s H Hs)
        as [_ [_ [_ [w1 Hlr]]]].
      eapply sample_if_local_replication_in; eassumption. }
    split; [exact Hu|]. split; [|split].
    + intros node var_helper space w node' w' H.
      apply sample_var_synchronizer_written in H. destruct H as [ty [w1 H]].
      eapply Hw. eassumption.
    + intros parts var_helper space heuristics w parts' w' H.
      apply sample_parts_synchronizers_written in H.
      eapply Forall_impl; [|exact H].
      intros part' [ty [part [w1 [w2 Hp]]]]. eapply Hw. eassumption.
    + intros sp b Hin. destruct (uniform_sample_reach sp b Hin) as [r Hr].
      exists r. intros hs. rewrite Hu. apply Hr.
Qed.

Lemma combine_repeat_In {A B} (l : list A) (b : B) (n : nat) (p : A * B) :
  In p (combine l (repeat b n)) -> snd p = b.
Proof.
  revert n; induction l as [|a l IH]; intros [|n] H; simpl in H;
    try contradiction.
  destruct H as [<- | H]; [reflexivity | eapply IH; eassumption].
Qed.

Lemma Forall2_length_Forall {A B} (R : A -> B -> Prop) (P : B -> Prop)
    (l : list A) (l' : list B) :
  Forall2 R l l' -> (forall x y, In x l -> R x y -> P y) ->
  List.length l' = List.length l /\ Forall P l'.
Proof.
  induction 1 as [|x y l l' Hxy _ IH]; intros HP; [split; constructor|].
  destruct IH as [Hlen Hall]; [intros; eapply HP; [right|]; eassumption|].
  split; [simpl; congruence|].
  constructor; [eapply HP; [left; reflexivity | eassumption] | assumption].
Qed.

(** C2. For a SPARSE parameter the synchronizer written is the centralized
    one, for the unpartitioned parameter and for each of its shards,
    whatever [space['synchronizer_types']] holds and whatever
    [same_synchronizer_for_parts] is. The call returns unless the
    local-replication draw is from an empty option set (more GPUs than
    CPUs and no option), the only way it raises. *)
Theorem sparse_always_PS (var_helper : VariableHelper)
    (resource_spec : ResourceSpec.t) (space : Space.t)
    (heuristics : Heuristics.t) :
  VariableHelper.var_type var_helper = SPARSE ->
  (forall node w,
      match sample_var_synchronizer node var_helper resource_spec space w with
      | (Ok node', _) => is_PS node'
      | (Raise e, _) =>
          e = ConfigurationError /\ Space.local_replication space = [] /\
          ResourceSpec.num_cpus resource_spec < ResourceSpec.num_gpus resource_spec
      end) /\
  (forall parts w,
      match sample_parts_synchronizers parts var_helper resource_spec space
              heuristics w with
      | (Ok parts', _) =>
          List.length parts' = List.length parts /\ Forall is_PS parts'
      | (Raise e, _) =>
          e = ConfigurationError /\ Space.local_replication space = [] /\
          ResourceSpec.num_cpus resource_spec < ResourceSpec.num_gpus resource_spec
      end).
Proof.
  intros Hsparse. split.
  - intros node w. unfold sample_var_synchronizer. rewrite Hsparse.
    cbn [VarType_eqb]. unfold bind at 1, ret at 1.
    destruct (write_synchronizer "PS" node resource_spec space w)
      as [[node'|e] w'] eqn:E.
    + destruct (write_synchronizer_kind _ _ _ _ _ _ _ E) as [_ [_ [_ H]]].
      exact H.
    + eapply write_synchronizer_PS_raise; eassumption.
  - intros parts w. unfold sample_parts_synchronizers. rewrite Hsparse.
    cbn [VarType_eqb]. unfold bind at 1, ret at 1.
    destruct (mapM _ _ w) as [[parts'|e] w'] eqn:E.
    + apply mapM_ok in E.
      destruct (Forall2_length_Forall _ is_PS _ _ E) as [Hlen Hall].
      * intros [p ty] y Hin [w1 [w2 Hy]].
        apply combine_repeat_In in Hin. simpl in Hin, Hy. subst ty.
        destruct (write_synchronizer_kind _ _ _ _ _ _ _ Hy) as [_ [_ [_ H]]].
        exact H.
      * split; [|assumption]. rewrite Hlen, length_combine, repeat_length.
        apply Nat.min_id.
    + apply mapM_raise in E. destruct E as [[p ty] [w1 [w2 [Hin Hx]]]].
      apply combine_repeat_In in Hin. simpl in Hin, Hx. subst ty.
      eapply write_synchronizer_PS_raise; eassumption.
Qed.

(** ** The partition configuration *)

Lemma lift_ok {A} (r : result A) (w w' : World) (a : A) :
  lift r w = (Ok a, w') -> r = Ok a /\ w' = w.
Proof. unfold lift. intros H. injection H as -> ->. auto. Qed.

Lemma fold_mul_ones (k : nat) : fold_right Z.mul 1 (repeat 1 k) = 1.
Proof. induction k as [|k IH]; simpl; [reflexivity|]. rewrite IH. reflexivity. Qed.

Lemma one_hot_product (k a : nat) (n : Z) :
  (a < k)%nat -> fold_right Z.mul 1 (list_set (repeat 1 k) a n) = n.
Proof.
  revert a; induction k as [|k IH]; intros [|a] H; try lia;
    cbn [repeat list_set fold_right].
  - rewrite fold_mul_ones. lia.
  - rewrite IH by lia. destruct n; reflexivity.
Qed.

Lemma one_hot_first_sharded (k a i : nat) (n : Z) :
  (a < k)%nat -> 1 < n ->
  first_sharded i (list_set (repeat 1 k) a n) = (i + a)%nat.
Proof.
  revert a i; induction k as [|k IH]; intros [|a] i H Hn; try lia;
    cbn [repeat list_set first_sharded].
  - destruct (Z.ltb_spec 1 n); lia.
  - cbn [Z.ltb Z.compare Pos.compare Pos.compare_cont]. rewrite IH by lia. lia.
Qed.

Lemma one_hot_others (k a j : nat) (n : Z) :
  j <> a -> (j < k)%nat -> nth_error (list_set (repeat 1 k) a n) j = Some 1.
Proof.
  intros Hj Hk. rewrite nth_error_list_set_neq by assumption.
  rewrite nth_error_repeat by assumption. reflexivity.
Qed.

(** What a returned partition configuration is made of. *)
Lemma sample_partition_config_ok (var_helper : VariableHelper)
    (resource_spec : ResourceSpec.t) (space : Space.t)
    (heuristics : Heuristics.t) (w w' : World) (c : PartitionerConfig) :
  sample_partition_config var_helper resource_spec space heuristics w = (Ok c, w') ->
  exists axes a shape dim lower upper n,
    partitionable_axis var_helper = Ok axes /\
    In a (valid_axes axes space) /\
    VariableHelper.shape var_helper = Some shape /\
    nth_error shape a = Some dim /\
    fst (Heuristics.num_partition_bounds heuristics) = BInt lower /\
    upper_shards dim resource_spec (snd (Heuristics.num_partition_bounds heuristics))
    = Some upper /\
    Z.max 2 lower <= n <= upper /\
    c = PartitionerConfig_init (list_set (repeat 1 (List.length shape)) a n).
Proof.
  unfold sample_partition_config. intros H.
  apply bind_ok in H. destruct H as [axes [w1 [Ha H]]].
  apply lift_ok in Ha. destruct Ha as [Ha ->].
  destruct (negb (0 <? List.length axes)%nat); [discriminate|].
  apply bind_ok in H. destruct H as [a [w2 [Hax H]]].
  apply uniform_sample_in in Hax.
  apply bind_ok in H. destruct H as [dim [w3 [Hdim H]]].
  apply lift_ok in Hdim. destruct Hdim as [Hdim ->].
  apply bind_ok in H. destruct H as [upper [w4 [Hup H]]].
  apply lift_ok in Hup. destruct Hup as [Hup ->].
  apply bind_ok in H. destruct H as [lo [w5 [Hlo H]]].
  apply lift_ok in Hlo. destruct Hlo as [Hlo ->].
  apply bind_ok in H. destruct H as [n [w6 [Hn H]]].
  apply uniform_sample_in in Hn. apply in_range2 in Hn.
  apply bind_ok in H. destruct H as [shape [w7 [Hsh H]]].
  apply lift_ok in Hsh. destruct Hsh as [Hsh ->].
  unfold ret in H. injection H as <- _.
  destruct (VariableHelper.shape var_helper) as [s|] eqn:Es; [|discriminate].
  injection Hsh as ->.
  destruct (nth_error shape a) as [d|] eqn:Ed; [|discriminate].
  injection Hdim as ->.
  destruct (fst (Heuristics.num_partition_bounds heuristics)) as [l|s|] eqn:El;
    [| destruct (String.eqb s "num_nodes"); discriminate | discriminate].
  injection Hlo as <-.
  exists axes, a, shape, dim, l, upper, n.
  repeat split; try assumption; try reflexivity; try lia.
  unfold upper_shards.
  destruct (snd (Heuristics.num_partition_bounds heuristics)) as [u|s|];
    [congruence | | discriminate].
  destruct (String.eqb s "num_nodes"); [congruence | discriminate].
Qed.

(** A returned configuration is read back as the chosen axis and the drawn
    shard count, which does not exceed the extent of the axis. *)
Lemma sample_partition_config_extent (var_helper : VariableHelper)
    (resource_spec : ResourceSpec.t) (space : Space.t)
    (heuristics : Heuristics.t) (w w' : World) (c : PartitionerConfig) :
  sample_partition_config var_helper resource_spec space heuristics w = (Ok c, w') ->
  exists dim,
    nth_error (initial_shape (var var_helper)) (axis c) = Some dim /\
    2 <= num_shards c <= dim.
Proof.
  intros H. apply sample_partition_config_ok in H.
  destruct H as (axes & a & shape & dim & lower & upper & n
                 & _ & _ & Hsh & Hdim & _ & Hup & Hn & ->).
  assert (Ha : (a < List.length shape)%nat)
    by (apply nth_error_Some; congruence).
  assert (Hud : upper <= dim).
  { unfold upper_shards in Hup.
    destruct (snd (Heuristics.num_partition_bounds heuristics)) as [u|s|];
      [| destruct (String.eqb s "num_nodes") |]; inversion Hup; lia. }
  unfold PartitionerConfig_init; cbn [axis num_shards].
  rewrite one_hot_product by assumption.
  rewrite one_hot_first_sharded by (assumption || lia).
  unfold VariableHelper.shape in Hsh.
  destruct (is_nil (initial_shape (var var_helper))); [discriminate|].
  injection Hsh as ->. exists dim. split; [assumption | lia].
Qed.

(** X20. The descriptor of a returned configuration: the drawn shard count
    on the chosen axis, a legal one, and 1 on every other axis of the
    shape, the count within the inclusive range from [max(2, lower)] to
    the upper bound, itself capped by the extent of the axis. *)
Lemma sample_partition_config_descriptor (var_helper : VariableHelper)
    (resource_spec : ResourceSpec.t) (space : Space.t)
    (heuristics : Heuristics.t) (w w' : World) (c : PartitionerConfig) :
  sample_partition_config var_helper resource_spec space heuristics w = (Ok c, w') ->
  exists axes a shape dim lower upper n,
    partitionable_axis var_helper = Ok axes /\
    In a (valid_axes axes space) /\
    VariableHelper.shape var_helper = Some shape /\
    nth_error shape a = Some dim /\
    fst (Heuristics.num_partition_bounds heuristics) = BInt lower /\
    upper_shards dim resource_spec (snd (Heuristics.num_partition_bounds heuristics))
    = Some upper /\
    Z.max 2 lower <= n <= upper /\
    List.length (partition_list c) = List.length shape /\
    nth_error (partition_list c) a = Some n /\
    (forall j, j <> a -> (j < List.length shape)%nat ->
               nth_error (partition_list c) j = Some 1) /\
    axis c = a /\ num_shards c = n.
Proof.
  intros H. apply sample_partition_config_ok in H.
  destruct H as (axes & a & shape & dim & lower & upper & n
                 & Hax & Ha & Hsh & Hdim & Hlo & Hup & Hn & ->).
  assert (Hlt : (a < List.length shape)%nat)
    by (apply nth_error_Some; congruence).
  exists axes, a, shape, dim, lower, upper, n.
  unfold PartitionerConfig_init; cbn [partition_list axis num_shards].
  repeat split; try assumption; try lia.
  - rewrite length_list_set, repeat_length. reflexivity.
  - apply nth_error_list_set_eq with (x := 1).
    apply nth_error_repeat. assumption.
  - intros j Hj Hk. apply one_hot_others; assumption.
  - rewrite one_hot_first_sharded by (assumption || lia). reflexivity.
  - apply one_hot_product. assumption.
Qed.

(** C7. With the sentinel ["num_nodes"] as the lower entry of
    [num_partition_bounds] the stage never returns a configuration: once
    the axis is chosen and the upper bound computed, the lower bound is
    the maximum of 2 and the string itself, a [TypeError], where the
    number of devices was meant. *)
Theorem sample_partition_config_lower_sentinel (var_helper : VariableHelper)
    (resource_spec : ResourceSpec.t) (space : Space.t)
    (heuristics : Heuristics.t) (w : World) :
  fst (Heuristics.num_partition_bounds heuristics) = BStr "num_nodes" ->
  is_ok (fst (sample_partition_config var_helper resource_spec space heuristics w))
  = false /\
  (forall axes shape,
      partitionable_axis var_helper = Ok axes ->
      axes <> [] -> valid_axes axes space <> [] ->
      VariableHelper.shape var_helper = Some shape ->
      (forall a, In a (valid_axes axes space) -> (a < List.length shape)%nat) ->
      (forall dim, upper_shards dim resource_spec
                     (snd (Heuristics.num_partition_bounds heuristics))
                   <> None) ->
      fst (sample_partition_config var_helper resource_spec space heuristics w)
      = Raise TypeError).
Proof.
  intros Hlo. split.
  - destruct (sample_partition_config var_helper resource_spec space heuristics w)
      as [[c|e] w'] eqn:E; [|reflexivity].
    apply sample_partition_config_ok in E.
    destruct E as (axes & a & shape & dim & lower & upper & n
                   & _ & _ & _ & _ & Hl & _). congruence.
  - intros axes shape Hax Hne Hvalid Hsh Hin Hup.
    unfold sample_partition_config. unfold bind at 1, lift at 1. rewrite Hax.
    destruct axes as [|a0 axes]; [contradiction|]. cbn [List.length Nat.ltb Nat.leb negb].
    fold (valid_axes (a0 :: axes) space).
    unfold bind at 1.
    destruct (sample_util.uniform_sample_by_choices (valid_axes (a0 :: axes) space) w)
      as [[a|e] w1] eqn:Ea.
    + apply uniform_sample_in in Ea. specialize (Hin a Ea).
      rewrite Hsh.
      destruct (nth_error shape a) as [dim|] eqn:Ed;
        [|apply nth_error_None in Ed; lia].
      unfold bind at 1, lift at 1. unfold bind at 1, lift at 1.
      specialize (Hup dim). unfold upper_shards in Hup.
      destruct (snd (Heuristics.num_partition_bounds heuristics)) as [u|s|];
        [| destruct (String.eqb s "num_nodes") |]; try contradiction;
        unfold bind at 1, lift at 1; rewrite Hlo; reflexivity.
    + apply uniform_sample_raise in Ea. destruct Ea as [Hnil _]. contradiction.
Qed.

(** C6 (as amended). Reading the shape of a shard compares nothing: when
    the extent [e] of the partition axis is below the number of shards,
    the read returns the parent's shape with the partition axis set to 1
    for the shards of index below [e] and to 0 for the others; and the
    only exceptions a read can raise are [IndexError] (the axis is not an
    axis of the shape) and [ZeroDivisionError] (no shards). The
    configurations the partition-config stage returns, the ones [build]
    makes shards with, have a shard count that does not exceed the extent
    of their axis. *)
Theorem PartHelper_shape_unchecked (i : Z) (v : Var) (c : PartitionerConfig) (e : Z) :
  nth_error (initial_shape v) (axis c) = Some e ->
  0 <= e < num_shards c ->
  PartHelper.shape (mkPartHelper i v c)
  = Ok (list_set (initial_shape v) (axis c) (if i <? e then 1 else 0)) /\
  (forall p x, PartHelper.shape p = Raise x ->
               x = IndexError \/ x = ZeroDivisionError) /\
  (forall var_helper resource_spec space heuristics w w' c',
      sample_partition_config var_helper resource_spec space heuristics w
      = (Ok c', w') ->
      exists dim,
        nth_error (initial_shape (var var_helper)) (axis c') = Some dim /\
        num_shards c' <= dim).
Proof.
  intros He Hlt. split; [|split].
  - rewrite (PartHelper_shape_ok i v c e He) by lia.
    unfold shard_extent.
    rewrite Z.div_small, Z.mod_small by lia. reflexivity.
  - clear. intros p x. unfold PartHelper.shape.
    destruct (nth_error _ _); [|intros H; inversion H; left; reflexivity].
    destruct (num_shards (pc p) =? 0); [intros H; inversion H; right; reflexivity|].
    discriminate.
  - intros var_helper resource_spec space heuristics w w' c' H.
    destruct (sample_partition_config_extent _ _ _ _ _ _ _ H) as [dim [Hd Hn]].
    exists dim. split; [assumption | lia].
Qed.


(** ** Dicts *)

Lemma dict_get_set_eq {V} (d : dict V) (k : string) (v : V) :
  dict_get (dict_set d k v) k = Some v.
Proof.
  induction d as [|[k' v'] d IH]; simpl.
  - rewrite String.eqb_refl. reflexivity.
  - destruct (String.eqb k k') eqn:E; simpl; rewrite E; [reflexivity | exact IH].
Qed.

Lemma dict_get_set_neq {V} (d : dict V) (k k' : string) (v : V) :
  k' <> k -> dict_get (dict_set d k v) k' = dict_get d k'.
Proof.
  intros Hne. induction d as [|[k0 v0] d IH]; simpl.
  - destruct (String.eqb_spec k' k); [contradiction | reflexivity].
  - destruct (String.eqb_spec k k0) as [->|Hk]; simpl.
    + destruct (String.eqb_spec k' k0); [contradiction | reflexivity].
    + destruct (String.eqb k' k0); [reflexivity | exact IH].
Qed.

Lemma dict_get_set {V} (d : dict V) (k k' : string) (v x : V) :
  dict_get (dict_set d k v) k' = Some x ->
  (k' = k /\ x = v) \/ dict_get d k' = Some x.
Proof.
  destruct (String.eqb_spec k' k) as [->|Hne].
  - rewrite dict_get_set_eq. intros [= <-]. left. auto.
  - rewrite dict_get_set_neq by assumption. auto.
Qed.

Lemma dict_get_In {V} (d : dict V) (k : string) (v : V) :
  dict_get d k = Some v -> In (k, v) d.
Proof.
  induction d as [|[k' v'] d IH]; simpl; [discriminate|].
  destruct (String.eqb_spec k k') as [->|Hne].
  - intros [= ->]. left. reflexivity.
  - intros H. right. apply IH. assumption.
Qed.

Lemma dict_get_keys {V} (d : dict V) (k : string) :
  In k (dict_keys d) -> exists v, dict_get d k = Some v.
Proof.
  unfold dict_keys. induction d as [|[k' v'] d IH]; simpl; [contradiction|].
  intros [-> | H].
  - rewrite String.eqb_refl. eauto.
  - destruct (String.eqb k k'); [eauto | apply IH; assumption].
Qed.

Lemma dict_keys_set {V} (d : dict V) (k k' : string) (v : V) :
  In k' (dict_keys (dict_set d k v)) <-> k' = k \/ In k' (dict_keys d).
Proof.
  clear. unfold dict_keys. induction d as [|[k0 v0] d IH]; simpl.
  - intuition congruence.
  - destruct (String.eqb_spec k k0) as [->|Hne]; simpl.
    + intuition congruence.
    + rewrite IH. intuition congruence.
Qed.

(** The values of a dict filled by a loop of assignments. *)
Lemma fold_dict_set_values {V} (P : V -> Prop) (l : list (string * V)) :
  forall d,
    (forall k v, dict_get d k = Some v -> P v) ->
    (forall e, In e l -> P (snd e)) ->
    forall k v,
      dict_get (fold_left (fun (acc : dict V) (e : string * V) =>
                             dict_set acc (fst e) (snd e)) l d) k = Some v ->
      P v.
Proof.
  induction l as [|e l IH]; intros d Hd Hl k v; simpl; [apply Hd|].
  apply IH.
  - intros k0 v0 H0. apply dict_get_set in H0. destruct H0 as [[_ ->] | H0].
    + apply Hl. left. reflexivity.
    + eapply Hd. eassumption.
  - intros e0 He0. apply Hl. right. assumption.
Qed.

Lemma fold_dict_set_keys {V} (l : list (string * V)) :
  forall d k,
    In k (map fst l) \/ In k (dict_keys d) ->
    In k (dict_keys (fold_left (fun (acc : dict V) (e : string * V) =>
                                  dict_set acc (fst e) (snd e)) l d)).
Proof.
  induction l as [|e l IH]; intros d k H; simpl.
  - destruct H as [[]|H]. assumption.
  - apply IH. simpl in H. rewrite dict_keys_set.
    destruct H as [[<- | H] | H]; auto.
Qed.

Lemma sample_merge_group_ok (k : Z) (n : nat) :
  forall w l w',
    sample_util.sample_merge_group k n w = (Ok l, w') ->
    List.length l = n /\ Forall (fun g => 0 <= g < k) l.
Proof.
  induction n as [|n IH]; intros w l w' H; simpl in H.
  - injection H as <- _. split; [reflexivity | constructor].
  - apply bind_ok in H. destruct H as [g [w1 [Hg H]]].
    apply bind_ok in H. destruct H as [rest [w2 [Hrest H]]].
    unfold ret in H. injection H as <- _.
    apply uniform_sample_in in Hg. apply in_range in Hg.
    destruct (IH _ _ _ Hrest) as [Hlen Hall].
    split; [simpl; congruence | constructor; assumption].
Qed.

Lemma map_fst_combine {A B} (l : list A) (l' : list B) :
  List.length l' = List.length l -> map fst (combine l l') = l.
Proof.
  revert l'; induction l as [|a l IH]; intros [|b l'] H; simpl in *;
    try discriminate; [reflexivity|].
  f_equal. apply IH. congruence.
Qed.

Lemma in_combine_snd {A B} (l : list A) (l' : list B) (P : B -> Prop) :
  Forall P l' -> forall e, In e (combine l l') -> P (snd e).
Proof.
  intros Hall [a b] Hin. apply in_combine_r in Hin.
  rewrite Forall_forall in Hall. apply Hall. assumption.
Qed.

(** ** Grouping without a scheme *)

Lemma resolve_num_group_range (ar : dict nat) (heuristics : Heuristics.t)
    (w w' : World) (k : Z) :
  opt_str_eqb (Heuristics.merge_scheme heuristics) "by_chunk" = false ->
  resolve_chunk_size_or_num_group ar heuristics w = (Ok k, w') ->
  Z.max 1 (fst (Heuristics.num_group_bounds heuristics)) <= k
  <= Z.min (Z.of_nat (List.length ar)) (snd (Heuristics.num_group_bounds heuristics)).
Proof.
  intros Hs. unfold resolve_chunk_size_or_num_group. rewrite Hs. intros H.
  apply bind_ok in H. destruct H as [k0 [w1 [Hk H]]].
  unfold sample_num_ar_groups in Hk.
  apply uniform_sample_in in Hk. apply in_range2 in Hk.
  destruct (0 <? k0); [|discriminate]. unfold ret in H. injection H as <- _. lia.
Qed.

Lemma random_group_assignments (ar : dict nat) (helpers0 : dict Helper)
    (heuristics : Heuristics.t) (k : Z) (w w' : World) (g : dict Z) :
  opt_str_eqb (Heuristics.merge_scheme heuristics) "random"
  || match Heuristics.merge_scheme heuristics with None => true | Some _ => false end
  = true ->
  group_assignments_of ar helpers0 heuristics k w = (Ok g, w') ->
  (forall name, In name (dict_keys ar) -> In name (dict_keys g)) /\
  (forall name v, dict_get g name = Some v -> 0 <= v < k).
Proof.
  intros Hs. unfold group_assignments_of. rewrite Hs. intros H.
  apply bind_ok in H. destruct H as [tmp [w1 [Htmp H]]].
  unfold ret in H. injection H as <- _.
  apply sample_merge_group_ok in Htmp. destruct Htmp as [Hlen Hall].
  split.
  - intros name Hin. apply fold_dict_set_keys. left.
    rewrite map_fst_combine; [assumption|].
    unfold dict_keys. rewrite length_map. assumption.
  - apply (fold_dict_set_values (fun v => 0 <= v < k)).
    + intros k0 v0 H0. discriminate.
    + apply (in_combine_snd _ _ (fun v => 0 <= v < k)). assumption.
Qed.

(** ** Post-assignment: the pools *)

Lemma rbind_ok {A B} (r : result A) (f : A -> result B) (b : B) :
  rbind r f = Ok b -> exists a, r = Ok a /\ f a = Ok b.
Proof. destruct r as [a|e]; simpl; [eauto | discriminate]. Qed.

Lemma rmap_ok_Forall2 {A B} (f : A -> result B) (l : list A) :
  forall l', rmap f l = Ok l' -> Forall2 (fun x y => f x = Ok y) l l'.
Proof.
  induction l as [|x l IH]; intros l' H; simpl in H.
  - injection H as <-. constructor.
  - apply rbind_ok in H. destruct H as [y [Hy H]].
    apply rbind_ok in H. destruct H as [ys [Hys H]].
    injection H as <-. constructor; [assumption | apply IH; assumption].
Qed.

Lemma rfold_app {A B} (f : B -> A -> result B) (l1 l2 : list A) :
  forall st, rfold f (l1 ++ l2) st = rbind (rfold f l1 st) (rfold f l2).
Proof.
  induction l1 as [|x l1 IH]; intros st; simpl; [reflexivity|].
  destruct (f st x) as [st'|e]; simpl; [apply IH | reflexivity].
Qed.

(** The classification loop runs over the leaf records in order. *)
Lemma classify_by_leaves (node_config : list Node) :
  forall st,
    rfold classify_node node_config st = rfold classify_leaf (leaves node_config) st.
Proof.
  induction node_config as [|node nc IH]; intros st; [reflexivity|].
  unfold leaves in *. cbn [rfold flat_map]. rewrite rfold_app.
  assert (Hn : classify_node st node = rfold classify_leaf (leaves_of node) st).
  { unfold classify_node, leaves_of.
    destruct (str_truthy (partitioner node)); [reflexivity|].
    simpl. destruct (classify_leaf st node); reflexivity. }
  rewrite Hn. destruct (rfold classify_leaf (leaves_of node) st); simpl;
    [apply IH | reflexivity].
Qed.

Lemma classify_leaf_ok (st st' : Pools) (leaf : Node) :
  classify_leaf st leaf = Ok st' ->
  pooled st' leaf /\
  (forall k, In k (dict_keys (ps_shards st)) -> In k (dict_keys (ps_shards st'))) /\
  (forall k, In k (dict_keys (ar_shards st)) -> In k (dict_keys (ar_shards st'))).
Proof.
  unfold classify_leaf, which_synchronizer, pooled.
  destruct (synchronizer leaf) as [|s|s]; simpl; [discriminate| |];
    intros H; injection H as <-; simpl;
    repeat split; auto; try (apply dict_keys_set; auto);
    intros k Hk; apply dict_keys_set; auto.
Qed.

Lemma classify_leaves_ok (ls : list Node) :
  forall st st',
    rfold classify_leaf ls st = Ok st' ->
    Forall (pooled st') ls /\
    (forall k, In k (dict_keys (ps_shards st)) -> In k (dict_keys (ps_shards st'))) /\
    (forall k, In k (dict_keys (ar_shards st)) -> In k (dict_keys (ar_shards st'))).
Proof.
  induction ls as [|leaf ls IH]; intros st st' H; simpl in H.
  - injection H as <-. auto.
  - apply rbind_ok in H. destruct H as [st1 [H1 H]].
    apply classify_leaf_ok in H1. destruct H1 as [Hp [Hps Har]].
    destruct (IH _ _ H) as [Hall [Hps' Har']].
    repeat split; auto. constructor; [|assumption].
    unfold pooled in *. destruct (synchronizer leaf); auto.
Qed.

(** Both assignment loops act leaf by leaf. *)
Lemma assign_leaves_Forall2 (f : Node -> result Node) (R : Node -> Node -> Prop) :
  (forall leaf leaf', f leaf = Ok leaf' ->
                      partitioner leaf' = partitioner leaf /\ R leaf leaf') ->
  forall node_config node_config',
    assign_leaves f node_config = Ok node_config' ->
    Forall2 R (leaves node_config) (leaves node_config').
Proof.
  intros Hf node_config node_config' H. unfold assign_leaves in H.
  apply rmap_ok_Forall2 in H. unfold leaves.
  induction H as [|node node' nc nc' Hn _ IH]; [constructor|].
  cbn [flat_map]. apply Forall2_app; [|exact IH].
  unfold leaves_of. destruct (str_truthy (partitioner node)) eqn:Ep.
  - apply rbind_ok in Hn. destruct Hn as [parts [Hparts Hn]].
    injection Hn as <-. cbn [with_part_config partitioner part_config].
    rewrite Ep. apply rmap_ok_Forall2 in Hparts.
    clear -Hparts Hf. induction Hparts; constructor; auto.
    apply Hf. assumption.
  - destruct (Hf _ _ Hn) as [Hp HR]. rewrite Hp, Ep.
    constructor; [assumption | constructor].
Qed.

Lemma assign_ps_as_leaves (node_config : list Node) (ps : dict (nat * string)) :
  assign_ps_reduction_destinations node_config ps
  = assign_leaves (assign_ps_leaf ps) node_config.
Proof. reflexivity. Qed.

Lemma assign_ar_as_leaves (node_config : list Node) (ar : dict (nat * Z)) :
  assign_ar_group node_config ar = assign_leaves (assign_ar_leaf ar) node_config.
Proof. reflexivity. Qed.

(** ** Post-assignment: destinations *)

Lemma attach_values {V} (shards : dict nat) (values : dict V)
    (attached : dict (nat * V)) (P : V -> Prop) :
  attach shards values = Ok attached ->
  (forall k v, dict_get values k = Some v -> P v) ->
  forall k i v, dict_get attached k = Some (i, v) -> P v.
Proof.
  intros H HP k i v Hget. apply dict_get_In in Hget.
  unfold attach in H. apply rmap_ok_Forall2 in H.
  induction H as [|x y l l' Hxy _ IH]; [contradiction|].
  destruct Hget as [-> | Hin]; [|apply IH; assumption].
  destruct (dict_get values (fst x)) as [v0|] eqn:E; [|discriminate].
  injection Hxy as _ _ <-. eapply HP. eassumption.
Qed.

Lemma assign_ps_leaf_written (resource_spec : ResourceSpec.t)
    (ps : dict (nat * string)) (leaf leaf' : Node) :
  (forall k i d, dict_get ps k = Some (i, d) ->
                 In d (ResourceSpec.cpu_devices resource_spec)) ->
  assign_ps_leaf ps leaf = Ok leaf' ->
  partitioner leaf' = partitioner leaf /\ ps_written resource_spec leaf leaf'.
Proof.
  intros Hps. unfold assign_ps_leaf, which_synchronizer, ps_written.
  destruct (synchronizer leaf) as [|s|s] eqn:Es; simpl; [discriminate| |].
  - destruct (dict_get ps (var_name leaf)) as [[i d]|] eqn:E; [|discriminate].
    intros H; injection H as <-. simpl. repeat split.
    eexists; exists d. repeat split. eapply Hps. eassumption.
  - intros H; injection H as <-. rewrite Es. auto.
Qed.

Lemma assign_ar_leaf_written (count : Z) (ar : dict (nat * Z)) (leaf leaf' : Node) :
  (forall k i g, dict_get ar k = Some (i, g) -> 0 <= g < count) ->
  assign_ar_leaf ar leaf = Ok leaf' ->
  partitioner leaf' = partitioner leaf /\ ar_written count leaf leaf'.
Proof.
  intros Har. unfold assign_ar_leaf, which_synchronizer, ar_written.
  destruct (synchronizer leaf) as [|s|s] eqn:Es; simpl; [discriminate| |].
  - intros H; injection H as <-. rewrite Es. auto.
  - destruct (dict_get ar (var_name leaf)) as [[i g]|] eqn:E; [|discriminate].
    intros H; injection H as <-. simpl. repeat split.
    eexists; exists g. repeat split; eapply Har; eassumption.
Qed.

Lemma foldM_inv {A B} (f : B -> A -> M B) (P : B -> Prop) (l : list A) :
  (forall acc x w acc' w', P acc -> f acc x w = (Ok acc', w') -> P acc') ->
  forall acc w r w', P acc -> foldM f l acc w = (Ok r, w') -> P r.
Proof.
  intros Hf. induction l as [|x l IH]; intros acc w r w' Hacc H; simpl in H.
  - unfold ret in H. injection H as <- _. assumption.
  - apply bind_ok in H. destruct H as [acc' [w1 [Hx H]]].
    eapply IH; [|eassumption]. eapply Hf; eassumption.
Qed.

Section Contracts.

Hypothesis greedy_uses_given_devices : uses_given_devices greedy_load_balancer.
Hypothesis christy_uses_given_devices : uses_given_devices christy_load_balancer.

Lemma sample_ps_reduction_destinations_written (node_config : list Node)
    (ps : dict nat) (resource_spec : ResourceSpec.t) (helpers0 : dict Helper)
    (heuristics : Heuristics.t) (w w' : World) (node_config' : list Node) :
  sample_ps_reduction_destinations node_config ps resource_spec helpers0
    heuristics w = (Ok node_config', w') ->
  Forall2 (ps_written resource_spec) (leaves node_config) (leaves node_config').
Proof.
  unfold sample_ps_reduction_destinations. intros H.
  apply bind_ok in H. destruct H as [destinations [w1 [Hd H]]].
  apply bind_ok in H. destruct H as [ps' [w2 [Hatt H]]].
  apply lift_ok in Hatt. destruct Hatt as [Hatt ->].
  apply lift_ok in H. destruct H as [H _].
  assert (Hdev : forall k d, dict_get destinations k = Some d ->
                             In d (ResourceSpec.cpu_devices resource_spec)).
  { destruct (opt_str_falsy (Heuristics.ps_load_balancer heuristics)).
    - eapply (foldM_inv _
                (fun dst : dict string =>
                   forall k d, dict_get dst k = Some d ->
                               In d (ResourceSpec.cpu_devices resource_spec)));
        [| |exact Hd]; [|discriminate].
      intros acc x wa acc' wb Hacc Hx k d Hk.
      apply bind_ok in Hx. destruct Hx as [d0 [wc [Hd0 Hx]]].
      unfold ret in Hx. injection Hx as <- _.
      apply uniform_sample_in in Hd0.
      apply dict_get_set in Hk. destruct Hk as [[_ ->] | Hk];
        [assumption | eapply Hacc; eassumption].
    - repeat match type of Hd with
             | (if ?c then _ else _) _ = _ => destruct c
             end;
        try discriminate;
        apply lift_ok in Hd; destruct Hd as [Hd _];
        first [ exact (greedy_uses_given_devices _ _ _ _ _ Hd)
              | exact (christy_uses_given_devices _ _ _ _ _ Hd) ]. }
  rewrite assign_ps_as_leaves in H.
  eapply assign_leaves_Forall2; [|exact H].
  intros leaf leaf'. apply assign_ps_leaf_written.
  intros k i d. apply (attach_values _ _ _ _ Hatt Hdev).
Qed.

(** ** Post-assignment: groups *)

Lemma chunk_index_below (n c j : Z) :
  0 < c -> 0 <= j < n -> 0 <= j / c < (n + c - 1) / c.
Proof.
  intros Hc Hj. split; [apply Z.div_pos; lia|].
  replace (n + c - 1) with (n - 1 + 1 * c) by lia.
  rewrite Z.div_add by lia.
  assert (j / c <= (n - 1) / c) by (apply Z.div_le_mono; lia). lia.
Qed.

Lemma chunk_groups_from_values (P : Z -> Prop) (c : Z) (names : list string) :
  forall acc i,
    (forall k v, dict_get acc k = Some v -> P v) ->
    (forall j, i <= j < i + Z.of_nat (List.length names) -> P (j / c)) ->
    forall k v, dict_get (chunk_groups_from acc i names c) k = Some v -> P v.
Proof.
  induction names as [|n names IH]; intros acc i Hacc Hidx k v; simpl;
    [apply Hacc|].
  apply IH.
  - intros k0 v0 H0. apply dict_get_set in H0. destruct H0 as [[_ ->] | H0].
    + apply Hidx. cbn [List.length]. lia.
    + eapply Hacc. eassumption.
  - intros j Hj. apply Hidx. cbn [List.length]. lia.
Qed.

Lemma resolve_positive (ar : dict nat) (heuristics : Heuristics.t)
    (w w' : World) (c : Z) :
  resolve_chunk_size_or_num_group ar heuristics w = (Ok c, w') -> 0 < c.
Proof.
  unfold resolve_chunk_size_or_num_group. intros H.
  apply bind_ok in H. destruct H as [c0 [w1 [_ H]]].
  destruct (Z.ltb_spec 0 c0); [|discriminate].
  unfold ret in H. injection H as <- _. assumption.
Qed.

Hypothesis christy_groups_below_count : groups_below_count christy_group_assigner.
Hypothesis ordered_balanced_groups_below_count :
  groups_below_count ordered_balanced_group_assigner.

Lemma group_assignments_below_count (ar : dict nat) (helpers0 : dict Helper)
    (heuristics : Heuristics.t) (c : Z) (w w' : World) (g : dict Z) :
  0 < c ->
  group_assignments_of ar helpers0 heuristics c w = (Ok g, w') ->
  forall k v, dict_get g k = Some v ->
              0 <= v < group_count heuristics c (List.length ar).
Proof.
  intros Hc H. unfold group_count.
  destruct (opt_str_eqb (Heuristics.merge_scheme heuristics) "random"
            || match Heuristics.merge_scheme heuristics with
               | None => true | Some _ => false end) eqn:Er.
  - assert (Hnc : opt_str_eqb (Heuristics.merge_scheme heuristics) "by_chunk" = false).
    { destruct (Heuristics.merge_scheme heuristics) as [s|]; [|reflexivity].
      simpl in Er |- *. rewrite orb_false_r in Er.
      apply String.eqb_eq in Er. subst s. reflexivity. }
    rewrite Hnc. eapply random_group_assignments; eassumption.
  - unfold group_assignments_of in H. rewrite Er in H.
    destruct (opt_str_eqb (Heuristics.merge_scheme heuristics) "by_chunk") eqn:Ec.
    + apply lift_ok in H. destruct H as [H _].
      unfold chunk_group_assigner in H.
      destruct (c =? 0); [discriminate|]. injection H as <-.
      apply chunk_groups_from_values; [discriminate|].
      intros j Hj. apply chunk_index_below; [assumption|].
      unfold dict_keys in Hj. rewrite length_map in Hj. lia.
    + destruct (opt_str_eqb (Heuristics.merge_scheme heuristics) "christy").
      * apply lift_ok in H. destruct H as [H _].
        exact (christy_groups_below_count _ _ _ _ Hc H).
      * destruct (opt_str_eqb (Heuristics.merge_scheme heuristics)
                    "ordered_balanced"); [|discriminate].
        apply lift_ok in H. destruct H as [H _].
        exact (ordered_balanced_groups_below_count _ _ _ _ Hc H).
Qed.

Lemma sample_ar_groups_written (node_config : list Node) (ar : dict nat)
    (helpers0 : dict Helper) (heuristics : Heuristics.t) (w w' : World)
    (node_config' : list Node) :
  sample_ar_groups node_config ar helpers0 heuristics w = (Ok node_config', w') ->
  exists c w1,
    resolve_chunk_size_or_num_group ar heuristics w = (Ok c, w1) /\
    Forall2 (ar_written (group_count heuristics c (List.length ar)))
            (leaves node_config) (leaves node_config').
Proof.
  unfold sample_ar_groups. intros H.
  apply bind_ok in H. destruct H as [c [w1 [Hc H]]].
  apply bind_ok in H. destruct H as [g [w2 [Hg H]]].
  apply bind_ok in H. destruct H as [ar' [w3 [Hatt H]]].
  apply lift_ok in Hatt. destruct Hatt as [Hatt ->].
  apply lift_ok in H. destruct H as [H _].
  exists c, w1. split; [assumption|].
  rewrite assign_ar_as_leaves in H.
  eapply assign_leaves_Forall2; [|exact H].
  intros leaf leaf'. apply assign_ar_leaf_written.
  intros k i v.
  apply (attach_values _ _ _ (fun v => 0 <= v < group_count heuristics c (List.length ar))
           Hatt).
  eapply group_assignments_below_count; [|eassumption].
  eapply resolve_positive; eassumption.
Qed.

(** ** Post-assignment: the whole stage *)

Lemma classify_leaf_same_kind (st : Pools) (leaf leaf' : Node) :
  same_kind leaf leaf' -> classify_leaf st leaf' = classify_leaf st leaf.
Proof.
  unfold same_kind, classify_leaf, which_synchronizer. intros [Hn Hk].
  rewrite Hn.
  destruct (synchronizer leaf), (synchronizer leaf'); simpl;
    try contradiction; reflexivity.
Qed.

Lemma classify_leaves_same_kind (ls ls' : list Node) :
  Forall2 same_kind ls ls' ->
  forall st, rfold classify_leaf ls' st = rfold classify_leaf ls st.
Proof.
  induction 1 as [|leaf leaf' ls ls' Hk _ IH]; intros st; [reflexivity|].
  simpl. rewrite (classify_leaf_same_kind st _ _ Hk).
  destruct (classify_leaf st leaf); simpl; [apply IH | reflexivity].
Qed.

Lemma Forall2_chain {A} (P : A -> Prop) (R1 R2 Q : A -> A -> Prop) (l l1 l2 : list A) :
  (forall x y z, P x -> R1 x y -> R2 y z -> Q x z) ->
  Forall P l -> Forall2 R1 l l1 -> Forall2 R2 l1 l2 -> Forall2 Q l l2.
Proof.
  intros HQ HP H1. revert l2.
  induction H1 as [|x y l l1 Hxy _ IH]; intros l2 H2; inversion H2; subst;
    [constructor|].
  inversion HP; subst. constructor; [eapply HQ; eassumption | apply IH; assumption].
Qed.

Lemma Forall2_eq_refl {A} (l : list A) : Forall2 eq l l.
Proof. induction l; constructor; auto. Qed.

Lemma Forall2_right {A} (Q : A -> A -> Prop) (P : A -> Prop) (l l' : list A) :
  (forall x y, Q x y -> P y) -> Forall2 Q l l' -> Forall P l'.
Proof. intros HQ. induction 1; constructor; eauto. Qed.

Lemma Forall2_weaken {A} (Q Q' : A -> A -> Prop) (l l' : list A) :
  (forall x y, Q x y -> Q' x y) -> Forall2 Q l l' -> Forall2 Q' l l'.
Proof. intros HQ. induction 1; constructor; eauto. Qed.

Lemma nonempty_keys {V} (d : dict V) (k : string) :
  In k (dict_keys d) -> is_nil d = false.
Proof. destruct d; [contradiction | reflexivity]. Qed.

(** One leaf record through the two assignments. *)
Lemma leaf_chain (resource_spec : ResourceSpec.t) (pools : Pools) (count : Z)
    (x y z : Node) :
  pooled pools x ->
  (if is_nil (ps_shards pools) then y = x else ps_written resource_spec x y) ->
  (if is_nil (ar_shards pools) then z = y else ar_written count y z) ->
  same_kind x z /\ leaf_assigned resource_spec count z.
Proof.
  unfold pooled, same_kind, leaf_assigned. intros Px Rxy Ryz.
  destruct (synchronizer x) as [|sx|sx] eqn:Ex; [contradiction| |].
  - rewrite (nonempty_keys _ _ Px) in Rxy.
    destruct Rxy as [Hn Hy]. rewrite Ex in Hy.
    destruct Hy as [s' [d [Hy [Hd Hin]]]].
    assert (Hz : var_name z = var_name y /\ synchronizer z = synchronizer y).
    { destruct (is_nil (ar_shards pools)); [subst z; auto|].
      destruct Ryz as [Hn' Hz]. rewrite Hy in Hz. split; congruence. }
    destruct Hz as [Hn' Hz]. rewrite Hz, Hy.
    split; [split; [congruence | exact I] | eauto].
  - rewrite (nonempty_keys _ _ Px) in Ryz.
    assert (Hy : var_name y = var_name x /\ synchronizer y = synchronizer x).
    { destruct (is_nil (ps_shards pools)); [subst y; auto|].
      destruct Rxy as [Hn Hy]. rewrite Ex in Hy. split; congruence. }
    destruct Hy as [Hn Hy]. destruct Ryz as [Hn' Hz].
    rewrite Hy, Ex in Hz. destruct Hz as [s' [g [Hz [Hg Hlt]]]].
    rewrite Hz. split; [split; [congruence | exact I] | eauto].
Qed.

(** The post-assignment stage, on any list of node configs: when it
    returns, the pools of the result are those it started from, every
    leaf record has one synchronizer set, with a destination among the
    CPU devices or with a group id below the count that the call
    resolved for the decentralized pool, in the world the destinations
    stage left. *)
Lemma sample_group_and_reduction_destinations_assigned
    (node_config : list Node) (resource_spec : ResourceSpec.t)
    (helpers0 : dict Helper) (heuristics : Heuristics.t) (w w' : World)
    (node_config' : list Node) :
  sample_group_and_reduction_destinations node_config resource_spec helpers0
    heuristics w = (Ok node_config', w') ->
  exists pools node_config1 w1 count,
    rfold classify_node node_config (mkPools [] [] 0) = Ok pools /\
    (if (0 <? List.length (ps_shards pools))%nat
     then sample_ps_reduction_destinations node_config (ps_shards pools)
            resource_spec helpers0 heuristics
     else ret node_config) w = (Ok node_config1, w1) /\
    rfold classify_node node_config' (mkPools [] [] 0) = Ok pools /\
    Forall (leaf_assigned resource_spec count) (leaves node_config') /\
    (ar_shards pools <> [] ->
     exists c w2,
       resolve_chunk_size_or_num_group (ar_shards pools) heuristics w1
       = (Ok c, w2) /\
       count = group_count heuristics c (List.length (ar_shards pools))).
Proof.
  unfold sample_group_and_reduction_destinations. intros H.
  apply bind_ok in H. destruct H as [pools [w0 [Hcl H]]].
  apply lift_ok in Hcl. destruct Hcl as [Hcl ->].
  apply bind_ok in H. destruct H as [nc1 [w1 [Hps Har]]].
  assert (Hpooled : Forall (pooled pools) (leaves node_config)).
  { rewrite classify_by_leaves in Hcl.
    apply classify_leaves_ok in Hcl. tauto. }
  assert (H1 : Forall2 (fun x y => if is_nil (ps_shards pools) then y = x
                                   else ps_written resource_spec x y)
                       (leaves node_config) (leaves nc1)).
  { destruct (ps_shards pools) as [|p ps]; simpl in Hps |- *.
    - unfold ret in Hps. injection Hps as <- _.
      eapply Forall2_weaken; [|apply Forall2_eq_refl]. intros x y ->. reflexivity.
    - eapply sample_ps_reduction_destinations_written; eassumption. }
  assert (H2 : exists count,
             Forall2 (fun x y => if is_nil (ar_shards pools) then y = x
                                 else ar_written count x y)
                     (leaves nc1) (leaves node_config') /\
             (ar_shards pools <> [] ->
              exists c wb,
                resolve_chunk_size_or_num_group (ar_shards pools) heuristics w1
                = (Ok c, wb) /\
                count = group_count heuristics c (List.length (ar_shards pools)))).
  { destruct (ar_shards pools) as [|a ar] eqn:Ea; simpl in Har.
    - unfold ret in Har. injection Har as <- _. exists 0. split.
      + eapply Forall2_weaken; [|apply Forall2_eq_refl]. intros x y ->. reflexivity.
      + intros Hne. contradiction.
    - apply sample_ar_groups_written in Har. destruct Har as [c [wa [Hc Hw]]].
      exists (group_count heuristics c (List.length (a :: ar))).
      split; [exact Hw|]. intros _. exists c, wa. auto. }
  destruct H2 as [count [H2 Hcount]].
  assert (HQ : Forall2 (fun x z => same_kind x z /\ leaf_assigned resource_spec count z)
                       (leaves node_config) (leaves node_config')).
  { eapply Forall2_chain; [|exact Hpooled|exact H1|exact H2].
    intros x y z. apply leaf_chain. }
  exists pools, nc1, w1, count.
  split; [exact Hcl|]. split; [exact Hps|]. split; [|split].
  - rewrite classify_by_leaves.
    rewrite (classify_leaves_same_kind (leaves node_config) (leaves node_config')).
    + rewrite <- classify_by_leaves. assumption.
    + eapply Forall2_weaken; [|exact HQ]. intros x y [Hk _]. exact Hk.
  - eapply Forall2_right; [|exact HQ]. intros x y [_ Hy]. exact Hy.
  - exact Hcount.
Qed.

(** C1. When [build] returns, every leaf record of the strategy (an
    unpartitioned node or a shard) has exactly one synchronizer set; a
    centralized one carries a destination that is one of the cluster's
    CPU devices, a decentralized one a group id from 0 up to, and not
    including, the count this call resolved for its decentralized pool:
    the value [sample_ar_groups] resolves in the world the call has
    reached after the loop over the variables and the destinations
    stage (the number of groups drawn, or under the chunk scheme the
    number of chunks of the resolved size). The pools of the returned
    strategy are those of the node configs the loop built. The load
    balancers and group assigners that are called by name are taken to
    meet what the specification asks of them. *)
Theorem build_leaves_assigned (space : Space.t) (heuristics : Heuristics.t)
    (graph_item : list Var) (resource_spec : ResourceSpec.t) (w w' : World)
    (expr : Strategy) :
  build space heuristics graph_item resource_spec w = (Ok expr, w') ->
  exists node_config0 w0 pools node_config1 w1 count,
    foldM (build_var space heuristics resource_spec) graph_item [] w
    = (Ok node_config0, w0) /\
    rfold classify_node node_config0 (mkPools [] [] 0) = Ok pools /\
    (if (0 <? List.length (ps_shards pools))%nat
     then sample_ps_reduction_destinations node_config0 (ps_shards pools)
            resource_spec (helpers w0) heuristics
     else ret node_config0) w0 = (Ok node_config1, w1) /\
    rfold classify_node (node_config expr) (mkPools [] [] 0) = Ok pools /\
    Forall (leaf_assigned resource_spec count) (leaves (node_config expr)) /\
    (ar_shards pools <> [] ->
     exists c w2,
       resolve_chunk_size_or_num_group (ar_shards pools) heuristics w1
       = (Ok c, w2) /\
       count = group_count heuristics c (List.length (ar_shards pools))).
Proof.
  unfold build. intros H.
  apply bind_ok in H. destruct H as [nc0 [w0 [Hvars H]]].
  apply bind_ok in H. destruct H as [hs [wh [Hh H]]].
  unfold get_helpers in Hh. injection Hh as <- <-.
  apply bind_ok in H. destruct H as [nc [w2 [Hstage H]]].
  apply bind_ok in H. destruct H as [u [w3 [_ H]]].
  unfold ret in H. injection H as <- _. cbn [node_config].
  apply sample_group_and_reduction_destinations_assigned in Hstage.
  destruct Hstage as [pools [nc1 [w1 [count [Hcl [Hps [Hcl' [Hall Hcount]]]]]]]].
  exists nc0, w0, pools, nc1, w1, count.
  repeat (split; [assumption|]). exact Hcount.
Qed.

End Contracts.

(** ** The helpers dict over a call of build *)

Lemma kh_ret {A} (a : A) : keeps_helpers (ret a).
Proof. intros w r w' H. injection H as _ <-. reflexivity. Qed.

Lemma kh_raise {A} (e : exn) : keeps_helpers (@raise A e).
Proof. intros w r w' H. injection H as _ <-. reflexivity. Qed.

Lemma kh_lift {A} (x : result A) : keeps_helpers (lift x).
Proof. intros w r w' H. injection H as _ <-. reflexivity. Qed.

Lemma kh_draw : keeps_helpers draw.
Proof.
  intros w r w'. unfold draw. destruct (rng w); intros H; injection H as _ <-;
    reflexivity.
Qed.

Lemma kh_get_helpers : keeps_helpers get_helpers.
Proof. intros w r w' H. injection H as _ <-. reflexivity. Qed.

Lemma kh_bind {A B} (m : M A) (f : A -> M B) :
  keeps_helpers m -> (forall a, keeps_helpers (f a)) -> keeps_helpers (bind m f).
Proof.
  intros Hm Hf w r w'. unfold bind.
  destruct (m w) as [[a|e] w1] eqn:E; intros H.
  - rewrite (Hf a _ _ _ H). eapply Hm. eassumption.
  - injection H as _ <-. eapply Hm. eassumption.
Qed.

Lemma kh_mapM {A B} (f : A -> M B) (l : list A) :
  (forall x, keeps_helpers (f x)) -> keeps_helpers (mapM f l).
Proof.
  intros Hf. induction l as [|x l IH]; simpl; [apply kh_ret|].
  apply kh_bind; [apply Hf|]. intros y.
  apply kh_bind; [apply IH|]. intros ys. apply kh_ret.
Qed.

Lemma kh_foldM {A B} (f : B -> A -> M B) (l : list A) :
  (forall acc x, keeps_helpers (f acc x)) -> forall acc, keeps_helpers (foldM f l acc).
Proof.
  intros Hf. induction l as [|x l IH]; intros acc; simpl; [apply kh_ret|].
  apply kh_bind; [apply Hf | apply IH].
Qed.

Lemma kh_uniform {A} (l : list A) :
  keeps_helpers (sample_util.uniform_sample_by_choices l).
Proof.
  destruct l as [|d l]; [apply kh_raise|].
  apply kh_bind; [apply kh_draw | intros; apply kh_ret].
Qed.

Lemma kh_sample_merge_group (k : Z) (n : nat) :
  keeps_helpers (sample_util.sample_merge_group k n).
Proof.
  induction n as [|n IH]; simpl; [apply kh_ret|].
  apply kh_bind; [apply kh_uniform|]. intros g.
  apply kh_bind; [apply IH|]. intros rest. apply kh_ret.
Qed.

(** Decomposes a goal [keeps_helpers m] along the shape of [m]. *)
Ltac keeps :=
  repeat first
    [ apply kh_ret | apply kh_raise | apply kh_lift | apply kh_draw
    | apply kh_get_helpers | apply kh_uniform | apply kh_sample_merge_group
    | apply kh_bind; [|intros ?]
    | apply kh_mapM; intros ?
    | apply kh_foldM; intros ? ?
    | match goal with
      | |- keeps_helpers (if ?c then _ else _) => destruct c
      | |- keeps_helpers (match ?c with _ => _ end) => destruct c
      end ].

Lemma kh_sample_if_partition (var_helper : VariableHelper)
    (resource_spec : ResourceSpec.t) (space : Space.t) (heuristics : Heuristics.t) :
  keeps_helpers (sample_if_partition var_helper resource_spec space heuristics).
Proof.
  unfold sample_if_partition, sample_if_partition_by_size,
    sample_util.binary_sample. keeps.
Qed.

Lemma kh_write_synchronizer (ty : string) (node : Node)
    (resource_spec : ResourceSpec.t) (space : Space.t) :
  keeps_helpers (write_synchronizer ty node resource_spec space).
Proof.
  unfold write_synchronizer, sample_if_local_replication, sample_ar_compressor.
  keeps.
Qed.

Lemma kh_sample_var_synchronizer (node : Node) (var_helper : VariableHelper)
    (resource_spec : ResourceSpec.t) (space : Space.t) :
  keeps_helpers (sample_var_synchronizer node var_helper resource_spec space).
Proof.
  unfold sample_var_synchronizer. keeps. apply kh_write_synchronizer.
Qed.

Lemma kh_sample_parts_synchronizers (parts : list Node)
    (var_helper : VariableHelper) (resource_spec : ResourceSpec.t)
    (space : Space.t) (heuristics : Heuristics.t) :
  keeps_helpers (sample_parts_synchronizers parts var_helper resource_spec
                   space heuristics).
Proof.
  unfold sample_parts_synchronizers. keeps; apply kh_write_synchronizer.
Qed.

Lemma kh_sample_partition_config (var_helper : VariableHelper)
    (resource_spec : ResourceSpec.t) (space : Space.t) (heuristics : Heuristics.t) :
  keeps_helpers (sample_partition_config var_helper resource_spec space heuristics).
Proof.
  unfold sample_partition_config. keeps.
Qed.

Lemma kh_sample_group_and_reduction_destinations (node_config : list Node)
    (resource_spec : ResourceSpec.t) (helpers0 : dict Helper)
    (heuristics : Heuristics.t) :
  keeps_helpers (sample_group_and_reduction_destinations node_config
                   resource_spec helpers0 heuristics).
Proof.
  unfold sample_group_and_reduction_destinations,
    sample_ps_reduction_destinations, sample_ar_groups,
    resolve_chunk_size_or_num_group, group_assignments_of,
    sample_chunk_size, sample_num_ar_groups.
  keeps.
Qed.

Lemma grow_of_keeps {A} (m : M A) : keeps_helpers m -> helpers_grow m.
Proof. intros Hm w r w' k H Hk. rewrite (Hm _ _ _ H). assumption. Qed.

Lemma grow_set_helper (k : string) (h : Helper) : helpers_grow (set_helper k h).
Proof.
  intros w r w' k0 H Hk. injection H as _ <-. simpl.
  apply dict_keys_set. right. assumption.
Qed.

Lemma grow_bind {A B} (m : M A) (f : A -> M B) :
  helpers_grow m -> (forall a, helpers_grow (f a)) -> helpers_grow (bind m f).
Proof.
  intros Hm Hf w r w' k. unfold bind.
  destruct (m w) as [[a|e] w1] eqn:E; intros H Hk.
  - eapply Hf; [eassumption|]. eapply Hm; eassumption.
  - injection H as _ <-. eapply Hm; eassumption.
Qed.

Lemma grow_foldM {A B} (f : B -> A -> M B) (l : list A) :
  (forall acc x, helpers_grow (f acc x)) -> forall acc, helpers_grow (foldM f l acc).
Proof.
  intros Hf. induction l as [|x l IH]; intros acc; simpl.
  - apply grow_of_keeps, kh_ret.
  - apply grow_bind; [apply Hf | apply IH].
Qed.

(** One turn of the loop of [build] records the helper of its variable,
    and keeps the others, however it ends. *)
Lemma build_var_records (space : Space.t) (heuristics : Heuristics.t)
    (resource_spec : ResourceSpec.t) (node_config : list Node) (v : Var)
    (w w' : World) (r : result (list Node)) :
  build_var space heuristics resource_spec node_config v w = (r, w') ->
  In (name v) (dict_keys (helpers w')) /\
  (forall k, In k (dict_keys (helpers w)) -> In k (dict_keys (helpers w'))).
Proof.
  unfold build_var. unfold bind at 1, set_helper at 1. cbn [var].
  set (rest := bind _ _). intros H.
  assert (Hrest : helpers_grow rest).
  { unfold rest. apply grow_bind; [apply grow_of_keeps, kh_sample_if_partition|].
    intros mp. apply grow_bind; [|intros; apply grow_of_keeps, kh_ret].
    destruct (negb (truthy mp)).
    - apply grow_of_keeps, kh_sample_var_synchronizer.
    - apply grow_bind; [apply grow_of_keeps, kh_sample_partition_config|].
      intros c. apply grow_bind.
      + apply grow_foldM. intros parts i.
        apply grow_bind; [apply grow_set_helper|].
        intros; apply grow_of_keeps, kh_ret.
      + intros parts. apply grow_bind;
          [apply grow_of_keeps, kh_sample_parts_synchronizers|].
        intros; apply grow_of_keeps, kh_ret. }
  split.
  - eapply Hrest; [eassumption|]. simpl. apply dict_keys_set. left. reflexivity.
  - intros k Hk. eapply Hrest; [eassumption|]. simpl.
    apply dict_keys_set. right. assumption.
Qed.

Lemma build_vars_record (space : Space.t) (heuristics : Heuristics.t)
    (resource_spec : ResourceSpec.t) (graph_item : list Var) :
  forall node_config w r w',
    foldM (build_var space heuristics resource_spec) graph_item node_config w
    = (r, w') ->
    (forall k, In k (dict_keys (helpers w)) -> In k (dict_keys (helpers w'))) /\
    match graph_item with
    | [] => True
    | v :: _ => In (name v) (dict_keys (helpers w'))
    end.
Proof.
  induction graph_item as [|v rest IH]; intros node_config w r w' H; simpl in H.
  - injection H as _ <-. auto.
  - unfold bind in H.
    destruct (build_var space heuristics resource_spec node_config v w)
      as [[nc|e] w1] eqn:E; apply build_var_records in E; destruct E as [Hv Hk].
    + destruct (IH _ _ _ _ H) as [Hk' _]. split; [auto|]. apply Hk'. assumption.
    + injection H as _ <-. auto.
Qed.

(** C9 (as amended). A call of [build] that returns a strategy leaves the
    helpers dict empty, whatever it held before. A call that fails does
    not reach the reset: the keys the dict held at the start are still
    there, and so is the entry of the first variable of the model. *)
Theorem build_helpers (space : Space.t) (heuristics : Heuristics.t)
    (graph_item : list Var) (resource_spec : ResourceSpec.t) (w : World) :
  (forall expr w',
      build space heuristics graph_item resource_spec w = (Ok expr, w') ->
      helpers w' = []) /\
  (forall e w',
      build space heuristics graph_item resource_spec w = (Raise e, w') ->
      (forall k, In k (dict_keys (helpers w)) -> In k (dict_keys (helpers w'))) /\
      match graph_item with
      | [] => True
      | v :: _ => In (name v) (dict_keys (helpers w'))
      end).
Proof.
  unfold build. split.
  - intros expr w' H.
    apply bind_ok in H. destruct H as [nc0 [w0 [_ H]]].
    apply bind_ok in H. destruct H as [hs [w1 [_ H]]].
    apply bind_ok in H. destruct H as [nc [w2 [_ H]]].
    apply bind_ok in H. destruct H as [u [w3 [Hc H]]].
    unfold ret in H. injection H as _ <-.
    unfold clear_helpers in Hc. injection Hc as _ <-. reflexivity.
  - intros e w' H.
    apply bind_raise in H. destruct H as [H | [nc0 [w0 [Hvars H]]]].
    + eapply build_vars_record. eassumption.
    + apply build_vars_record in Hvars.
      apply bind_raise in H. destruct H as [H | [hs [w1 [Hg H]]]]; [discriminate|].
      injection Hg as _ <-.
      apply bind_raise in H. destruct H as [H | [nc [w2 [_ H]]]].
      * apply kh_sample_group_and_reduction_destinations in H.
        rewrite H. assumption.
      * apply bind_raise in H. destruct H as [H | [u [w3 [_ H]]]]; discriminate.
Qed.

(* =================================================================== *)
(** * Further properties of the helpers                                 *)
(* =================================================================== *)

Lemma axes_from_spec (dims : list Z) :
  forall idx a,
    In a (VariableHelper.axes_from idx dims) <->
    exists j d, a = (idx + j)%nat /\ nth_error dims j = Some d /\ 1 < d.
Proof.
  induction dims as [|dim rest IH]; intros idx a; simpl.
  - split; [contradiction|]. intros [[|j] [d [_ [H _]]]]; discriminate.
  - destruct (Z.ltb_spec 1 dim) as [Hd|Hd]; simpl; rewrite IH; split.
    + intros [<- | [j [d [-> [Hn Hlt]]]]].
      * exists 0%nat, dim. repeat split; [lia | assumption].
      * exists (S j), d. repeat split; [lia | assumption | assumption].
    + intros [[|j] [d [-> [Hn Hlt]]]]; simpl in Hn.
      * left. lia.
      * right. exists j, d. repeat split; [lia | assumption | assumption].
    + intros [j [d [-> [Hn Hlt]]]].
      exists (S j), d. repeat split; [lia | assumption | assumption].
    + intros [[|j] [d [-> [Hn Hlt]]]]; simpl in Hn.
      * injection Hn as <-. lia.
      * exists j, d. repeat split; [lia | assumption | assumption].
Qed.

Lemma axes_from_NoDup (dims : list Z) :
  forall idx, NoDup (VariableHelper.axes_from idx dims).
Proof.
  induction dims as [|dim rest IH]; intros idx; simpl; [constructor|].
  destruct (1 <? dim); [|apply IH].
  constructor; [|apply IH].
  rewrite axes_from_spec. intros [j [d [Hj _]]]. lia.
Qed.

(** X1. The property [partitionable_axes]: empty for a scalar; axis 0
    alone for a sparse variable or an embedding, whatever its extent;
    otherwise exactly the axes of extent above 1. In every case the axes
    listed are axes of the shape, each listed once. *)
Theorem partitionable_axes_spec (h : VariableHelper) :
  (VariableHelper.shape h = None -> VariableHelper.partitionable_axes h = []) /\
  (VariableHelper.shape h <> None ->
   VariableHelper.is_sparse h || VariableHelper.is_embedding h = true ->
   VariableHelper.partitionable_axes h = [0%nat]) /\
  (VariableHelper.is_sparse h || VariableHelper.is_embedding h = false ->
   forall a,
     In a (VariableHelper.partitionable_axes h) <->
     exists d, nth_error (initial_shape (var h)) a = Some d /\ 1 < d) /\
  (forall a, In a (VariableHelper.partitionable_axes h) ->
             (a < List.length (initial_shape (var h)))%nat) /\
  NoDup (VariableHelper.partitionable_axes h).
Proof.
  unfold VariableHelper.partitionable_axes, VariableHelper.shape.
  destruct (initial_shape (var h)) as [|d0 rest] eqn:Es; cbn [is_nil].
  - split; [reflexivity|]. split; [intros Hne; contradiction Hne; reflexivity|].
    split; [|split; [intros a []|constructor]].
    intros _ a. split; [intros []|].
    intros [d [Hd _]]. destruct a; discriminate.
  - destruct (VariableHelper.is_sparse h || VariableHelper.is_embedding h).
    + split; [discriminate|]. split; [reflexivity|]. split; [discriminate|].
      split.
      * intros a [<- | []]. simpl. lia.
      * constructor; [intros [] | constructor].
    + split; [discriminate|]. split; [discriminate|]. split; [|split].
      * intros _ a. rewrite axes_from_spec. split.
        -- intros [j [d [-> [Hn Hlt]]]]. exists d. auto.
        -- intros [d [Hn Hlt]]. exists a, d. auto.
      * intros a Ha. apply axes_from_spec in Ha.
        destruct Ha as [j [d [-> [Hn _]]]].
        apply nth_error_Some. simpl in *. congruence.
      * apply axes_from_NoDup.
Qed.

Lemma shard_extent_step (e n i j : Z) :
  0 < n -> i <= j ->
  shard_extent e n j <= shard_extent e n i <= shard_extent e n j + 1.
Proof.
  intros Hn Hij. unfold shard_extent.
  destruct (Z.ltb_spec i (e mod n)), (Z.ltb_spec j (e mod n)); lia.
Qed.

Lemma shard_extent_range (e n i : Z) :
  0 < n -> 0 <= e -> 0 <= i -> 0 <= shard_extent e n i <= e.
Proof.
  intros Hn He Hi. unfold shard_extent.
  pose proof (Z.mod_pos_bound e n Hn) as Hm.
  pose proof (Z.div_mod e n ltac:(lia)) as Hd.
  assert (0 <= e / n) by (apply Z.div_pos; lia).
  destruct (Z.ltb_spec i (e mod n)); nia.
Qed.

(** X2. The shards of one parameter are balanced, larger ones first: for
    two shards the one of lower index is at least as long along the
    partition axis as the other, and at most one longer; no shard is
    longer than the parent. *)
Theorem shard_extents_balanced (v : Var) (c : PartitionerConfig) (e : Z) :
  nth_error (initial_shape v) (axis c) = Some e ->
  0 < num_shards c -> 0 <= e ->
  forall i j, 0 <= i <= j ->
    exists di dj,
      part_extent (mkPartHelper i v c) = Ok di /\
      part_extent (mkPartHelper j v c) = Ok dj /\
      dj <= di <= dj + 1 /\ 0 <= dj /\ di <= e.
Proof.
  intros He Hn Hpos i j Hij.
  exists (shard_extent e (num_shards c) i), (shard_extent e (num_shards c) j).
  rewrite !(part_extent_ok _ v c e He) by lia.
  pose proof (shard_extent_step e (num_shards c) i j Hn ltac:(lia)).
  pose proof (shard_extent_range e (num_shards c) i Hn Hpos ltac:(lia)).
  pose proof (shard_extent_range e (num_shards c) j Hn Hpos ltac:(lia)).
  repeat split; lia.
Qed.

(** X3. The byte size of a shard can be read exactly when the partition
    axis is an axis of the shape, its extent is not zero and there is at
    least one shard ([ZeroDivisionError] or [IndexError] otherwise); for a
    positive extent, a positive shard count, a shard index that is not
    negative and a parent of non-negative size it lies between zero and
    the parent's byte size. *)
Theorem PartHelper_byte_size_range (p : PartHelper) :
  (is_ok (PartHelper.byte_size p) = true <->
   exists e, nth_error (initial_shape (part_var p)) (axis (pc p)) = Some e /\
             e <> 0 /\ num_shards (pc p) <> 0) /\
  (forall x, PartHelper.byte_size p = Raise x ->
             x = IndexError \/ x = ZeroDivisionError) /\
  (forall e,
      nth_error (initial_shape (part_var p)) (axis (pc p)) = Some e ->
      0 < e -> 0 < num_shards (pc p) -> 0 <= part_idx p ->
      (0 <= byte_size_load (part_var p))%Q ->
      exists b, PartHelper.byte_size p = Ok b /\
                (0 <= b)%Q /\ (b <= byte_size_load (part_var p))%Q).
Proof.
  destruct p as [i v c]. cbn [part_var pc part_idx].
  split; [|split].
  - split.
    + unfold PartHelper.byte_size, PartHelper.shape, PartHelper.var_shape;
        cbn [part_var pc part_idx].
      destruct (nth_error (initial_shape v) (axis c)) as [e|] eqn:He;
        [|discriminate].
      destruct (Z.eqb_spec (num_shards c) 0); [discriminate|].
      rewrite (nth_error_list_set_eq _ _ _ _ He).
      destruct (Z.eqb_spec e 0); [discriminate|].
      intros _. exists e. auto.
    + intros [e [He [He0 Hn]]].
      rewrite (PartHelper_byte_size_ok i v c e He Hn He0). reflexivity.
  - intros x. unfold PartHelper.byte_size, PartHelper.shape, PartHelper.var_shape;
      cbn [part_var pc part_idx].
    destruct (nth_error (initial_shape v) (axis c)) as [e|] eqn:He;
      [|intros H; inversion H; auto].
    destruct (Z.eqb_spec (num_shards c) 0); [intros H; inversion H; auto|].
    rewrite (nth_error_list_set_eq _ _ _ _ He).
    destruct (Z.eqb_spec e 0); [intros H; inversion H; auto | discriminate].
  - intros e He Hpos Hn Hi HB.
    eexists. split; [apply (PartHelper_byte_size_ok i v c e He); lia|].
    pose proof (shard_extent_range e (num_shards c) i Hn ltac:(lia) Hi) as [Hlo Hhi].
    assert (He' : (0 < inject_Z e)%Q) by (unfold Qlt, inject_Z; simpl; lia).
    assert (Hx : (0 <= inject_Z (shard_extent e (num_shards c) i))%Q)
      by (unfold Qle, inject_Z; simpl; lia).
    assert (Hxe : (inject_Z (shard_extent e (num_shards c) i) <= inject_Z e)%Q)
      by (unfold Qle, inject_Z; simpl; lia).
    split.
    + apply Qle_shift_div_l; [assumption|]. rewrite Qmult_0_l.
      apply Qmult_le_0_compat; assumption.
    + apply Qle_shift_div_r; [assumption|].
      rewrite !(Qmult_comm (byte_size_load v)).
      apply Qmult_le_compat_r; assumption.
Qed.

(* =================================================================== *)
(** * Further properties of the partition decision                      *)
(* =================================================================== *)

(** X4. On a cluster with at most one CPU device, with
    [enable_single_node_no_partition] set and a space that does not force
    the outcome, the decision is false: the helper is not read (so the
    attribute lookup cannot fail) and the random source is not used. *)
Theorem sample_if_partition_single_node (var_helper : VariableHelper)
    (resource_spec : ResourceSpec.t) (space : Space.t)
    (heuristics : Heuristics.t) (w : World) :
  List.length (Space.maybe_partition space) <> 1%nat ->
  Heuristics.enable_single_node_no_partition heuristics = true ->
  (List.length (ResourceSpec.cpu_devices resource_spec) <= 1)%nat ->
  sample_if_partition var_helper resource_spec space heuristics w
  = (Ok (PyBool false), w).
Proof.
  intros Hlen Hen Hcpu. unfold sample_if_partition.
  destruct (Nat.eqb_spec (List.length (Space.maybe_partition space)) 1);
    [contradiction|].
  rewrite Hen. apply Nat.leb_le in Hcpu. rewrite Hcpu. reflexivity.
Qed.

Lemma set_inter_In (a b : list nat) (x : nat) :
  In x (set_inter a b) <-> In x a /\ In x b.
Proof.
  unfold set_inter. rewrite filter_In, nodup_In, existsb_exists. split.
  - intros [Ha [y [Hy Heq]]]. apply Nat.eqb_eq in Heq. subst y. auto.
  - intros [Ha Hb]. split; [assumption|]. exists x. split; [assumption|].
    apply Nat.eqb_refl.
Qed.

(** X5. A parameter with no axis left to partition along is not sharded,
    whatever its byte size: when the helper lists no axis, or when the
    space restricts the axes and none of the helper's is among them, the
    decision is false and the random source is not used. *)
Theorem sample_if_partition_no_axis (var_helper : VariableHelper)
    (resource_spec : ResourceSpec.t) (space : Space.t)
    (heuristics : Heuristics.t) (axes : list nat) (w : World) :
  List.length (Space.maybe_partition space) <> 1%nat ->
  Heuristics.enable_single_node_no_partition heuristics
  && (List.length (ResourceSpec.cpu_devices resource_spec) <=? 1)%nat = false ->
  partitionable_axis var_helper = Ok axes ->
  (axes = [] \/
   (Space.partitionable_axis space <> [] /\
    forall a, In a axes -> ~ In a (Space.partitionable_axis space))) ->
  sample_if_partition var_helper resource_spec space heuristics w
  = (Ok (PyBool false), w).
Proof.
  intros Hlen Hsingle Hattr Hnone. unfold sample_if_partition.
  destruct (Nat.eqb_spec (List.length (Space.maybe_partition space)) 1);
    [contradiction|].
  rewrite Hsingle. unfold bind, lift. rewrite Hattr.
  destruct Hnone as [-> | [Hsp Hdis]]; [reflexivity|].
  destruct axes as [|a0 axes]; [reflexivity|]. cbn [is_nil].
  destruct (Space.partitionable_axis space) as [|s0 sp] eqn:Es;
    [contradiction|]. cbn [is_nil negb andb].
  destruct (set_inter (a0 :: axes) (s0 :: sp)) as [|x xs] eqn:Ei; [reflexivity|].
  exfalso. assert (Hx : In x (set_inter (a0 :: axes) (s0 :: sp)))
    by (rewrite Ei; left; reflexivity).
  apply set_inter_In in Hx. destruct Hx as [Ha Hs]. exact (Hdis x Ha Hs).
Qed.

(** X6. Strictly between the byte-size bounds, for a parameter past the
    earlier checks: unless the space lists exactly two outcomes the
    assertion fails, before any draw; with two outcomes the decision
    returns a boolean, after one draw that leaves the helpers alone, and
    it never divides by zero; without the size-weighted heuristic the
    boolean is one of the two outcomes of the space. *)
Theorem sample_if_partition_between_bounds (var_helper : VariableHelper)
    (resource_spec : ResourceSpec.t) (space : Space.t)
    (heuristics : Heuristics.t) (axes : list nat) (w : World) :
  List.length (Space.maybe_partition space) <> 1%nat ->
  Heuristics.enable_single_node_no_partition heuristics
  && (List.length (ResourceSpec.cpu_devices resource_spec) <=? 1)%nat = false ->
  partitionable_axis var_helper = Ok axes ->
  axes <> [] ->
  (Space.partitionable_axis space = []
   \/ set_inter axes (Space.partitionable_axis space) <> []) ->
  (fst (Heuristics.maybe_partition_bounds heuristics)
   < VariableHelper.byte_size var_helper)%Q ->
  (VariableHelper.byte_size var_helper
   < snd (Heuristics.maybe_partition_bounds heuristics))%Q ->
  (List.length (Space.maybe_partition space) <> 2%nat ->
   sample_if_partition var_helper resource_spec space heuristics w
   = (Raise AssertionError, w)) /\
  (List.length (Space.maybe_partition space) = 2%nat ->
   exists b w',
     sample_if_partition var_helper resource_spec space heuristics w
     = (Ok (PyBool b), w') /\
     helpers w' = helpers w /\
     rng w' = tl (rng w) /\
     (Heuristics.maybe_partition_by_size heuristics = false ->
      In b (Space.maybe_partition space))).
Proof.
  intros Hlen Hsingle Hattr Haxes Hinter Hlo Hhi.
  rewrite (sample_if_partition_past_checks var_helper resource_spec space
             heuristics axes w Hlen Hsingle Hattr Haxes Hinter).
  unfold sample_if_partition_by_size.
  destruct (Qle_bool (VariableHelper.byte_size var_helper)
              (fst (Heuristics.maybe_partition_bounds heuristics))) eqn:E1.
  { apply Qle_bool_iff in E1. exfalso. exact (Qlt_not_le _ _ Hlo E1). }
  destruct (Qle_bool (snd (Heuristics.maybe_partition_bounds heuristics))
              (VariableHelper.byte_size var_helper)) eqn:E2.
  { apply Qle_bool_iff in E2. exfalso. exact (Qlt_not_le _ _ Hhi E2). }
  split.
  - intros Hne.
    destruct (Nat.eqb_spec (List.length (Space.maybe_partition space)) 2);
      [contradiction | reflexivity].
  - intros Heq. rewrite Heq. cbn [Nat.eqb negb].
    destruct (Heuristics.maybe_partition_by_size heuristics).
    + assert (Hz : Qeq_bool (snd (Heuristics.maybe_partition_bounds heuristics)
                             - fst (Heuristics.maybe_partition_bounds heuristics)) 0
                   = false).
      { destruct (Qeq_bool _ 0) eqn:E; [|reflexivity].
        apply Qeq_bool_iff in E. exfalso.
        assert (Hlt : (fst (Heuristics.maybe_partition_bounds heuristics)
                       < snd (Heuristics.maybe_partition_bounds heuristics))%Q)
          by (eapply Qlt_trans; eassumption).
        apply Qlt_minus_iff in Hlt. unfold Qminus in E. rewrite E in Hlt.
        exact (Qlt_irrefl 0 Hlt). }
      rewrite Hz. unfold sample_util.binary_sample, bind, draw, ret.
      destruct (rng w) as [|r rest] eqn:Er; eexists; eexists;
        (split; [reflexivity|]); repeat split;
        try reflexivity; try (simpl; assumption); discriminate.
    + destruct (Space.maybe_partition space) as [|d l] eqn:Es; [discriminate|].
      unfold sample_util.uniform_sample_by_choices, bind, draw, ret.
      destruct (rng w) as [|r rest] eqn:Er; eexists; eexists;
        (split; [reflexivity|]); repeat split;
        try reflexivity; try (simpl; assumption);
        intros _; apply nth_mod_In; discriminate.
Qed.

(** When the attribute lookup raises, so does the decision once the two
    checks that come before it have passed, and so does the
    partition-config stage at its first statement. *)
Lemma sample_if_partition_attribute_raises (var_helper : VariableHelper)
    (resource_spec : ResourceSpec.t) (space : Space.t)
    (heuristics : Heuristics.t) (e : exn) (w : World) :
  partitionable_axis var_helper = Raise e ->
  List.length (Space.maybe_partition space) <> 1%nat ->
  Heuristics.enable_single_node_no_partition heuristics
  && (List.length (ResourceSpec.cpu_devices resource_spec) <=? 1)%nat = false ->
  sample_if_partition var_helper resource_spec space heuristics w = (Raise e, w).
Proof.
  intros Hattr Hlen Hsingle. unfold sample_if_partition.
  destruct (Nat.eqb_spec (List.length (Space.maybe_partition space)) 1);
    [contradiction|].
  rewrite Hsingle. unfold bind, lift. rewrite Hattr. reflexivity.
Qed.

Lemma sample_partition_config_attribute_raises (var_helper : VariableHelper)
    (resource_spec : ResourceSpec.t) (space : Space.t)
    (heuristics : Heuristics.t) (e : exn) (w : World) :
  partitionable_axis var_helper = Raise e ->
  sample_partition_config var_helper resource_spec space heuristics w
  = (Raise e, w).
Proof.
  intros Hattr. unfold sample_partition_config, bind, lift. rewrite Hattr.
  reflexivity.
Qed.

(* =================================================================== *)
(** * Further properties of the synchronizer stage                      *)
(* =================================================================== *)

(** The record [write_synchronizer] returns, in full. *)
Lemma write_synchronizer_record (ty : string) (node : Node)
    (resource_spec : ResourceSpec.t) (space : Space.t) (w w' : World)
    (node' : Node) :
  write_synchronizer ty node resource_spec space w = (Ok node', w') ->
  var_name node' = var_name node /\
  partitioner node' = partitioner node /\
  part_config node' = part_config node /\
  match synchronizer node' with
  | NoSynchronizer => False
  | PS s =>
      ty = "PS"%string /\
      PSSynchronizer.sync s = true /\ PSSynchronizer.staleness s = 0 /\
      PSSynchronizer.reduction_destination s = destination_of node
  | AR s =>
      ty <> "PS"%string /\
      (exists c, In c (Space.compressor space) /\
                 Compressor_Value c = Ok (AllReduceSynchronizer.compressor s)) /\
      AllReduceSynchronizer.group s = group_of node
  end.
Proof.
  unfold write_synchronizer, destination_of, group_of.
  destruct (String.eqb_spec ty "PS") as [->|Hne]; intros H.
  - apply bind_ok in H. destruct H as [lr [w1 [_ H]]].
    unfold ret in H. injection H as <- _. cbn.
    repeat split. destruct (synchronizer node); reflexivity.
  - apply bind_ok in H. destruct H as [c [w1 [Hc H]]].
    apply bind_ok in H. destruct H as [v [w2 [Hv H]]].
    apply lift_ok in Hv. destruct Hv as [Hv _].
    unfold ret in H. injection H as <- _. cbn.
    unfold sample_ar_compressor in Hc. apply uniform_sample_in in Hc.
    repeat split; [assumption | exists c; auto |].
    destruct (synchronizer node); reflexivity.
Qed.

(** X7. The node an unpartitioned parameter comes out with: name,
    partitioner and shards untouched, the helpers dict untouched, and one
    synchronizer set. A centralized one is synchronous with staleness 0
    and was either forced by a sparse gradient or drawn as ["PS"] from the
    space; a decentralized one belongs to a dense parameter, was drawn as
    a kind other than ["PS"] (any other string counts), and carries a
    compressor named in the space. Destination and group are left as they
    were. *)
Theorem sample_var_synchronizer_record (node : Node) (var_helper : VariableHelper)
    (resource_spec : ResourceSpec.t) (space : Space.t) (w w' : World)
    (node' : Node) :
  sample_var_synchronizer node var_helper resource_spec space w = (Ok node', w') ->
  var_name node' = var_name node /\
  partitioner node' = partitioner node /\
  part_config node' = part_config node /\
  helpers w' = helpers w /\
  match synchronizer node' with
  | NoSynchronizer => False
  | PS s =>
      PSSynchronizer.sync s = true /\ PSSynchronizer.staleness s = 0 /\
      (VariableHelper.var_type var_helper = SPARSE
       \/ In "PS"%string (Space.synchronizer_types space)) /\
      PSSynchronizer.reduction_destination s = destination_of node
  | AR s =>
      VariableHelper.var_type var_helper = DENSE /\
      (exists ty, In ty (Space.synchronizer_types space) /\ ty <> "PS"%string) /\
      (exists c, In c (Space.compressor space) /\
                 Compressor_Value c = Ok (AllReduceSynchronizer.compressor s)) /\
      AllReduceSynchronizer.group s = group_of node
  end.
Proof.
  intros H.
  assert (Hh : helpers w' = helpers w)
    by (eapply kh_sample_var_synchronizer; eassumption).
  unfold sample_var_synchronizer in H.
  apply bind_ok in H. destruct H as [ty [w1 [Hty H]]].
  apply write_synchronizer_record in H.
  destruct H as [Hn [Hp [Hc Hs]]].
  repeat split; try assumption.
  destruct (synchronizer node') as [|s|s]; [assumption| |].
  - destruct Hs as [-> [Hsync [Hst Hd]]]. repeat split; try assumption.
    destruct (VariableHelper.var_type var_helper); cbn in Hty.
    + left. reflexivity.
    + right. eapply uniform_sample_in. eassumption.
  - destruct Hs as [Hne [Hcomp Hg]].
    destruct (VariableHelper.var_type var_helper); cbn in Hty.
    + unfold ret in Hty. injection Hty as <- _. contradiction Hne. reflexivity.
    + repeat split; try assumption.
      exists ty. split; [eapply uniform_sample_in; eassumption | assumption].
Qed.

Lemma mapM_length {A B} (f : A -> M B) (l : list A) (w w' : World) (ys : list B) :
  mapM f l w = (Ok ys, w') -> List.length ys = List.length l.
Proof.
  intros H. apply mapM_ok in H.
  induction H; simpl; congruence.
Qed.

(** The kinds drawn for the shards: as many as there are shards; all the
    same under [same_synchronizer_for_parts] or for a sparse parameter. *)
Lemma parts_kinds_drawn (parts : list Node) (var_helper : VariableHelper)
    (space : Space.t) (heuristics : Heuristics.t) (w w' : World)
    (tys : list string) :
  (if VarType_eqb (VariableHelper.var_type var_helper) SPARSE
   then ret (repeat "PS"%string (List.length parts))
   else if Heuristics.same_synchronizer_for_parts heuristics then
     bind (sample_util.uniform_sample_by_choices (Space.synchronizer_types space))
          (fun type => ret (repeat type (List.length parts)))
   else
     mapM (fun _ : Node =>
             sample_util.uniform_sample_by_choices (Space.synchronizer_types space))
          parts) w = (Ok tys, w') ->
  List.length tys = List.length parts /\
  (VariableHelper.var_type var_helper = SPARSE
   \/ Heuristics.same_synchronizer_for_parts heuristics = true ->
   exists ty, tys = repeat ty (List.length parts)).
Proof.
  destruct (VariableHelper.var_type var_helper); cbn [VarType_eqb].
  - intros H. unfold ret in H. injection H as <- _.
    rewrite repeat_length. split; [reflexivity | eauto].
  - destruct (Heuristics.same_synchronizer_for_parts heuristics).
    + intros H. apply bind_ok in H. destruct H as [ty [w1 [_ H]]].
      unfold ret in H. injection H as <- _.
      rewrite repeat_length. split; [reflexivity | eauto].
    + intros H. split; [eapply mapM_length; eassumption|].
      intros [Hs | Hs]; discriminate.
Qed.

Lemma Forall2_combine_names (rs : ResourceSpec.t) (space : Space.t)
    (parts : list Node) :
  forall tys parts',
    List.length tys = List.length parts ->
    Forall2 (fun (pt : Node * string) y =>
               exists w1 w2, write_synchronizer (snd pt) (fst pt) rs space w1
                             = (Ok y, w2))
            (combine parts tys) parts' ->
    map var_name parts' = map var_name parts /\
    Forall (fun p => synchronizer p <> NoSynchronizer) parts'.
Proof.
  induction parts as [|p parts IH]; intros [|ty tys] parts' Hlen H;
    simpl in *; try discriminate; inversion H; subst.
  - split; constructor.
  - destruct H2 as [w1 [w2 Hw]]. apply write_synchronizer_record in Hw.
    cbn [fst snd] in Hw. destruct Hw as [Hn [_ [_ Hs]]].
    assert (Hlen' : List.length tys = List.length parts) by lia.
    destruct (IH tys l' Hlen' H4) as [Hnames Hall].
    split; [simpl; rewrite Hn, Hnames; reflexivity|].
    constructor; [|assumption].
    destruct (synchronizer y); [contradiction | discriminate | discriminate].
Qed.

Lemma Forall2_combine_repeat_kind (rs : ResourceSpec.t) (space : Space.t)
    (ty : string) (parts : list Node) :
  forall n parts',
    Forall2 (fun (pt : Node * string) y =>
               exists w1 w2, write_synchronizer (snd pt) (fst pt) rs space w1
                             = (Ok y, w2))
            (combine parts (repeat ty n)) parts' ->
    if String.eqb ty "PS" then Forall is_PS parts' else Forall is_AR parts'.
Proof.
  assert (Hnil : if String.eqb ty "PS" then Forall is_PS [] else Forall is_AR [])
    by (destruct (String.eqb ty "PS"); constructor).
  induction parts as [|p parts IH]; intros [|n] parts' H; simpl in H;
    inversion H; subst; try exact Hnil.
  destruct H2 as [w1 [w2 Hw]]. cbn [fst snd] in Hw.
  apply write_synchronizer_kind in Hw. destruct Hw as [_ [_ [_ Hk]]].
  specialize (IH n l' H4).
  destruct (String.eqb ty "PS"); constructor; assumption.
Qed.

(** X8. The shards of a partitioned parameter come back as many as they
    went in, in the same order and under the same names, each with one
    synchronizer set, and the helpers dict is untouched. When the
    heuristic asks for one kind for all the shards of a parameter, or the
    parameter is sparse, the shards are all centralized or all
    decentralized. *)
Theorem sample_parts_synchronizers_record (parts : list Node)
    (var_helper : VariableHelper) (resource_spec : ResourceSpec.t)
    (space : Space.t) (heuristics : Heuristics.t) (w w' : World)
    (parts' : list Node) :
  sample_parts_synchronizers parts var_helper resource_spec space heuristics w
  = (Ok parts', w') ->
  List.length parts' = List.length parts /\
  map var_name parts' = map var_name parts /\
  Forall (fun p => synchronizer p <> NoSynchronizer) parts' /\
  helpers w' = helpers w /\
  (VariableHelper.var_type var_helper = SPARSE
   \/ Heuristics.same_synchronizer_for_parts heuristics = true ->
   Forall is_PS parts' \/ Forall is_AR parts').
Proof.
  intros H.
  assert (Hh : helpers w' = helpers w)
    by (eapply kh_sample_parts_synchronizers; eassumption).
  unfold sample_parts_synchronizers in H.
  apply bind_ok in H. destruct H as [tys [w1 [Htys H]]].
  apply parts_kinds_drawn in Htys. destruct Htys as [Hlen Hsame].
  apply mapM_ok in H.
  destruct (Forall2_combine_names resource_spec space parts tys parts' Hlen H)
    as [Hnames Hall].
  split; [|split; [assumption|split; [assumption|split; [assumption|]]]].
  - rewrite <- (length_map var_name parts'), Hnames. apply length_map.
  - intros Hc. destruct (Hsame Hc) as [ty ->].
    pose proof (Forall2_combine_repeat_kind resource_spec space ty parts _ _ H) as Hk.
    destruct (String.eqb ty "PS"); [left | right]; assumption.
Qed.

(* =================================================================== *)
(** * Further properties of the partition-config stage                  *)
(* =================================================================== *)

Lemma valid_axes_incl (axes : list nat) (space : Space.t) (a : nat) :
  In a (valid_axes axes space) -> In a axes.
Proof.
  unfold valid_axes.
  destruct (negb (is_nil (Space.partitionable_axis space))); [|auto].
  intros H. apply set_inter_In in H. tauto.
Qed.

Lemma bind_eq {A B} (m : M A) (f : A -> M B) (w w1 : World) (a : A) :
  m w = (Ok a, w1) -> bind m f w = f a w1.
Proof. intros H. unfold bind. rewrite H. reflexivity. Qed.

(** A draw from a non-empty collection returns one of its elements and
    moves the random source on by one value. *)
Lemma uniform_sample_total {A} (l : list A) (w : World) :
  l <> [] ->
  exists x w',
    sample_util.uniform_sample_by_choices l w = (Ok x, w') /\
    In x l /\ helpers w' = helpers w /\ rng w' = tl (rng w).
Proof.
  intros Hl. destruct l as [|d l]; [contradiction|].
  unfold sample_util.uniform_sample_by_choices, bind, draw, ret.
  destruct (rng w) as [|r rest] eqn:Er; eexists; eexists;
    (split; [reflexivity|]); (split; [apply nth_mod_In; discriminate|]);
    split; try reflexivity; simpl; assumption.
Qed.

(** X9. The stage returns a configuration whenever its inputs allow one:
    the helper lists axes, some of them are legal under the space, the
    lower bound is an integer, and for every legal axis the extent is
    there and the upper bound (an integer, or the sentinel for the number
    of CPUs, capped by the extent) is not below [max(2, lower)]. The
    helpers dict is not touched, and two values of the random source are
    used. *)
Theorem sample_partition_config_returns (var_helper : VariableHelper)
    (resource_spec : ResourceSpec.t) (space : Space.t)
    (heuristics : Heuristics.t) (axes : list nat) (shape : list Z)
    (lower : Z) (w : World) :
  partitionable_axis var_helper = Ok axes ->
  valid_axes axes space <> [] ->
  VariableHelper.shape var_helper = Some shape ->
  fst (Heuristics.num_partition_bounds heuristics) = BInt lower ->
  (forall a, In a (valid_axes axes space) ->
     exists dim upper,
       nth_error shape a = Some dim /\
       upper_shards dim resource_spec
         (snd (Heuristics.num_partition_bounds heuristics)) = Some upper /\
       Z.max 2 lower <= upper) ->
  exists c w',
    sample_partition_config var_helper resource_spec space heuristics w
    = (Ok c, w') /\
    helpers w' = helpers w /\ rng w' = tl (tl (rng w)).
Proof.
  intros Hattr Hvalid Hshape Hlower Hall.
  assert (Haxes : axes <> []).
  { intros ->. destruct (valid_axes [] space) as [|a l] eqn:E; [contradiction|].
    assert (Ha : In a (valid_axes [] space)) by (rewrite E; left; reflexivity).
    apply valid_axes_incl in Ha. contradiction. }
  destruct (uniform_sample_total (valid_axes axes space) w Hvalid)
    as [a [w1 [Hdraw1 [Ha [Hh1 Hr1]]]]].
  destruct (Hall a Ha) as [dim [upper [Hdim [Hup Hle]]]].
  assert (Hrange : range2 (Z.max 2 lower) (upper + 1) <> []).
  { intros E. assert (Hin : In (Z.max 2 lower) (range2 (Z.max 2 lower) (upper + 1)))
      by (apply in_range2; lia).
    rewrite E in Hin. contradiction. }
  destruct (uniform_sample_total _ w1 Hrange) as [n [w2 [Hdraw2 [Hn [Hh2 Hr2]]]]].
  exists (PartitionerConfig_init (list_set (repeat 1 (List.length shape)) a n)), w2.
  split; [|split; [congruence | rewrite Hr2, Hr1; reflexivity]].
  unfold sample_partition_config.
  rewrite (bind_eq _ _ w w axes) by (unfold lift; rewrite Hattr; reflexivity).
  destruct axes as [|a0 axes']; [contradiction|].
  cbn [List.length Nat.ltb Nat.leb negb].
  fold (valid_axes (a0 :: axes') space).
  rewrite (bind_eq _ _ w w1 a Hdraw1).
  rewrite (bind_eq _ _ w1 w1 dim)
    by (unfold lift; rewrite Hshape, Hdim; reflexivity).
  rewrite (bind_eq _ _ w1 w1 upper).
  2:{ unfold lift. unfold upper_shards in Hup.
      destruct (snd (Heuristics.num_partition_bounds heuristics)) as [u|s|];
        [congruence | | discriminate].
      destruct (String.eqb s "num_nodes"); [congruence | discriminate]. }
  rewrite (bind_eq _ _ w1 w1 (Z.max 2 lower))
    by (unfold lift; rewrite Hlower; reflexivity).
  rewrite (bind_eq _ _ w1 w2 n Hdraw2).
  rewrite (bind_eq _ _ w2 w2 shape) by (unfold lift; rewrite Hshape; reflexivity).
  reflexivity.
Qed.

(** X10. No configuration comes out for a parameter none of whose legal
    axes has an extent of 2 or more, because at least two shards are
    asked for; this includes a sparse variable or an embedding whose
    first axis has extent 1, for which axis 0 is listed all the same. *)
Theorem sample_partition_config_small_extent (var_helper : VariableHelper)
    (resource_spec : ResourceSpec.t) (space : Space.t)
    (heuristics : Heuristics.t) (axes : list nat) (shape : list Z) (w : World) :
  partitionable_axis var_helper = Ok axes ->
  VariableHelper.shape var_helper = Some shape ->
  (forall a dim, In a (valid_axes axes space) ->
                 nth_error shape a = Some dim -> dim < 2) ->
  is_ok (fst (sample_partition_config var_helper resource_spec space heuristics w))
  = false.
Proof.
  intros Hattr Hshape Hsmall.
  destruct (sample_partition_config var_helper resource_spec space heuristics w)
    as [[c|e] w'] eqn:E; [|reflexivity].
  apply sample_partition_config_ok in E.
  destruct E as (axes' & a & shape' & dim & lower & upper & n
                 & Hax & Ha & Hsh & Hdim & _ & Hup & Hn & _).
  assert (axes' = axes) by congruence. assert (shape' = shape) by congruence.
  subst axes' shape'.
  specialize (Hsmall a dim Ha Hdim).
  unfold upper_shards in Hup.
  destruct (snd (Heuristics.num_partition_bounds heuristics)) as [u|s|];
    [| destruct (String.eqb s "num_nodes") |]; inversion Hup; lia.
Qed.

(* =================================================================== *)
(** * Further properties of the post-assignment stage                   *)
(* =================================================================== *)

Lemma rmap_raise {A B} (f : A -> result B) (l : list A) (e : exn) :
  rmap f l = Raise e -> exists x, In x l /\ f x = Raise e.
Proof.
  induction l as [|x l IH]; simpl; [discriminate|].
  destruct (f x) as [y|e0] eqn:Ex; simpl.
  - destruct (rmap f l) as [ys|e1]; simpl; [discriminate|].
    intros H. injection H as ->. destruct (IH eq_refl) as [x' [Hin Hx']].
    exists x'. auto.
  - intros H. injection H as ->. exists x. auto.
Qed.

Lemma assign_leaves_raise (f : Node -> result Node) (node_config : list Node)
    (e : exn) :
  assign_leaves f node_config = Raise e ->
  exists leaf, In leaf (leaves node_config) /\ f leaf = Raise e.
Proof.
  unfold assign_leaves. intros H. apply rmap_raise in H.
  destruct H as [node [Hin H]].
  assert (Hl : exists leaf, In leaf (leaves_of node) /\ f leaf = Raise e).
  { unfold leaves_of. destruct (str_truthy (partitioner node)).
    - destruct (rmap f (part_config node)) as [parts|e0] eqn:Er; [discriminate|].
      simpl in H. injection H as ->. apply rmap_raise. assumption.
    - exists node. split; [left; reflexivity | assumption]. }
  destruct Hl as [leaf [Hleaf Hf]]. exists leaf. split; [|assumption].
  unfold leaves. apply in_flat_map. exists node. auto.
Qed.

Lemma assign_ps_leaf_from (ps : dict (nat * string)) (leaf leaf' : Node) :
  assign_ps_leaf ps leaf = Ok leaf' ->
  partitioner leaf' = partitioner leaf /\ ps_assigned_from ps leaf leaf'.
Proof.
  unfold assign_ps_leaf, which_synchronizer, ps_assigned_from.
  destruct (synchronizer leaf) as [|s|s] eqn:Es; simpl; [discriminate| |].
  - destruct (dict_get ps (var_name leaf)) as [[i d]|] eqn:E; [|discriminate].
    intros H; injection H as <-. split; [reflexivity|]. exists i, d. auto.
  - intros H; injection H as <-. auto.
Qed.

Lemma assign_ar_leaf_from (ar : dict (nat * Z)) (leaf leaf' : Node) :
  assign_ar_leaf ar leaf = Ok leaf' ->
  partitioner leaf' = partitioner leaf /\ ar_assigned_from ar leaf leaf'.
Proof.
  unfold assign_ar_leaf, which_synchronizer, ar_assigned_from.
  destruct (synchronizer leaf) as [|s|s] eqn:Es; simpl; [discriminate| |].
  - intros H; injection H as <-. auto.
  - destruct (dict_get ar (var_name leaf)) as [[i g]|] eqn:E; [|discriminate].
    intros H; injection H as <-. split; [reflexivity|]. exists i, g. auto.
Qed.

(** X11. Writing the destinations back is a lookup by name: when
    [assign_ps_reduction_destinations] returns, every centralized leaf
    record carries the destination the dict holds under its name and is
    otherwise unchanged, and the decentralized ones are unchanged; when it
    raises, some leaf record has no synchronizer set ([TypeError]) or is
    centralized under a name the dict lacks ([KeyError]). The same holds
    of [assign_ar_group] with the groups of the decentralized records. *)
Theorem assign_by_name (node_config : list Node) :
  (forall ps,
      match assign_ps_reduction_destinations node_config ps with
      | Ok node_config' =>
          Forall2 (ps_assigned_from ps) (leaves node_config) (leaves node_config')
      | Raise e =>
          exists leaf,
            In leaf (leaves node_config) /\
            ((e = TypeError /\ synchronizer leaf = NoSynchronizer) \/
             (e = KeyError /\ is_PS leaf /\ dict_get ps (var_name leaf) = None))
      end) /\
  (forall ar,
      match assign_ar_group node_config ar with
      | Ok node_config' =>
          Forall2 (ar_assigned_from ar) (leaves node_config) (leaves node_config')
      | Raise e =>
          exists leaf,
            In leaf (leaves node_config) /\
            ((e = TypeError /\ synchronizer leaf = NoSynchronizer) \/
             (e = KeyError /\ is_AR leaf /\ dict_get ar (var_name leaf) = None))
      end).
Proof.
  split.
  - intros ps. rewrite assign_ps_as_leaves.
    destruct (assign_leaves (assign_ps_leaf ps) node_config) as [nc'|e] eqn:E.
    + eapply assign_leaves_Forall2; [|exact E].
      intros leaf leaf'. apply assign_ps_leaf_from.
    + apply assign_leaves_raise in E. destruct E as [leaf [Hin Hf]].
      exists leaf. split; [assumption|].
      unfold assign_ps_leaf, which_synchronizer, is_PS in *.
      destruct (synchronizer leaf) as [|s|s]; simpl in Hf.
      * left. injection Hf as <-. auto.
      * right. destruct (dict_get ps (var_name leaf)) as [[i d]|];
          [discriminate|]. injection Hf as <-. eauto.
      * discriminate.
  - intros ar. rewrite assign_ar_as_leaves.
    destruct (assign_leaves (assign_ar_leaf ar) node_config) as [nc'|e] eqn:E.
    + eapply assign_leaves_Forall2; [|exact E].
      intros leaf leaf'. apply assign_ar_leaf_from.
    + apply assign_leaves_raise in E. destruct E as [leaf [Hin Hf]].
      exists leaf. split; [assumption|].
      unfold assign_ar_leaf, which_synchronizer, is_AR in *.
      destruct (synchronizer leaf) as [|s|s]; simpl in Hf.
      * left. injection Hf as <-. auto.
      * discriminate.
      * right. destruct (dict_get ar (var_name leaf)) as [[i g]|];
          [discriminate|]. injection Hf as <-. eauto.
Qed.

(** X12. Resolving the chunk size or the number of groups never trips the
    assertion that follows it: every value it can draw is at least 1. The
    call either returns a value of at least 1, leaving the helpers alone,
    or fails on an empty range of choices without having drawn; under the
    chunk scheme a positive configured chunk size is returned as it is,
    without a draw. *)
Theorem resolve_chunk_size_or_num_group_outcome (ar : dict nat)
    (heuristics : Heuristics.t) (w : World) :
  match resolve_chunk_size_or_num_group ar heuristics w with
  | (Ok c, w') => 1 <= c /\ helpers w' = helpers w
  | (Raise e, w') => e = ConfigurationError /\ w' = w
  end /\
  (forall c,
      opt_str_eqb (Heuristics.merge_scheme heuristics) "by_chunk" = true ->
      Heuristics.chunk_size heuristics = Some c -> 0 < c ->
      resolve_chunk_size_or_num_group ar heuristics w = (Ok c, w)).
Proof.
  clear. split.
  - assert (Hdraw : forall lo hi,
               1 <= lo ->
               match bind (sample_util.uniform_sample_by_choices (range2 lo hi))
                          (fun k => if 0 <? k then ret k else raise AssertionError) w
               with
               | (Ok c, w') => 1 <= c /\ helpers w' = helpers w
               | (Raise e, w') => e = ConfigurationError /\ w' = w
               end).
    { intros lo hi Hlo. unfold bind.
      destruct (sample_util.uniform_sample_by_choices (range2 lo hi) w)
        as [[k|e] w1] eqn:E.
      - pose proof (uniform_sample_helpers _ _ _ _ E) as Hh.
        apply uniform_sample_in in E. apply in_range2 in E.
        destruct (Z.ltb_spec 0 k); [|lia]. unfold ret. split; [lia | assumption].
      - apply uniform_sample_raise in E. tauto. }
    unfold resolve_chunk_size_or_num_group, sample_chunk_size, sample_num_ar_groups.
    destruct (opt_str_eqb (Heuristics.merge_scheme heuristics) "by_chunk").
    + destruct (Heuristics.chunk_size heuristics) as [c|].
      * destruct (Z.ltb_spec 0 c) as [Hc|Hc].
        -- unfold bind, ret. destruct (Z.ltb_spec 0 c); [|lia]. split; [lia | reflexivity].
        -- apply Hdraw. lia.
      * apply Hdraw. lia.
    + apply Hdraw. lia.
  - intros c Hs Hc Hpos. unfold resolve_chunk_size_or_num_group.
    rewrite Hs, Hc. destruct (Z.ltb_spec 0 c); [|lia].
    unfold bind, ret. destruct (Z.ltb_spec 0 c); [reflexivity | lia].
Qed.

(** X13. Names the sampler does not know stop the call: a load balancer
    other than [None], the empty string, ['greedy'], ['christy'],
    ['sorted_christy'] and ['sorted_greedy'] raises [ValueError] at once,
    before any draw and without calling a balancer; a merge scheme other
    than [None], ['random'], ['by_chunk'], ['christy'] and
    ['ordered_balanced'] never lets [sample_ar_groups] return, and raises
    [ValueError] once the number of groups has been drawn. *)
Theorem unknown_names_raise (node_config : list Node) (helpers0 : dict Helper)
    (heuristics : Heuristics.t) (name : string) :
  (Heuristics.ps_load_balancer heuristics = Some name ->
   ~ In name [""; "greedy"; "christy"; "sorted_christy"; "sorted_greedy"]%string ->
   forall ps resource_spec w,
     sample_ps_reduction_destinations node_config ps resource_spec helpers0
       heuristics w
     = (Raise (ValueError "Cannot recognize load balancer"), w)) /\
  (Heuristics.merge_scheme heuristics = Some name ->
   ~ In name ["random"; "by_chunk"; "christy"; "ordered_balanced"]%string ->
   forall ar w,
     match sample_ar_groups node_config ar helpers0 heuristics w with
     | (Ok _, _) => False
     | (Raise e, w') =>
         match resolve_chunk_size_or_num_group ar heuristics w with
         | (Ok _, w1) => e = ValueError "unseen merge scheme.." /\ w' = w1
         | (Raise e1, w1) => e = e1 /\ w' = w1
         end
     end).
Proof.
  assert (Hneq : forall s, name <> s -> String.eqb name s = false)
    by (intros s Hs; apply String.eqb_neq; assumption).
  split.
  - intros Hb Hnot ps resource_spec w. simpl in Hnot.
    unfold sample_ps_reduction_destinations, opt_str_falsy, opt_str_eqb.
    rewrite Hb.
    assert (Ht : str_truthy name = true)
      by (destruct name; [exfalso; apply Hnot; auto | reflexivity]).
    rewrite Ht. cbn [negb].
    rewrite !Hneq by (intros ->; apply Hnot; auto 6). reflexivity.
  - intros Hm Hnot ar w. simpl in Hnot.
    unfold sample_ar_groups. unfold bind at 1.
    destruct (resolve_chunk_size_or_num_group ar heuristics w) as [[c|e] w1];
      [|auto].
    unfold group_assignments_of, opt_str_eqb. rewrite Hm.
    rewrite !Hneq by (intros ->; apply Hnot; auto 6).
    cbn [orb]. unfold bind, raise. auto.
Qed.

Lemma frame_leaf_refl (leaf : Node) : frame_leaf leaf leaf.
Proof.
  unfold frame_leaf. repeat split.
  destruct (synchronizer leaf); auto.
Qed.

Lemma frame_leaf_trans (a b c : Node) :
  frame_leaf a b -> frame_leaf b c -> frame_leaf a c.
Proof.
  unfold frame_leaf. intros (Hn & Hp & Hc & Hs) (Hn' & Hp' & Hc' & Hs').
  repeat split; try congruence.
  destruct (synchronizer a), (synchronizer b), (synchronizer c);
    try contradiction; auto; intuition congruence.
Qed.

Lemma Forall2_refl {A} (R : A -> A -> Prop) (l : list A) :
  (forall x, R x x) -> Forall2 R l l.
Proof. intros HR. induction l; constructor; auto. Qed.

Lemma Forall2_trans {A} (R : A -> A -> Prop) (l1 l2 l3 : list A) :
  (forall x y z, R x y -> R y z -> R x z) ->
  Forall2 R l1 l2 -> Forall2 R l2 l3 -> Forall2 R l1 l3.
Proof.
  intros HR H12. revert l3.
  induction H12 as [|x y l1 l2 Hxy _ IH]; intros l3 H23; inversion H23; subst;
    constructor; eauto.
Qed.

Lemma frame_node_refl (node : Node) : frame_node node node.
Proof.
  unfold frame_node. repeat split.
  destruct (str_truthy (partitioner node)).
  - split; [reflexivity|]. apply Forall2_refl. apply frame_leaf_refl.
  - apply frame_leaf_refl.
Qed.

Lemma frame_node_trans (a b c : Node) :
  frame_node a b -> frame_node b c -> frame_node a c.
Proof.
  unfold frame_node. intros (Hn & Hp & Hs) (Hn' & Hp' & Hs').
  rewrite Hp in Hs'. repeat split; try congruence.
  destruct (str_truthy (partitioner a)).
  - destruct Hs as [Hs Hparts], Hs' as [Hs' Hparts'].
    split; [congruence|].
    eapply Forall2_trans; [apply frame_leaf_trans | eassumption | eassumption].
  - eapply frame_leaf_trans; eassumption.
Qed.

Lemma assign_leaves_frame (f : Node -> result Node) :
  (forall leaf leaf', f leaf = Ok leaf' -> frame_leaf leaf leaf') ->
  forall node_config node_config',
    assign_leaves f node_config = Ok node_config' ->
    Forall2 frame_node node_config node_config'.
Proof.
  intros Hf node_config node_config' H. unfold assign_leaves in H.
  apply rmap_ok_Forall2 in H.
  induction H as [|node node' nc nc' Hn _ IH]; constructor; [|exact IH].
  unfold frame_node. destruct (str_truthy (partitioner node)) eqn:Ep.
  - apply rbind_ok in Hn. destruct Hn as [parts [Hparts Hn]].
    injection Hn as <-. cbn [with_part_config var_name partitioner synchronizer
                               part_config].
    repeat split. apply rmap_ok_Forall2 in Hparts.
    clear -Hparts Hf. induction Hparts; constructor; auto.
  - pose proof (Hf _ _ Hn) as Hfr.
    split; [apply Hfr|]. split; [apply Hfr | exact Hfr].
Qed.

Lemma assign_ps_leaf_frame (ps : dict (nat * string)) (leaf leaf' : Node) :
  assign_ps_leaf ps leaf = Ok leaf' -> frame_leaf leaf leaf'.
Proof.
  intros H. apply assign_ps_leaf_from in H. destruct H as [_ H].
  unfold ps_assigned_from in H. unfold frame_leaf.
  destruct (synchronizer leaf) as [|s|s] eqn:Es; [contradiction| |].
  - destruct H as [i [d [_ ->]]]. cbn. repeat split.
  - subst leaf'. rewrite Es. repeat split.
Qed.

Lemma assign_ar_leaf_frame (ar : dict (nat * Z)) (leaf leaf' : Node) :
  assign_ar_leaf ar leaf = Ok leaf' -> frame_leaf leaf leaf'.
Proof.
  intros H. apply assign_ar_leaf_from in H. destruct H as [_ H].
  unfold ar_assigned_from in H. unfold frame_leaf.
  destruct (synchronizer leaf) as [|s|s] eqn:Es; [contradiction| |].
  - subst leaf'. rewrite Es. repeat split.
  - destruct H as [i [g [_ ->]]]. cbn. repeat split.
Qed.

(** X14. The post-assignment stage writes destinations and groups and
    nothing else: when it returns, the node configs are the ones it was
    given, in the same order, with the same names and partitioners and
    the same shards in the same order, every record with the kind of
    synchronizer it had and with [local_replication], [sync], [staleness],
    [spec] and [compressor] as they were; and the helpers dict it was
    handed is as it was. *)
Theorem post_assignment_frame (node_config : list Node)
    (resource_spec : ResourceSpec.t) (helpers0 : dict Helper)
    (heuristics : Heuristics.t) (w w' : World) (node_config' : list Node) :
  sample_group_and_reduction_destinations node_config resource_spec helpers0
    heuristics w = (Ok node_config', w') ->
  Forall2 frame_node node_config node_config' /\
  List.length node_config' = List.length node_config /\
  helpers w' = helpers w.
Proof.
  intros H.
  assert (Hh : helpers w' = helpers w)
    by (eapply kh_sample_group_and_reduction_destinations; eassumption).
  assert (Hf : Forall2 frame_node node_config node_config').
  { unfold sample_group_and_reduction_destinations in H.
    apply bind_ok in H. destruct H as [pools [w0 [_ H]]].
    apply bind_ok in H. destruct H as [nc1 [w1 [Hps Har]]].
    assert (H1 : Forall2 frame_node node_config nc1).
    { destruct (0 <? List.length (ps_shards pools))%nat.
      - unfold sample_ps_reduction_destinations in Hps.
        apply bind_ok in Hps. destruct Hps as [dst [wa [_ Hps]]].
        apply bind_ok in Hps. destruct Hps as [ps' [wb [_ Hps]]].
        apply lift_ok in Hps. destruct Hps as [Hps _].
        rewrite assign_ps_as_leaves in Hps.
        eapply assign_leaves_frame; [|exact Hps].
        intros leaf leaf'. apply assign_ps_leaf_frame.
      - unfold ret in Hps. injection Hps as <- _.
        apply Forall2_refl. apply frame_node_refl. }
    assert (H2 : Forall2 frame_node nc1 node_config').
    { destruct (0 <? List.length (ar_shards pools))%nat.
      - unfold sample_ar_groups in Har.
        apply bind_ok in Har. destruct Har as [c [wa [_ Har]]].
        apply bind_ok in Har. destruct Har as [g [wb [_ Har]]].
        apply bind_ok in Har. destruct Har as [ar' [wc [_ Har]]].
        apply lift_ok in Har. destruct Har as [Har _].
        rewrite assign_ar_as_leaves in Har.
        eapply assign_leaves_frame; [|exact Har].
        intros leaf leaf'. apply assign_ar_leaf_frame.
      - unfold ret in Har. injection Har as <- _.
        apply Forall2_refl. apply frame_node_refl. }
    eapply Forall2_trans; [apply frame_node_trans | eassumption | eassumption]. }
  split; [assumption|]. split; [|assumption].
  symmetry. eapply Forall2_length. eassumption.
Qed.

(* =================================================================== *)
(** * Further properties of build                                       *)
(* =================================================================== *)

(** The loop that creates the shard records: always returns, with the
    records in index order, having added their names to the helpers. *)
Lemma new_parts_loop (v : Var) (c : PartitionerConfig) (l : list Z) :
  forall acc w,
    exists w',
      foldM (fun (parts : list Node) i =>
               let part := with_var_name new_Node (part_name v i) in
               bind (set_helper (var_name part) (PartH (mkPartHelper i v c)))
                    (fun _ => ret (parts ++ [part])))
            l acc w
      = (Ok (acc ++ map (fun i => with_var_name new_Node (part_name v i)) l), w') /\
      rng w' = rng w /\
      (forall k, In k (dict_keys (helpers w')) <->
                 In k (dict_keys (helpers w)) \/ In k (map (part_name v) l)).
Proof.
  induction l as [|i l IH]; intros acc w.
  - exists w. simpl. unfold ret. rewrite app_nil_r. repeat split; tauto.
  - cbn [foldM]. unfold bind at 1. unfold bind at 1, set_helper at 1, ret at 1.
    destruct (IH (acc ++ [with_var_name new_Node (part_name v i)])
                (mkWorld (rng w)
                   (dict_set (helpers w) (part_name v i)
                      (PartH (mkPartHelper i v c))))) as [w' [Hrun [Hrng Hkeys]]].
    exists w'. cbn [var_name with_var_name] in *. rewrite Hrun.
    split; [rewrite <- app_assoc; reflexivity|]. split; [assumption|].
    intros k. rewrite Hkeys. cbn [helpers map]. rewrite dict_keys_set.
    simpl. intuition congruence.
Qed.

(** Names, partitioner and shards out of the synchronizer stage. *)
Lemma sample_var_synchronizer_kept (node : Node) (var_helper : VariableHelper)
    (resource_spec : ResourceSpec.t) (space : Space.t) (w w' : World)
    (node' : Node) :
  sample_var_synchronizer node var_helper resource_spec space w = (Ok node', w') ->
  var_name node' = var_name node /\
  partitioner node' = partitioner node /\
  part_config node' = part_config node.
Proof.
  intros H. apply sample_var_synchronizer_written in H.
  destruct H as [ty [w1 H]]. apply write_synchronizer_record in H. tauto.
Qed.

Lemma sample_parts_synchronizers_names (parts : list Node)
    (var_helper : VariableHelper) (resource_spec : ResourceSpec.t)
    (space : Space.t) (heuristics : Heuristics.t) (w w' : World)
    (parts' : list Node) :
  sample_parts_synchronizers parts var_helper resource_spec space heuristics w
  = (Ok parts', w') ->
  map var_name parts' = map var_name parts.
Proof.
  unfold sample_parts_synchronizers. intros H.
  apply bind_ok in H. destruct H as [tys [w1 [Htys H]]].
  apply parts_kinds_drawn in Htys. destruct Htys as [Hlen _].
  apply mapM_ok in H.
  apply (Forall2_combine_names resource_spec space parts tys parts' Hlen H).
Qed.

Lemma build_var_built (space : Space.t) (heuristics : Heuristics.t)
    (resource_spec : ResourceSpec.t) (node_config : list Node) (v : Var)
    (w w' : World) (node_config' : list Node) :
  build_var space heuristics resource_spec node_config v w = (Ok node_config', w') ->
  exists node,
    node_config' = node_config ++ [node] /\
    node_built space heuristics resource_spec v node.
Proof.
  unfold build_var. intros H.
  apply bind_ok in H. destruct H as [u [w0 [_ H]]].
  apply bind_ok in H. destruct H as [mp [w1 [Hmp H]]].
  apply bind_ok in H. destruct H as [node [w2 [Hnode H]]].
  unfold ret in H. injection H as <- _.
  exists node. split; [reflexivity|].
  unfold node_built.
  destruct (truthy mp) eqn:Et; cbn [negb] in Hnode.
  - apply bind_ok in Hnode. destruct Hnode as [c [w3 [Hc Hnode]]].
    apply bind_ok in Hnode. destruct Hnode as [parts [w4 [Hparts Hnode]]].
    apply bind_ok in Hnode. destruct Hnode as [parts' [w5 [Hsync Hnode]]].
    unfold ret in Hnode. injection Hnode as <- _.
    destruct (new_parts_loop v c (range (num_shards c)) [] w3)
      as [w4' [Hloop _]].
    pose proof (eq_trans (eq_sym Hloop) Hparts) as Heq.
    injection Heq as <- _.
    apply sample_parts_synchronizers_names in Hsync.
    split; [reflexivity|].
    exists mp, w0, w1. split; [assumption|]. rewrite Et.
    exists c, w1, w3. split; [assumption|]. split; [reflexivity|].
    cbn [part_config with_part_config with_partitioner with_var_name new_Node app].
    rewrite Hsync. cbn [app]. rewrite map_map. reflexivity.
  - apply sample_var_synchronizer_kept in Hnode.
    destruct Hnode as [Hn [Hp Hc]].
    split; [exact Hn|].
    exists mp, w0, w1. split; [assumption|]. rewrite Et.
    split; assumption.
Qed.

Lemma build_vars_built (space : Space.t) (heuristics : Heuristics.t)
    (resource_spec : ResourceSpec.t) (graph_item : list Var) :
  forall node_config w node_config' w',
    foldM (build_var space heuristics resource_spec) graph_item node_config w
    = (Ok node_config', w') ->
    exists nodes,
      node_config' = node_config ++ nodes /\
      Forall2 (node_built space heuristics resource_spec) graph_item nodes.
Proof.
  induction graph_item as [|v rest IH]; intros nc w nc' w' H; simpl in H.
  - unfold ret in H. injection H as <- _. exists []. rewrite app_nil_r.
    split; [reflexivity | constructor].
  - apply bind_ok in H. destruct H as [nc1 [w1 [Hv H]]].
    apply build_var_built in Hv. destruct Hv as [node [-> Hnode]].
    destruct (IH _ _ _ _ H) as [nodes [-> Hnodes]].
    exists (node :: nodes). rewrite <- app_assoc.
    split; [reflexivity | constructor; assumption].
Qed.

Lemma frame_node_built (space : Space.t) (heuristics : Heuristics.t)
    (resource_spec : ResourceSpec.t) (v : Var) (node node' : Node) :
  frame_node node node' ->
  node_built space heuristics resource_spec v node ->
  node_built space heuristics resource_spec v node'.
Proof.
  unfold frame_node, node_built.
  intros (Hn & Hp & Hs) (Hv & mp & w0 & w1 & Hmp & Hb).
  assert (Hparts : map var_name (part_config node')
                   = map var_name (part_config node)
                   /\ (part_config node = [] -> part_config node' = [])).
  { destruct (str_truthy (partitioner node)).
    - destruct Hs as [_ Hf]. split.
      + clear -Hf. induction Hf as [|x y l l' Hxy _ IH]; [reflexivity|].
        simpl. destruct Hxy as [Hxy _]. congruence.
      + intros E. rewrite E in Hf. inversion Hf. reflexivity.
    - destruct Hs as (_ & _ & Hc & _). rewrite Hc. auto. }
  destruct Hparts as [Hnames Hnil].
  split; [congruence|].
  exists mp, w0, w1. split; [assumption|].
  destruct (truthy mp).
  - destruct Hb as (c & w2 & w3 & Hc & Hpc & Hpn).
    exists c, w2, w3. repeat split; congruence.
  - destruct Hb as [Hpe Hce]. split; [congruence | auto].
Qed.

(** What a returned strategy is made of, variable by variable. *)
Lemma build_built (space : Space.t) (heuristics : Heuristics.t)
    (graph_item : list Var) (resource_spec : ResourceSpec.t) (w w' : World)
    (expr : Strategy) :
  build space heuristics graph_item resource_spec w = (Ok expr, w') ->
  replicas expr = ResourceSpec.gpu_devices resource_spec /\
  Forall2 (node_built space heuristics resource_spec) graph_item (node_config expr).
Proof.
  unfold build. intros H.
  apply bind_ok in H. destruct H as [nc0 [w0 [Hvars H]]].
  apply bind_ok in H. destruct H as [hs [w1 [_ H]]].
  apply bind_ok in H. destruct H as [nc [w2 [Hstage H]]].
  apply bind_ok in H. destruct H as [u [w3 [_ H]]].
  unfold ret in H. injection H as <- _. cbn [replicas node_config].
  split; [reflexivity|].
  apply build_vars_built in Hvars. destruct Hvars as [nodes [-> Hnodes]].
  cbn [app] in Hstage.
  assert (Hframe : Forall2 frame_node nodes nc).
  { unfold sample_group_and_reduction_destinations in Hstage.
    apply bind_ok in Hstage. destruct Hstage as [pools [wa [_ Hstage]]].
    apply bind_ok in Hstage. destruct Hstage as [nc1 [wb [Hps Har]]].
    eapply Forall2_trans; [apply frame_node_trans | |].
    - destruct (0 <? List.length (ps_shards pools))%nat.
      + unfold sample_ps_reduction_destinations in Hps.
        apply bind_ok in Hps. destruct Hps as [dst [wc [_ Hps]]].
        apply bind_ok in Hps. destruct Hps as [ps' [wd [_ Hps]]].
        apply lift_ok in Hps. destruct Hps as [Hps _].
        rewrite assign_ps_as_leaves in Hps.
        eapply assign_leaves_frame; [|exact Hps].
        intros leaf leaf'. apply assign_ps_leaf_frame.
      + unfold ret in Hps. injection Hps as <- _.
        apply Forall2_refl. apply frame_node_refl.
    - destruct (0 <? List.length (ar_shards pools))%nat.
      + unfold sample_ar_groups in Har.
        apply bind_ok in Har. destruct Har as [c [wc [_ Har]]].
        apply bind_ok in Har. destruct Har as [g [wd [_ Har]]].
        apply bind_ok in Har. destruct Har as [ar' [we [_ Har]]].
        apply lift_ok in Har. destruct Har as [Har _].
        rewrite assign_ar_as_leaves in Har.
        eapply assign_leaves_frame; [|exact Har].
        intros leaf leaf'. apply assign_ar_leaf_frame.
      + unfold ret in Har. injection Har as <- _.
        apply Forall2_refl. apply frame_node_refl. }
  clear -Hnodes Hframe. revert nc Hframe.
  induction Hnodes as [|v node vs nodes Hv _ IH]; intros nc Hframe;
    inversion Hframe; subst; constructor.
  - eapply frame_node_built; eassumption.
  - apply IH. assumption.
Qed.

(** The same, variable by variable, in the worlds of the run. *)
Lemma build_var_built_at (space : Space.t) (heuristics : Heuristics.t)
    (resource_spec : ResourceSpec.t) (node_config : list Node) (v : Var)
    (w w' : World) (node_config' : list Node) :
  build_var space heuristics resource_spec node_config v w = (Ok node_config', w') ->
  exists node,
    node_config' = node_config ++ [node] /\
    node_built_at space heuristics resource_spec
      (snd (set_helper (name v) (VarH (mkVariableHelper v)) w)) v node.
Proof.
  unfold build_var. intros H.
  apply bind_ok in H. destruct H as [u [w0 [Hset H]]].
  cbn [var] in Hset.
  assert (Hw0 : w0 = snd (set_helper (name v) (VarH (mkVariableHelper v)) w))
    by (rewrite Hset; reflexivity).
  clear Hset. subst w0.
  apply bind_ok in H. destruct H as [mp [w1 [Hmp H]]].
  apply bind_ok in H. destruct H as [node [w2 [Hnode H]]].
  unfold ret in H. injection H as <- _.
  exists node. split; [reflexivity|].
  unfold node_built_at.
  destruct (truthy mp) eqn:Et; cbn [negb] in Hnode.
  - apply bind_ok in Hnode. destruct Hnode as [c [w3 [Hc Hnode]]].
    apply bind_ok in Hnode. destruct Hnode as [parts [w4 [Hparts Hnode]]].
    apply bind_ok in Hnode. destruct Hnode as [parts' [w5 [Hsync Hnode]]].
    unfold ret in Hnode. injection Hnode as <- _.
    destruct (new_parts_loop v c (range (num_shards c)) [] w3)
      as [w4' [Hloop _]].
    pose proof (eq_trans (eq_sym Hloop) Hparts) as Heq.
    injection Heq as <- _.
    apply sample_parts_synchronizers_names in Hsync.
    split; [reflexivity|].
    exists mp, w1. split; [assumption|]. rewrite Et.
    exists c, w3. split; [assumption|]. split; [reflexivity|].
    cbn [part_config with_part_config with_partitioner with_var_name new_Node app].
    rewrite Hsync. cbn [app]. rewrite map_map. reflexivity.
  - apply sample_var_synchronizer_kept in Hnode.
    destruct Hnode as [Hn [Hp Hc]].
    split; [exact Hn|].
    exists mp, w1. split; [assumption|]. rewrite Et.
    split; assumption.
Qed.

Lemma foldM_app {A B} (f : B -> A -> M B) (l1 l2 : list A) :
  forall acc w,
    foldM f (l1 ++ l2) acc w
    = bind (foldM f l1 acc) (fun acc' => foldM f l2 acc') w.
Proof.
  clear. induction l1 as [|x l1 IH]; intros acc w; [reflexivity|].
  cbn [app foldM]. unfold bind.
  destruct (f acc x w) as [[acc1|e] w1]; [|reflexivity].
  rewrite IH. unfold bind. reflexivity.
Qed.

Lemma frame_node_built_at (space : Space.t) (heuristics : Heuristics.t)
    (resource_spec : ResourceSpec.t) (w0 : World) (v : Var) (node node' : Node) :
  frame_node node node' ->
  node_built_at space heuristics resource_spec w0 v node ->
  node_built_at space heuristics resource_spec w0 v node'.
Proof.
  unfold frame_node, node_built_at.
  intros (Hn & Hp & Hs) (Hv & mp & w1 & Hmp & Hb).
  assert (Hparts : map var_name (part_config node')
                   = map var_name (part_config node)
                   /\ (part_config node = [] -> part_config node' = [])).
  { destruct (str_truthy (partitioner node)).
    - destruct Hs as [_ Hf]. split.
      + clear -Hf. induction Hf as [|x y l l' Hxy _ IH]; [reflexivity|].
        simpl. destruct Hxy as [Hxy _]. congruence.
      + intros E. rewrite E in Hf. inversion Hf. reflexivity.
    - destruct Hs as (_ & _ & Hc & _). rewrite Hc. auto. }
  destruct Hparts as [Hnames Hnil].
  split; [congruence|].
  exists mp, w1. split; [assumption|].
  destruct (truthy mp).
  - destruct Hb as (c & w2 & Hc & Hpc & Hpn).
    exists c, w2. repeat split; congruence.
  - destruct Hb as [Hpe Hce]. split; [congruence | auto].
Qed.

(** The post-assignment stage keeps the frame of every node config. *)
Lemma sample_group_and_reduction_destinations_frame (node_config : list Node)
    (resource_spec : ResourceSpec.t) (helpers0 : dict Helper)
    (heuristics : Heuristics.t) (w w' : World) (node_config' : list Node) :
  sample_group_and_reduction_destinations node_config resource_spec helpers0
    heuristics w = (Ok node_config', w') ->
  Forall2 frame_node node_config node_config'.
Proof.
  unfold sample_group_and_reduction_destinations. intros Hstage.
  apply bind_ok in Hstage. destruct Hstage as [pools [wa [_ Hstage]]].
  apply bind_ok in Hstage. destruct Hstage as [nc1 [wb [Hps Har]]].
  eapply Forall2_trans; [apply frame_node_trans | |].
  - destruct (0 <? List.length (ps_shards pools))%nat.
    + unfold sample_ps_reduction_destinations in Hps.
      apply bind_ok in Hps. destruct Hps as [dst [wc [_ Hps]]].
      apply bind_ok in Hps. destruct Hps as [ps' [wd [_ Hps]]].
      apply lift_ok in Hps. destruct Hps as [Hps _].
      rewrite assign_ps_as_leaves in Hps.
      eapply assign_leaves_frame; [|exact Hps].
      intros leaf leaf'. apply assign_ps_leaf_frame.
    + unfold ret in Hps. injection Hps as <- _.
      apply Forall2_refl. apply frame_node_refl.
  - destruct (0 <? List.length (ar_shards pools))%nat.
    + unfold sample_ar_groups in Har.
      apply bind_ok in Har. destruct Har as [c [wc [_ Har]]].
      apply bind_ok in Har. destruct Har as [g [wd [_ Har]]].
      apply bind_ok in Har. destruct Har as [ar' [we [_ Har]]].
      apply lift_ok in Har. destruct Har as [Har _].
      rewrite assign_ar_as_leaves in Har.
      eapply assign_leaves_frame; [|exact Har].
      intros leaf leaf'. apply assign_ar_leaf_frame.
    + unfold ret in Har. injection Har as <- _.
      apply Forall2_refl. apply frame_node_refl.
Qed.

Lemma Forall2_nth_error_l {A B} (R : A -> B -> Prop) (l : list A) (l' : list B) :
  Forall2 R l l' ->
  forall i x, nth_error l i = Some x ->
              exists y, nth_error l' i = Some y /\ R x y.
Proof.
  clear. induction 1 as [|a b l l' Hab _ IH]; intros i x Hi.
  - destruct i; discriminate.
  - destruct i as [|i]; simpl in Hi |- *.
    + injection Hi as <-. exists b. split; [reflexivity | assumption].
    + apply IH. assumption.
Qed.

(** X15. The nodes of a returned strategy follow the variables of the
    model one for one and in order, each under its variable's name, and
    the replicas are the GPU devices of the cluster. Each node follows the
    decisions of the run: for the variable at any position, take the world
    the loop of [build] has reached over the variables before it, with
    the variable's helper recorded; if the partition decision returned in
    that world is falsy the node has no partitioner and no shards;
    otherwise its partitioner is the string of the configuration the
    partition-config stage returns in the world the decision left, and its
    shards, in index order, are named [<op name>/part_<i>:0] for [i] from
    0 to the shard count of that configuration. *)
Theorem build_nodes_in_order (space : Space.t) (heuristics : Heuristics.t)
    (graph_item : list Var) (resource_spec : ResourceSpec.t) (w w' : World)
    (expr : Strategy) :
  build space heuristics graph_item resource_spec w = (Ok expr, w') ->
  replicas expr = ResourceSpec.gpu_devices resource_spec /\
  map var_name (node_config expr) = map name graph_item /\
  forall before v after,
    graph_item = before ++ v :: after ->
    exists nodes_before wk node,
      foldM (build_var space heuristics resource_spec) before [] w
      = (Ok nodes_before, wk) /\
      nth_error (node_config expr) (List.length before) = Some node /\
      node_built_at space heuristics resource_spec
        (snd (set_helper (name v) (VarH (mkVariableHelper v)) wk)) v node.
Proof.
  intros H. pose proof (build_built _ _ _ _ _ _ _ H) as [Hr Hn].
  split; [assumption|]. split.
  { clear -Hn. induction Hn as [|v node vs nodes Hv _ IH]; [reflexivity|].
    simpl. destruct Hv as [Hv _]. congruence. }
  clear Hr Hn. intros before v after Hsplit. subst graph_item.
  unfold build in H.
  apply bind_ok in H. destruct H as [nc0 [w0 [Hvars H]]].
  apply bind_ok in H. destruct H as [hs [w1 [_ H]]].
  apply bind_ok in H. destruct H as [nc [w2 [Hstage H]]].
  apply bind_ok in H. destruct H as [u [w3 [_ H]]].
  unfold ret in H. injection H as <- _. cbn [node_config].
  rewrite foldM_app in Hvars.
  apply bind_ok in Hvars. destruct Hvars as [nodes_before [wk [Hbefore Hvars]]].
  cbn [foldM] in Hvars.
  apply bind_ok in Hvars. destruct Hvars as [nc1 [wm [Hv Hafter]]].
  apply build_var_built_at in Hv. destruct Hv as [node [-> Hnode]].
  pose proof (build_vars_built _ _ _ _ _ _ _ _ Hbefore) as [nodes [Hnb Hlen]].
  cbn [app] in Hnb. subst nodes_before.
  apply Forall2_length in Hlen.
  apply build_vars_built in Hafter. destruct Hafter as [more [-> _]].
  assert (Hnth : nth_error ((nodes ++ [node]) ++ more) (List.length before)
                 = Some node).
  { rewrite <- app_assoc. rewrite nth_error_app2 by lia.
    rewrite Hlen, Nat.sub_diag. reflexivity. }
  apply sample_group_and_reduction_destinations_frame in Hstage.
  destruct (Forall2_nth_error_l _ _ _ Hstage _ _ Hnth) as [node' [Hnth' Hframe]].
  exists nodes, wk, node'. split; [assumption|]. split; [assumption|].
  eapply frame_node_built_at; eassumption.
Qed.

(* =================================================================== *)
(** * The pools of the post-assignment stage                            *)
(* =================================================================== *)

Lemma dict_keys_set_cases {V} (d : dict V) (k : string) (v : V) :
  (In k (dict_keys d) /\ dict_keys (dict_set d k v) = dict_keys d) \/
  (~ In k (dict_keys d) /\ dict_keys (dict_set d k v) = dict_keys d ++ [k]).
Proof.
  clear. unfold dict_keys. induction d as [|[k0 v0] d IH]; simpl.
  - right. split; [tauto | reflexivity].
  - destruct (String.eqb_spec k k0) as [->|Hne]; simpl.
    + left. split; [left; reflexivity | reflexivity].
    + destruct IH as [[Hin Heq] | [Hnin Heq]].
      * left. split; [right; assumption | congruence].
      * right. split; [|congruence]. intros [Hk | Hk]; [congruence | contradiction].
Qed.

Lemma dict_set_NoDup {V} (d : dict V) (k : string) (v : V) :
  NoDup (dict_keys d) -> NoDup (dict_keys (dict_set d k v)).
Proof.
  intros Hnd. destruct (dict_keys_set_cases d k v) as [[_ ->] | [Hnin ->]];
    [assumption|].
  apply NoDup_app; [assumption | constructor; [intros [] | constructor] |].
  intros x Hx [<- | []]. contradiction.
Qed.

Lemma classify_leaf_pools (st st' : Pools) (leaf : Node) :
  classify_leaf st leaf = Ok st' ->
  pools_ok st ->
  pools_ok st' /\ idx st' = S (idx st) /\
  (forall k, In k (dict_keys (ps_shards st')) <->
             In k (dict_keys (ps_shards st)) \/ (is_PS leaf /\ var_name leaf = k)) /\
  (forall k, In k (dict_keys (ar_shards st')) <->
             In k (dict_keys (ar_shards st)) \/ (is_AR leaf /\ var_name leaf = k)).
Proof.
  unfold classify_leaf, which_synchronizer, pools_ok, is_PS, is_AR.
  intros H (Hps & Har & Hips & Hiar).
  destruct (synchronizer leaf) as [|s|s] eqn:Es; simpl in H; [discriminate| |];
    injection H as <-; cbn [ps_shards ar_shards idx].
  - split; [|split; [reflexivity|split]].
    + split; [apply dict_set_NoDup; assumption|]. split; [assumption|]. split.
      * intros k i Hk. apply dict_get_set in Hk.
        destruct Hk as [[_ ->] | Hk]; [lia | specialize (Hips k i Hk); lia].
      * intros k i Hk. specialize (Hiar k i Hk). lia.
    + intros k. rewrite dict_keys_set. split.
      * intros [-> | Hk]; [right; eauto | left; assumption].
      * intros [Hk | [_ <-]]; auto.
    + intros k. split; [auto|]. intros [Hk | [[s' Hs'] _]];
        [assumption | discriminate].
  - split; [|split; [reflexivity|split]].
    + split; [assumption|]. split; [apply dict_set_NoDup; assumption|]. split.
      * intros k i Hk. specialize (Hips k i Hk). lia.
      * intros k i Hk. apply dict_get_set in Hk.
        destruct Hk as [[_ ->] | Hk]; [lia | specialize (Hiar k i Hk); lia].
    + intros k. split; [auto|]. intros [Hk | [[s' Hs'] _]];
        [assumption | discriminate].
    + intros k. rewrite dict_keys_set. split.
      * intros [-> | Hk]; [right; eauto | left; assumption].
      * intros [Hk | [_ <-]]; auto.
Qed.

Lemma classify_leaves_pools (ls : list Node) :
  forall st st',
    rfold classify_leaf ls st = Ok st' ->
    pools_ok st ->
    pools_ok st' /\ idx st' = (idx st + List.length ls)%nat /\
    (forall k, In k (dict_keys (ps_shards st')) <->
               In k (dict_keys (ps_shards st))
               \/ exists leaf, In leaf ls /\ is_PS leaf /\ var_name leaf = k) /\
    (forall k, In k (dict_keys (ar_shards st')) <->
               In k (dict_keys (ar_shards st))
               \/ exists leaf, In leaf ls /\ is_AR leaf /\ var_name leaf = k).
Proof.
  induction ls as [|leaf ls IH]; intros st st' H Hok; simpl in H.
  - injection H as <-. split; [assumption|]. split; [simpl; lia|].
    split; intros k; (split; [auto|]); intros [Hk | [leaf [[] _]]]; assumption.
  - apply rbind_ok in H. destruct H as [st1 [H1 H]].
    destruct (classify_leaf_pools _ _ _ H1 Hok) as (Hok1 & Hidx1 & Hps1 & Har1).
    destruct (IH _ _ H Hok1) as (Hok' & Hidx' & Hps' & Har').
    split; [assumption|]. split; [simpl; lia|]. split; intros k.
    + rewrite Hps', Hps1. split.
      * intros [[Hk | [Hp Hn]] | [l [Hin Hl]]]; auto.
        -- right. exists leaf. split; [left; reflexivity | auto].
        -- right. exists l. split; [right; assumption | assumption].
      * intros [Hk | [l [[<- | Hin] Hl]]]; auto.
        right. exists l. auto.
    + rewrite Har', Har1. split.
      * intros [[Hk | [Hp Hn]] | [l [Hin Hl]]]; auto.
        -- right. exists leaf. split; [left; reflexivity | auto].
        -- right. exists l. split; [right; assumption | assumption].
      * intros [Hk | [l [[<- | Hin] Hl]]]; auto.
        right. exists l. auto.
Qed.

Lemma classify_leaves_raise (ls : list Node) :
  forall st e,
    rfold classify_leaf ls st = Raise e ->
    e = TypeError /\ exists leaf, In leaf ls /\ synchronizer leaf = NoSynchronizer.
Proof.
  induction ls as [|leaf ls IH]; intros st e H; simpl in H; [discriminate|].
  destruct (classify_leaf st leaf) as [st1|e1] eqn:E; simpl in H.
  - destruct (IH _ _ H) as [He [l [Hin Hl]]]. split; [assumption|].
    exists l. split; [right; assumption | assumption].
  - injection H as ->. unfold classify_leaf, which_synchronizer in E.
    destruct (synchronizer leaf) eqn:Es; simpl in E; try discriminate.
    injection E as <-. split; [reflexivity|]. exists leaf.
    split; [left; reflexivity | assumption].
Qed.

(** X16. The classification loop of the post-assignment stage: it fails,
    with a [TypeError], exactly when some leaf record has no synchronizer
    set; otherwise the running index ends at the number of leaf records,
    the centralized pool holds exactly the names of the centralized leaf
    records and the decentralized pool those of the decentralized ones,
    each name once however many records bear it, and every index recorded
    is that of a leaf record. *)
Theorem classify_pools (node_config : list Node) :
  match rfold classify_node node_config (mkPools [] [] 0) with
  | Ok pools =>
      idx pools = List.length (leaves node_config) /\
      NoDup (dict_keys (ps_shards pools)) /\
      NoDup (dict_keys (ar_shards pools)) /\
      (forall k, In k (dict_keys (ps_shards pools)) <->
                 exists leaf, In leaf (leaves node_config) /\
                              is_PS leaf /\ var_name leaf = k) /\
      (forall k, In k (dict_keys (ar_shards pools)) <->
                 exists leaf, In leaf (leaves node_config) /\
                              is_AR leaf /\ var_name leaf = k) /\
      (forall k i, dict_get (ps_shards pools) k = Some i ->
                   (i < List.length (leaves node_config))%nat) /\
      (forall k i, dict_get (ar_shards pools) k = Some i ->
                   (i < List.length (leaves node_config))%nat) /\
      Forall (fun leaf => synchronizer leaf <> NoSynchronizer) (leaves node_config)
  | Raise e =>
      e = TypeError /\
      exists leaf, In leaf (leaves node_config) /\
                   synchronizer leaf = NoSynchronizer
  end.
Proof.
  rewrite classify_by_leaves.
  destruct (rfold classify_leaf (leaves node_config) (mkPools [] [] 0))
    as [pools|e] eqn:E.
  - assert (Hok : pools_ok (mkPools [] [] 0)).
    { unfold pools_ok; cbn. repeat split; try constructor; discriminate. }
    destruct (classify_leaves_pools _ _ _ E Hok)
      as ((Hps & Har & Hips & Hiar) & Hidx & Hkps & Hkar).
    cbn [idx ps_shards ar_shards dict_keys map] in *.
    assert (Hi : idx pools = List.length (leaves node_config)) by lia.
    split; [assumption|]. split; [assumption|]. split; [assumption|].
    split; [|split; [|split; [|split]]].
    + intros k. rewrite Hkps. split; [intros [[] | H]; exact H | auto].
    + intros k. rewrite Hkar. split; [intros [[] | H]; exact H | auto].
    + intros k i Hk. rewrite <- Hi. eapply Hips. eassumption.
    + intros k i Hk. rewrite <- Hi. eapply Hiar. eassumption.
    + apply classify_leaves_ok in E. destruct E as [Hall _].
      eapply Forall_impl; [|exact Hall]. intros leaf Hp. unfold pooled in Hp.
      destruct (synchronizer leaf); [contradiction | discriminate | discriminate].
  - eapply classify_leaves_raise. eassumption.
Qed.

(* =================================================================== *)
(** * The helpers recorded by the loop of build                         *)
(* =================================================================== *)

Lemma leaves_app (l1 l2 : list Node) : leaves (l1 ++ l2) = leaves l1 ++ leaves l2.
Proof. unfold leaves. apply flat_map_app. Qed.

Lemma build_var_covers (space : Space.t) (heuristics : Heuristics.t)
    (resource_spec : ResourceSpec.t) (node_config : list Node) (v : Var)
    (w w' : World) (node_config' : list Node) :
  build_var space heuristics resource_spec node_config v w = (Ok node_config', w') ->
  exists node,
    node_config' = node_config ++ [node] /\
    Forall (has_helper w') (leaves_of node).
Proof.
  unfold build_var, has_helper. intros H.
  apply bind_ok in H. destruct H as [u [w0 [Hset H]]].
  unfold set_helper in Hset. injection Hset as _ <-.
  apply bind_ok in H. destruct H as [mp [w1 [Hmp H]]].
  apply kh_sample_if_partition in Hmp. cbn [helpers var] in Hmp.
  apply bind_ok in H. destruct H as [node [w2 [Hnode H]]].
  unfold ret in H. injection H as <- <-.
  exists node. split; [reflexivity|].
  assert (Hv : In (name v) (dict_keys (helpers w1)))
    by (rewrite Hmp; apply dict_keys_set; left; reflexivity).
  destruct (negb (truthy mp)).
  - pose proof (kh_sample_var_synchronizer _ _ _ _ _ _ _ Hnode) as Hh.
    apply sample_var_synchronizer_kept in Hnode. destruct Hnode as [Hn [Hp _]].
    unfold leaves_of. rewrite Hp. cbn.
    constructor; [|constructor]. rewrite Hn, Hh. exact Hv.
  - apply bind_ok in Hnode. destruct Hnode as [c [w3 [Hc Hnode]]].
    apply kh_sample_partition_config in Hc.
    apply bind_ok in Hnode. destruct Hnode as [parts [w4 [Hparts Hnode]]].
    apply bind_ok in Hnode. destruct Hnode as [parts' [w5 [Hsync Hnode]]].
    unfold ret in Hnode. injection Hnode as <- <-.
    destruct (new_parts_loop v c (range (num_shards c)) [] w3)
      as [w4' [Hloop [_ Hkeys]]].
    pose proof (eq_trans (eq_sym Hloop) Hparts) as Heq.
    injection Heq as <- <-.
    pose proof (kh_sample_parts_synchronizers _ _ _ _ _ _ _ _ Hsync) as Hh.
    apply sample_parts_synchronizers_names in Hsync.
    unfold leaves_of.
    cbn [partitioner part_config var_name with_part_config with_partitioner
           with_var_name new_Node app].
    destruct (str_truthy (partition_str c)).
    + apply Forall_forall. intros leaf Hleaf.
      rewrite Hh. apply Hkeys. right.
      cbn [app] in Hsync. rewrite map_map in Hsync. cbn [var_name with_var_name] in Hsync.
      assert (Hin : In (var_name leaf) (map var_name parts'))
        by (apply in_map; assumption).
      rewrite Hsync in Hin. exact Hin.
    + constructor; [|constructor]. cbn [var_name].
      rewrite Hh. apply Hkeys. left. rewrite Hc. exact Hv.
Qed.

(** X17. When the loop of [build] over the variables is through, the
    helpers dict holds an entry under the name of every leaf record made
    so far, unpartitioned node or shard: the dict the post-assignment
    stage hands to the load balancers and group assigners has a helper for
    every record of the two pools. *)
Theorem build_loop_records_helpers (space : Space.t) (heuristics : Heuristics.t)
    (resource_spec : ResourceSpec.t) (graph_item : list Var) :
  forall node_config w node_config' w',
    foldM (build_var space heuristics resource_spec) graph_item node_config w
    = (Ok node_config', w') ->
    Forall (has_helper w) (leaves node_config) ->
    Forall (has_helper w') (leaves node_config').
Proof.
  induction graph_item as [|v rest IH]; intros nc w nc' w' H Hcov; simpl in H.
  - unfold ret in H. injection H as <- <-. assumption.
  - apply bind_ok in H. destruct H as [nc1 [w1 [Hv H]]].
    eapply IH; [eassumption|].
    pose proof (build_var_records _ _ _ _ _ _ _ _ Hv) as [_ Hgrow].
    apply build_var_covers in Hv. destruct Hv as [node [-> Hnode]].
    rewrite leaves_app. apply Forall_app. split.
    + eapply Forall_impl; [|exact Hcov]. intros leaf Hl. apply Hgrow. exact Hl.
    + unfold leaves. cbn [flat_map]. rewrite app_nil_r. assumption.
Qed.

(* =================================================================== *)
(** * The names of the shards                                           *)
(* =================================================================== *)

Lemma string_append_inv_head (p x y : string) :
  (p ++ x)%string = (p ++ y)%string -> x = y.
Proof.
  induction p as [|c p IH]; simpl; [auto|]. intros H. injection H as H. auto.
Qed.

Lemma string_length_append (x y : string) :
  String.length (x ++ y) = (String.length x + String.length y)%nat.
Proof. induction x as [|c x IH]; simpl; [reflexivity | rewrite IH; reflexivity]. Qed.

Lemma string_append_inv_tail (t : string) :
  forall x y, (x ++ t)%string = (y ++ t)%string -> x = y.
Proof.
  induction x as [|c x IH]; intros [|d y] H; simpl in H.
  - reflexivity.
  - exfalso. apply (f_equal String.length) in H. simpl in H.
    rewrite string_length_append in H. lia.
  - exfalso. apply (f_equal String.length) in H. simpl in H.
    rewrite string_length_append in H. lia.
  - injection H as -> H. f_equal. apply IH. assumption.
Qed.

Lemma to_int_not_nil (z : Z) :
  Z.to_int z <> Decimal.Pos Decimal.Nil /\ Z.to_int z <> Decimal.Neg Decimal.Nil.
Proof.
  destruct z as [|p|p]; simpl; split; try discriminate; intros H;
    injection H as H; exact (Unsigned.to_uint_nonnil p H).
Qed.

Lemma str_of_Z_inj (a b : Z) : str_of_Z a = str_of_Z b -> a = b.
Proof.
  unfold str_of_Z. intros H.
  apply (f_equal NilZero.int_of_string) in H.
  destruct (to_int_not_nil a) as [Ha1 Ha2], (to_int_not_nil b) as [Hb1 Hb2].
  rewrite !NilZero.isi in H by assumption.
  injection H as H. apply DecimalZ.to_int_inj. assumption.
Qed.

(** X18. The names given to the shards of one variable,
    [<op name>/part_<i>:0], are different for different indices, so the
    shards of a variable are recorded under pairwise distinct names, in
    the node and in the helpers dict. *)
Theorem part_names_distinct (v : Var) :
  (forall i j, part_name v i = part_name v j -> i = j) /\
  (forall n, NoDup (map (part_name v) (range n))).
Proof.
  assert (Hinj : forall i j, part_name v i = part_name v j -> i = j).
  { intros i j H. unfold part_name in H.
    apply string_append_inv_head in H. apply string_append_inv_head in H.
    apply string_append_inv_tail in H. apply str_of_Z_inj. assumption. }
  split; [exact Hinj|].
  intros n. unfold range. rewrite map_map.
  assert (Hseq : forall k m, NoDup (map (fun x => part_name v (Z.of_nat x)) (seq k m))).
  { intros k m. revert k. induction m as [|m IH]; intros k; simpl; constructor.
    - intros Hin. apply in_map_iff in Hin. destruct Hin as [x [Hx Hs]].
      apply Hinj in Hx. apply in_seq in Hs. lia.
    - apply IH. }
  apply Hseq.
Qed.

(* =================================================================== *)
(** * Grouping with no merge scheme configured                          *)
(* =================================================================== *)

(** The pairs [attach] makes hold, under each name, the value the dict of
    values holds under that name. *)
Lemma attach_lookup {V} (shards : dict nat) (values : dict V)
    (attached : dict (nat * V)) :
  attach shards values = Ok attached ->
  forall k i v, dict_get attached k = Some (i, v) -> dict_get values k = Some v.
Proof.
  clear. intros H. unfold attach in H. apply rmap_ok_Forall2 in H.
  induction H as [|x y l l' Hxy _ IH]; intros k i v Hget; [discriminate|].
  destruct (dict_get values (fst x)) as [v0|] eqn:E; [|discriminate].
  injection Hxy as <-. cbn [dict_get] in Hget.
  destruct (String.eqb_spec k (fst x)) as [->|Hne].
  - injection Hget as _ <-. assumption.
  - eapply IH. eassumption.
Qed.

Lemma assign_ar_leaf_group_written (group_assignments : dict Z)
    (ar : dict (nat * Z)) (leaf leaf' : Node) :
  (forall k i v, dict_get ar k = Some (i, v) ->
                 dict_get group_assignments k = Some v) ->
  assign_ar_leaf ar leaf = Ok leaf' ->
  partitioner leaf' = partitioner leaf /\
  group_written_from group_assignments leaf leaf'.
Proof.
  clear. intros Hg. unfold assign_ar_leaf, which_synchronizer, group_written_from.
  destruct (synchronizer leaf) as [|s|s] eqn:Es; simpl; [discriminate| |].
  - intros H; injection H as <-. split; reflexivity.
  - destruct (dict_get ar (var_name leaf)) as [[i g]|] eqn:E; [|discriminate].
    intros H; injection H as <-. split; [reflexivity|].
    exists g. split; [eapply Hg; eassumption | reflexivity].
Qed.

(** C10. With no merge scheme configured, the decentralized pool is
    grouped by the very computation the ['random'] scheme runs, and the
    configured chunk size has no part in it: the number of groups is the
    uniform choice over the integers from [max(1, lower)] to
    [min(pool size, upper)] (and must be positive), every record of the
    pool is given one of the groups [0 .. count - 1], each drawn on its
    own, and when the call returns every decentralized leaf record
    carries the group drawn for its name in that very run, the other
    fields and the centralized records being as they were. *)
Theorem no_scheme_groups_as_random (heuristics : Heuristics.t) :
  Heuristics.merge_scheme heuristics = None ->
  (forall node_config ar helpers0 w,
      sample_ar_groups node_config ar helpers0 heuristics w
      = sample_ar_groups node_config ar helpers0
          (with_merge_scheme heuristics (Some "random"%string)) w) /\
  (forall node_config ar helpers0 c w,
      sample_ar_groups node_config ar helpers0 (with_chunk_size heuristics c) w
      = sample_ar_groups node_config ar helpers0 heuristics w) /\
  (forall ar w,
      resolve_chunk_size_or_num_group ar heuristics w
      = bind (sample_util.uniform_sample_by_choices
                (range2 (Z.max 1 (fst (Heuristics.num_group_bounds heuristics)))
                        (Z.min (Z.of_nat (List.length ar))
                               (snd (Heuristics.num_group_bounds heuristics)) + 1)))
             (fun k => if 0 <? k then ret k else raise AssertionError) w) /\
  (forall ar w w' k,
      resolve_chunk_size_or_num_group ar heuristics w = (Ok k, w') ->
      Z.max 1 (fst (Heuristics.num_group_bounds heuristics)) <= k
      <= Z.min (Z.of_nat (List.length ar))
               (snd (Heuristics.num_group_bounds heuristics))) /\
  (forall ar helpers0 k w,
      group_assignments_of ar helpers0 heuristics k w
      = bind (sample_util.sample_merge_group k (List.length ar))
             (fun tmp_assignments =>
                ret (fold_left (fun (acc : dict Z) (e : string * Z) =>
                                  dict_set acc (fst e) (snd e))
                               (combine (dict_keys ar) tmp_assignments) [])) w) /\
  (forall ar helpers0 k w w' g,
      group_assignments_of ar helpers0 heuristics k w = (Ok g, w') ->
      (forall name, In name (dict_keys ar) -> In name (dict_keys g)) /\
      (forall name v, dict_get g name = Some v -> 0 <= v < k)) /\
  (forall node_config ar helpers0 w w' node_config',
      sample_ar_groups node_config ar helpers0 heuristics w
      = (Ok node_config', w') ->
      exists k w1 tmp_assignments,
        sample_util.uniform_sample_by_choices
          (range2 (Z.max 1 (fst (Heuristics.num_group_bounds heuristics)))
                  (Z.min (Z.of_nat (List.length ar))
                         (snd (Heuristics.num_group_bounds heuristics)) + 1)) w
        = (Ok k, w1) /\
        sample_util.sample_merge_group k (List.length ar) w1
        = (Ok tmp_assignments, w') /\
        List.length tmp_assignments = List.length ar /\
        Forall (fun g => 0 <= g < k) tmp_assignments /\
        Forall2 (group_written_from
                   (fold_left (fun (acc : dict Z) (e : string * Z) =>
                                 dict_set acc (fst e) (snd e))
                              (combine (dict_keys ar) tmp_assignments) []))
                (leaves node_config) (leaves node_config')).
Proof.
  intros Hnone.
  assert (Hchunk : opt_str_eqb (Heuristics.merge_scheme heuristics) "by_chunk" = false)
    by (rewrite Hnone; reflexivity).
  split; [|split; [|split; [|split; [|split; [|split]]]]].
  - intros. unfold sample_ar_groups, resolve_chunk_size_or_num_group,
      group_assignments_of, with_merge_scheme.
    cbn [Heuristics.merge_scheme Heuristics.chunk_size Heuristics.num_group_bounds].
    rewrite Hnone. reflexivity.
  - intros. unfold sample_ar_groups, resolve_chunk_size_or_num_group,
      group_assignments_of, with_chunk_size.
    cbn [Heuristics.merge_scheme Heuristics.chunk_size Heuristics.num_group_bounds].
    rewrite Hnone. reflexivity.
  - intros. unfold resolve_chunk_size_or_num_group, sample_num_ar_groups.
    rewrite Hnone. reflexivity.
  - intros ar w w' k H. eapply resolve_num_group_range; eassumption.
  - intros. unfold group_assignments_of. rewrite Hnone. reflexivity.
  - intros ar helpers0 k w w' g H.
    eapply random_group_assignments; [|eassumption]. rewrite Hnone. reflexivity.
  - intros node_config ar helpers0 w w' node_config' H.
    unfold sample_ar_groups in H.
    apply bind_ok in H. destruct H as [k [w1 [Hk H]]].
    apply bind_ok in H. destruct H as [g [w2 [Hg H]]].
    apply bind_ok in H. destruct H as [ar' [w3 [Hatt H]]].
    apply lift_ok in Hatt. destruct Hatt as [Hatt ->].
    apply lift_ok in H. destruct H as [H ->].
    unfold resolve_chunk_size_or_num_group, sample_num_ar_groups in Hk.
    rewrite Hnone in Hk. cbn [opt_str_eqb] in Hk.
    apply bind_ok in Hk. destruct Hk as [k0 [w0 [Hk0 Hk]]].
    destruct (0 <? k0); [|discriminate].
    unfold ret in Hk. injection Hk as -> ->.
    unfold group_assignments_of in Hg. rewrite Hnone in Hg.
    cbn [opt_str_eqb orb] in Hg.
    apply bind_ok in Hg. destruct Hg as [tmp [w4 [Htmp Hg]]].
    unfold ret in Hg. injection Hg as <- ->.
    exists k, w1, tmp. split; [exact Hk0|]. split; [exact Htmp|].
    destruct (sample_merge_group_ok _ _ _ _ _ Htmp) as [Hlen Hall].
    split; [exact Hlen|]. split; [exact Hall|].
    rewrite assign_ar_as_leaves in H.
    eapply assign_leaves_Forall2; [|exact H].
    intros leaf leaf'. apply assign_ar_leaf_group_written.
    apply (attach_lookup _ _ _ Hatt).
Qed.

End Sampler.

(* ===================================================================== *)
(** * The properties at sample inputs                                     *)
(* ===================================================================== *)

Lemma part_shapes_split_witness :
  (forall i, 0 <= i < 3 ->
     exists s,
       PartHelper.shape (mkPartHelper i embedding three_way) = Ok s /\
       nth_error s 0 = Some (10 / 3 + (if i <? 10 mod 3 then 1 else 0)) /\
       List.length s = 2%nat /\
       forall j, j <> 0%nat -> nth_error s j = nth_error [10; 8] j) /\
  (exists extents,
      rmap part_extent (part_helpers embedding three_way) = Ok extents /\
      Zsum extents = 10) /\
  (exists sizes,
      rmap PartHelper.byte_size (part_helpers embedding three_way) = Ok sizes /\
      (Qsum sizes == inject_Z 320)%Q).
Proof.
  apply (part_shapes_split embedding three_way 10).
  - reflexivity.
  - cbn. lia.
Defined.

(** The sample load balancer and group assigner meet what is asked of the
    ones called by name. *)
Lemma first_device_balancer_uses_given_devices :
  uses_given_devices first_device_balancer.
Proof.
  intros ps rs hs b d H name dev Hget. unfold first_device_balancer in H.
  destruct (ResourceSpec.cpu_devices rs) as [|d0 ds]; [discriminate|].
  injection H as <-. apply dict_get_In in Hget. apply in_map_iff in Hget.
  destruct Hget as [e [He _]]. injection He as _ <-. left. reflexivity.
Qed.

Lemma one_group_assigner_groups_below_count :
  groups_below_count one_group_assigner.
Proof.
  intros ar hs k g Hk H name v Hget. unfold one_group_assigner in H.
  injection H as <-. apply dict_get_In in Hget. apply in_map_iff in Hget.
  destruct Hget as [e [He _]]. injection He as _ <-. lia.
Qed.

Lemma build_leaves_assigned_witness :
  uses_given_devices first_device_balancer /\
  groups_below_count one_group_assigner /\
  exists expr w',
    build op_name_of VariableHelper.getattr_partitionable_axis
      first_device_balancer first_device_balancer
      one_group_assigner one_group_assigner
      default_space single_node_heuristics [kernel; embedding]
      one_node fresh_world = (Ok expr, w') /\
    exists node_config0 w0 pools node_config1 w1 count,
      foldM (build_var op_name_of VariableHelper.getattr_partitionable_axis
               default_space single_node_heuristics one_node)
            [kernel; embedding] [] fresh_world
      = (Ok node_config0, w0) /\
      rfold classify_node node_config0 (mkPools [] [] 0) = Ok pools /\
      (if (0 <? List.length (ps_shards pools))%nat
       then sample_ps_reduction_destinations
              first_device_balancer first_device_balancer
              node_config0 (ps_shards pools) one_node (helpers w0)
              single_node_heuristics
       else ret node_config0) w0 = (Ok node_config1, w1) /\
      rfold classify_node (node_config expr) (mkPools [] [] 0) = Ok pools /\
      Forall (leaf_assigned one_node count) (leaves (node_config expr)) /\
      (ar_shards pools <> [] ->
       exists c w2,
         resolve_chunk_size_or_num_group (ar_shards pools) single_node_heuristics w1
         = (Ok c, w2) /\
         count = group_count single_node_heuristics c (List.length (ar_shards pools))).
Proof.
  split; [exact first_device_balancer_uses_given_devices|].
  split; [exact one_group_assigner_groups_below_count|].
  eexists. eexists. split; [vm_compute; reflexivity|].
  eapply (build_leaves_assigned op_name_of VariableHelper.getattr_partitionable_axis
            first_device_balancer first_device_balancer
            one_group_assigner one_group_assigner
            first_device_balancer_uses_given_devices
            first_device_balancer_uses_given_devices
            one_group_assigner_groups_below_count
            one_group_assigner_groups_below_count
            default_space single_node_heuristics [kernel; embedding] one_node
            fresh_world).
  vm_compute. reflexivity.
Defined.

Lemma sparse_always_PS_witness :
  VariableHelper.var_type (mkVariableHelper embedding) = SPARSE /\
  (forall node w,
      match sample_var_synchronizer node (mkVariableHelper embedding) two_nodes
              default_space w with
      | (Ok node', _) => is_PS node'
      | (Raise e, _) =>
          e = ConfigurationError /\ Space.local_replication default_space = [] /\
          ResourceSpec.num_cpus two_nodes < ResourceSpec.num_gpus two_nodes
      end) /\
  (forall parts w,
      match sample_parts_synchronizers parts (mkVariableHelper embedding) two_nodes
              default_space default_heuristics w with
      | (Ok parts', _) => List.length parts' = List.length parts /\ Forall is_PS parts'
      | (Raise e, _) =>
          e = ConfigurationError /\ Space.local_replication default_space = [] /\
          ResourceSpec.num_cpus two_nodes < ResourceSpec.num_gpus two_nodes
      end).
Proof.
  split; [reflexivity|].
  apply (sparse_always_PS (mkVariableHelper embedding) two_nodes default_space
           default_heuristics).
  reflexivity.
Defined.

Lemma sample_if_partition_singleton_witness :
  Space.maybe_partition never_partition_space = [false] /\
  sample_if_partition VariableHelper.getattr_partitionable_axis
    (mkVariableHelper kernel) two_nodes never_partition_space default_heuristics
    fresh_world
  = (Ok (PyBoolList [false]), fresh_world) /\
  truthy (PyBoolList [false]) = true.
Proof.
  split; [reflexivity|].
  apply (sample_if_partition_singleton VariableHelper.getattr_partitionable_axis
           (mkVariableHelper kernel) two_nodes never_partition_space
           default_heuristics false fresh_world).
  reflexivity.
Defined.

(** With sharding forced off by the one-element list [[False]], [build]
    takes the sharding branch all the same: on a helper class that has the
    attribute every parameter comes out partitioned, on the class as written
    the call fails in the partition-config stage. *)
Example build_shards_when_forced_off :
  (exists expr w',
      build op_name_of aliased_partitionable_axis
        first_device_balancer first_device_balancer
        one_group_assigner one_group_assigner
        never_partition_space default_heuristics
        [kernel; embedding] two_nodes fresh_world = (Ok expr, w') /\
      map partitioner (node_config expr) = ["1,3"; "2,1"]%string /\
      map (fun n => List.length (part_config n)) (node_config expr) = [3; 2]%nat) /\
  fst (build op_name_of VariableHelper.getattr_partitionable_axis
      first_device_balancer first_device_balancer
      one_group_assigner one_group_assigner
      never_partition_space default_heuristics
         [kernel; embedding] two_nodes fresh_world)
  = Raise AttributeError.
Proof.
  split; [|vm_compute; reflexivity].
  eexists. eexists. split; [vm_compute; reflexivity|].
  split; vm_compute; reflexivity.
Qed.

Lemma sample_if_partition_at_bounds_witness :
  List.length (Space.maybe_partition default_space) <> 1%nat /\
  aliased_partitionable_axis (mkVariableHelper kernel) = Ok [0; 1]%nat /\
  aliased_partitionable_axis (mkVariableHelper embedding) = Ok [0%nat] /\
  (VariableHelper.byte_size (mkVariableHelper kernel)
   <= fst (Heuristics.maybe_partition_bounds threshold_heuristics))%Q /\
  (fst (Heuristics.maybe_partition_bounds threshold_heuristics)
   < snd (Heuristics.maybe_partition_bounds threshold_heuristics))%Q /\
  (snd (Heuristics.maybe_partition_bounds threshold_heuristics)
   <= VariableHelper.byte_size (mkVariableHelper embedding))%Q /\
  sample_if_partition aliased_partitionable_axis (mkVariableHelper kernel)
    two_nodes default_space threshold_heuristics fresh_world
  = (Ok (PyBool false), fresh_world) /\
  sample_if_partition aliased_partitionable_axis (mkVariableHelper embedding)
    two_nodes default_space threshold_heuristics fresh_world
  = (Ok (PyBool true), fresh_world).
Proof.
  split; [discriminate|]. split; [reflexivity|]. split; [reflexivity|].
  split; [discriminate|]. split; [reflexivity|]. split; [discriminate|].
  split.
  - apply (proj1 (sample_if_partition_at_bounds aliased_partitionable_axis
                    (mkVariableHelper kernel) two_nodes default_space
                    threshold_heuristics [0; 1]%nat fresh_world
                    ltac:(discriminate) eq_refl eq_refl ltac:(discriminate)
                    (or_introl eq_refl))).
    discriminate.
  - apply (proj1 (proj2 (sample_if_partition_at_bounds aliased_partitionable_axis
                    (mkVariableHelper embedding) two_nodes default_space
                    threshold_heuristics [0%nat] fresh_world
                    ltac:(discriminate) eq_refl eq_refl ltac:(discriminate)
                    (or_introl eq_refl)))).
    + reflexivity.
    + discriminate.
Defined.

(** Five shards along an axis of extent 3: the read returns a shape. *)
Lemma PartHelper_shape_unchecked_counterexample :
  nth_error (initial_shape kernel) (axis five_way) = Some 3 /\
  3 < num_shards five_way /\
  PartHelper.shape (mkPartHelper 0 kernel five_way) = Ok [1; 4] /\
  PartHelper.shape (mkPartHelper 4 kernel five_way) = Ok [0; 4] /\
  PartHelper.shape (mkPartHelper 0 kernel five_way) <> Raise ConfigurationError.
Proof.
  repeat split; try reflexivity. discriminate.
Qed.

Lemma PartHelper_shape_unchecked_witness :
  nth_error (initial_shape kernel) (axis five_way) = Some 3 /\
  0 <= 3 < num_shards five_way /\
  PartHelper.shape (mkPartHelper 2 kernel five_way)
  = Ok (list_set (initial_shape kernel) (axis five_way) (if 2 <? 3 then 1 else 0)) /\
  (forall p x, PartHelper.shape p = Raise x ->
               x = IndexError \/ x = ZeroDivisionError) /\
  (forall var_helper resource_spec space heuristics w w' c',
      sample_partition_config aliased_partitionable_axis var_helper resource_spec
        space heuristics w = (Ok c', w') ->
      exists dim,
        nth_error (initial_shape (var var_helper)) (axis c') = Some dim /\
        num_shards c' <= dim).
Proof.
  split; [reflexivity|]. split; [cbn; lia|].
  apply (PartHelper_shape_unchecked aliased_partitionable_axis 2 kernel five_way 3).
  - reflexivity.
  - cbn. lia.
Defined.

Lemma sample_partition_config_lower_sentinel_witness :
  fst (Heuristics.num_partition_bounds sentinel_heuristics) = BStr "num_nodes" /\
  is_ok (fst (sample_partition_config aliased_partitionable_axis
                (mkVariableHelper kernel) two_nodes default_space
                sentinel_heuristics fresh_world)) = false /\
  fst (sample_partition_config aliased_partitionable_axis
         (mkVariableHelper kernel) two_nodes default_space
         sentinel_heuristics fresh_world) = Raise TypeError.
Proof.
  split; [reflexivity|].
  pose proof (sample_partition_config_lower_sentinel aliased_partitionable_axis
                (mkVariableHelper kernel) two_nodes default_space
                sentinel_heuristics fresh_world eq_refl) as [Hnot Htype].
  split; [exact Hnot|].
  apply (Htype [0; 1]%nat [3; 4]).
  - reflexivity.
  - discriminate.
  - discriminate.
  - reflexivity.
  - intros a [<- | [<- | []]]; cbn; lia.
  - intros dim. discriminate.
Defined.

Lemma local_replication_rule_witness :
  (ResourceSpec.num_gpus four_nodes <= ResourceSpec.num_cpus four_nodes /\
   forall local_replication_space w,
     sample_if_local_replication local_replication_space four_nodes w
     = (Ok false, w)) /\
  (ResourceSpec.num_cpus two_nodes < ResourceSpec.num_gpus two_nodes /\
   forall b, In b (Space.local_replication replication_space) ->
     exists r, forall hs,
       sample_if_local_replication (Space.local_replication replication_space)
         two_nodes (mkWorld [r] hs)
       = (Ok b, mkWorld [] hs)).
Proof.
  split.
  - assert (H : ResourceSpec.num_gpus four_nodes <= ResourceSpec.num_cpus four_nodes)
      by (cbn; lia).
    split; [exact H|].
    exact (proj1 (proj1 (local_replication_rule four_nodes) H)).
  - assert (H : ResourceSpec.num_cpus two_nodes < ResourceSpec.num_gpus two_nodes)
      by (cbn; lia).
    split; [exact H|].
    exact (proj2 (proj2 (proj2 (proj2 (local_replication_rule two_nodes) H)))
             (Space.local_replication replication_space)).
Defined.

(** A call that fails in the post-assignment stage, on a load balancer the
    sampler does not know, leaves both helpers in the dict. *)
Lemma build_helpers_counterexample :
  fst (build op_name_of VariableHelper.getattr_partitionable_axis
         first_device_balancer first_device_balancer
         one_group_assigner one_group_assigner
         default_space unknown_balancer_heuristics [kernel; embedding]
         one_node fresh_world)
  = Raise (ValueError "Cannot recognize load balancer") /\
  helpers (snd (build op_name_of VariableHelper.getattr_partitionable_axis
                  first_device_balancer first_device_balancer
                  one_group_assigner one_group_assigner
                  default_space unknown_balancer_heuristics [kernel; embedding]
                  one_node fresh_world))
  = [("dense/kernel:0"%string, VarH (mkVariableHelper kernel));
     ("emb/table:0"%string, VarH (mkVariableHelper embedding))] /\
  helpers (snd (build op_name_of VariableHelper.getattr_partitionable_axis
                  first_device_balancer first_device_balancer
                  one_group_assigner one_group_assigner
                  default_space unknown_balancer_heuristics [kernel; embedding]
                  one_node fresh_world))
  <> [].
Proof.
  split; [vm_compute; reflexivity|]. split; [vm_compute; reflexivity|].
  vm_compute. discriminate.
Qed.

Lemma build_helpers_witness :
  (exists expr w',
      build op_name_of VariableHelper.getattr_partitionable_axis
        first_device_balancer first_device_balancer
        one_group_assigner one_group_assigner
        default_space single_node_heuristics [kernel; embedding]
        one_node fresh_world = (Ok expr, w') /\
      helpers w' = []) /\
  (exists e w',
      build op_name_of VariableHelper.getattr_partitionable_axis
        first_device_balancer first_device_balancer
        one_group_assigner one_group_assigner
        default_space default_heuristics [kernel; embedding]
        two_nodes fresh_world = (Raise e, w') /\
      In (name kernel) (dict_keys (helpers w'))).
Proof.
  split.
  - eexists. eexists. split; [vm_compute; reflexivity|].
    apply (proj1 (build_helpers op_name_of VariableHelper.getattr_partitionable_axis
                    first_device_balancer first_device_balancer
                    one_group_assigner one_group_assigner
                    default_space single_node_heuristics [kernel; embedding]
                    one_node fresh_world)
             (mkStrategy ["gpu:0"; "gpu:1"]%string
                (node_config
                   (get_or (mkStrategy [] [])
                      (fst (build op_name_of VariableHelper.getattr_partitionable_axis
                              first_device_balancer first_device_balancer
                              one_group_assigner one_group_assigner
                              default_space single_node_heuristics
                              [kernel; embedding] one_node fresh_world)))))).
    vm_compute. reflexivity.
  - eexists. eexists. split; [vm_compute; reflexivity|].
    apply (proj2 (build_helpers op_name_of VariableHelper.getattr_partitionable_axis
                    first_device_balancer first_device_balancer
                    one_group_assigner one_group_assigner
                    default_space default_heuristics [kernel; embedding]
                    two_nodes fresh_world) AttributeError).
    vm_compute. reflexivity.
Defined.

Lemma no_scheme_groups_as_random_witness :
  Heuristics.merge_scheme default_heuristics = None /\
  (forall node_config ar helpers0 w,
      sample_ar_groups one_group_assigner one_group_assigner node_config ar
        helpers0 default_heuristics w
      = sample_ar_groups one_group_assigner one_group_assigner node_config ar
          helpers0 (with_merge_scheme default_heuristics (Some "random"%string)) w) /\
  (forall node_config ar helpers0 c w,
      sample_ar_groups one_group_assigner one_group_assigner node_config ar
        helpers0 (with_chunk_size default_heuristics c) w
      = sample_ar_groups one_group_assigner one_group_assigner node_config ar
          helpers0 default_heuristics w) /\
  (forall ar w w' k,
      resolve_chunk_size_or_num_group ar default_heuristics w = (Ok k, w') ->
      Z.max 1 (-1) <= k <= Z.min (Z.of_nat (List.length ar)) MAX_INT32) /\
  exists node_config' w',
    sample_ar_groups one_group_assigner one_group_assigner
      [ps_record; ar_record] [("b:0"%string, 1%nat)] [] default_heuristics
      fresh_world
    = (Ok node_config', w') /\
    exists k w1 tmp_assignments,
      sample_util.uniform_sample_by_choices
        (range2 (Z.max 1 (-1)) (Z.min 1 MAX_INT32 + 1)) fresh_world
      = (Ok k, w1) /\
      sample_util.sample_merge_group k 1 w1 = (Ok tmp_assignments, w') /\
      List.length tmp_assignments = 1%nat /\
      Forall (fun g => 0 <= g < k) tmp_assignments /\
      Forall2 (group_written_from
                 (fold_left (fun (acc : dict Z) (e : string * Z) =>
                               dict_set acc (fst e) (snd e))
                            (combine ["b:0"%string] tmp_assignments) []))
              [ps_record; ar_record] (leaves node_config').
Proof.
  split; [reflexivity|].
  pose proof (no_scheme_groups_as_random one_group_assigner one_group_assigner
                default_heuristics eq_refl)
    as [Hrandom [Hchunk [_ [Hrange [_ [_ Hwritten]]]]]].
  split; [exact Hrandom|]. split; [exact Hchunk|]. split; [exact Hrange|].
  eexists. eexists. split; [vm_compute; reflexivity|].
  eapply (Hwritten [ps_record; ar_record] [("b:0"%string, 1%nat)] []
            fresh_world).
  vm_compute. reflexivity.
Defined.

(** Five decentralized records in chunks of two: groups 0, 0, 1, 1, 2, three
    chunks for a resolved size of two. *)
Example chunk_scenario :
  resolve_chunk_size_or_num_group five_records chunk_heuristics fresh_world
  = (Ok 2, fresh_world) /\
  chunk_group_assigner five_records 2
  = Ok [("a:0", 0); ("b:0", 0); ("c:0", 1); ("d:0", 1); ("e:0", 2)]%string /\
  group_count chunk_heuristics 2 (List.length five_records) = 3.
Proof. repeat split; vm_compute; reflexivity. Qed.

(* ===================================================================== *)
(** * The class [VariableHelper] as written                                *)
(* ===================================================================== *)

(** X19. With the class [VariableHelper] as written, which defines
    [partitionable_axes] while the stages read [partitionable_axis]: a
    strategy [build] returns has no partitioned variable, every node being
    without partitioner and without shards; and for a model with at least
    one variable [build] raises [AttributeError] unless the space lists
    other than one partition outcome, [enable_single_node_no_partition] is
    set and the cluster has at most one CPU device. *)
Theorem build_as_written (get_op_name : string -> string)
    (greedy_load_balancer christy_load_balancer :
       dict nat -> ResourceSpec.t -> dict Helper -> bool -> result (dict string))
    (christy_group_assigner ordered_balanced_group_assigner :
       dict nat -> dict Helper -> Z -> result (dict Z))
    (space : Space.t) (heuristics : Heuristics.t) (graph_item : list Var)
    (resource_spec : ResourceSpec.t) (w : World) :
  (forall expr w',
      build get_op_name VariableHelper.getattr_partitionable_axis
        greedy_load_balancer christy_load_balancer
        christy_group_assigner ordered_balanced_group_assigner
        space heuristics graph_item resource_spec w = (Ok expr, w') ->
      Forall (fun node => partitioner node = EmptyString /\ part_config node = [])
             (node_config expr)) /\
  (graph_item <> [] ->
   ~ (List.length (Space.maybe_partition space) <> 1%nat /\
      Heuristics.enable_single_node_no_partition heuristics = true /\
      (List.length (ResourceSpec.cpu_devices resource_spec) <= 1)%nat) ->
   fst (build get_op_name VariableHelper.getattr_partitionable_axis
          greedy_load_balancer christy_load_balancer
          christy_group_assigner ordered_balanced_group_assigner
          space heuristics graph_item resource_spec w)
   = Raise AttributeError).
Proof.
  split.
  - intros expr w' H. apply build_built in H. destruct H as [_ H].
    induction H as [|v node vs nodes Hv _ IH]; constructor; [|exact IH].
    destruct Hv as [_ [mp [w0 [w1 [_ Hv]]]]].
    destruct (truthy mp); [|exact Hv].
    destruct Hv as [c [w2 [w3 [Hc _]]]].
    rewrite (sample_partition_config_attribute_raises
               VariableHelper.getattr_partitionable_axis (mkVariableHelper v)
               resource_spec space heuristics AttributeError w2 eq_refl) in Hc.
    discriminate.
  - intros Hne Hcond. destruct graph_item as [|v rest]; [contradiction|].
    unfold build, bind. cbn [foldM]. unfold bind at 1. unfold build_var, bind at 1.
    cbn [set_helper fst snd].
    set (w1 := mkWorld (rng w) (dict_set (helpers w) (name (var (mkVariableHelper v)))
                                  (VarH (mkVariableHelper v)))).
    unfold bind at 1.
    destruct (Nat.eqb_spec (List.length (Space.maybe_partition space)) 1) as [E1|E1].
    + unfold sample_if_partition. rewrite (proj2 (Nat.eqb_eq _ _) E1).
      unfold ret at 1.
      assert (Ht : truthy (PyBoolList (Space.maybe_partition space)) = true).
      { cbn [truthy]. destruct (Space.maybe_partition space); [discriminate E1|reflexivity]. }
      rewrite Ht. cbn [negb]. unfold bind at 1. unfold bind at 1.
      rewrite (sample_partition_config_attribute_raises
                 VariableHelper.getattr_partitionable_axis (mkVariableHelper v)
                 resource_spec space heuristics AttributeError w1 eq_refl).
      reflexivity.
    + rewrite (sample_if_partition_attribute_raises
                 VariableHelper.getattr_partitionable_axis (mkVariableHelper v)
                 resource_spec space heuristics AttributeError w1 eq_refl E1).
      * reflexivity.
      * destruct (Heuristics.enable_single_node_no_partition heuristics) eqn:Een;
          [|reflexivity].
        cbn [andb]. apply Nat.leb_gt. apply Nat.nle_gt. intros Hle.
        apply Hcond. repeat split; assumption.
Qed.

(* ===================================================================== *)
(** * The further properties at sample inputs                              *)
(* ===================================================================== *)

Lemma partitionable_axes_spec_witness :
  (VariableHelper.shape (mkVariableHelper step_counter) = None /\
   VariableHelper.partitionable_axes (mkVariableHelper step_counter) = []) /\
  (VariableHelper.is_sparse (mkVariableHelper single_row)
   || VariableHelper.is_embedding (mkVariableHelper single_row) = true /\
   VariableHelper.partitionable_axes (mkVariableHelper single_row) = [0%nat]) /\
  (VariableHelper.is_sparse (mkVariableHelper kernel)
   || VariableHelper.is_embedding (mkVariableHelper kernel) = false /\
   forall a,
     In a (VariableHelper.partitionable_axes (mkVariableHelper kernel)) <->
     exists d, nth_error [3; 4] a = Some d /\ 1 < d).
Proof.
  split; [split; [reflexivity|]|split; [split; [reflexivity|]|split; [reflexivity|]]].
  - apply (proj1 (partitionable_axes_spec (mkVariableHelper step_counter))).
    reflexivity.
  - apply (proj1 (proj2 (partitionable_axes_spec (mkVariableHelper single_row)))).
    + discriminate.
    + reflexivity.
  - apply (proj1 (proj2 (proj2 (partitionable_axes_spec (mkVariableHelper kernel))))).
    reflexivity.
Defined.

Lemma shard_extents_balanced_witness :
  nth_error (initial_shape embedding) (axis three_way) = Some 10 /\
  0 < num_shards three_way /\
  exists di dj,
    part_extent (mkPartHelper 0 embedding three_way) = Ok di /\
    part_extent (mkPartHelper 2 embedding three_way) = Ok dj /\
    dj <= di <= dj + 1 /\ 0 <= dj /\ di <= 10.
Proof.
  split; [reflexivity|]. split; [reflexivity|].
  apply (shard_extents_balanced embedding three_way 10).
  - reflexivity.
  - reflexivity.
  - lia.
  - lia.
Defined.

Lemma PartHelper_byte_size_range_witness :
  nth_error (initial_shape embedding) (axis three_way) = Some 10 /\
  exists b,
    PartHelper.byte_size (mkPartHelper 1 embedding three_way) = Ok b /\
    (0 <= b)%Q /\ (b <= inject_Z 320)%Q.
Proof.
  split; [reflexivity|].
  apply (proj2 (proj2 (PartHelper_byte_size_range
                         (mkPartHelper 1 embedding three_way))) 10).
  - reflexivity.
  - reflexivity.
  - reflexivity.
  - cbn. lia.
  - cbn. discriminate.
Defined.

Lemma sample_if_partition_single_node_witness :
  List.length (Space.maybe_partition default_space) = 2%nat /\
  Heuristics.enable_single_node_no_partition single_node_heuristics = true /\
  ResourceSpec.cpu_devices one_node = ["cpu:0"%string] /\
  sample_if_partition VariableHelper.getattr_partitionable_axis
    (mkVariableHelper kernel) one_node default_space single_node_heuristics
    fresh_world
  = (Ok (PyBool false), fresh_world).
Proof.
  split; [reflexivity|]. split; [reflexivity|]. split; [reflexivity|].
  apply (sample_if_partition_single_node VariableHelper.getattr_partitionable_axis
           (mkVariableHelper kernel) one_node default_space
           single_node_heuristics fresh_world).
  - cbn. discriminate.
  - reflexivity.
  - cbn. lia.
Defined.

Lemma sample_if_partition_no_axis_witness :
  aliased_partitionable_axis (mkVariableHelper step_counter) = Ok [] /\
  sample_if_partition aliased_partitionable_axis
    (mkVariableHelper step_counter) two_nodes default_space default_heuristics
    fresh_world
  = (Ok (PyBool false), fresh_world).
Proof.
  split; [reflexivity|].
  apply (sample_if_partition_no_axis aliased_partitionable_axis
           (mkVariableHelper step_counter) two_nodes default_space
           default_heuristics [] fresh_world).
  - cbn. discriminate.
  - reflexivity.
  - reflexivity.
  - left. reflexivity.
Defined.

Lemma sample_if_partition_between_bounds_witness :
  aliased_partitionable_axis (mkVariableHelper kernel) = Ok [0; 1]%nat /\
  Space.maybe_partition default_space = [true; false] /\
  exists b w',
    sample_if_partition aliased_partitionable_axis
      (mkVariableHelper kernel) two_nodes default_space default_heuristics
      fresh_world
    = (Ok (PyBool b), w') /\
    helpers w' = helpers fresh_world /\
    rng w' = tl (rng fresh_world) /\
    (Heuristics.maybe_partition_by_size default_heuristics = false ->
     In b (Space.maybe_partition default_space)).
Proof.
  split; [reflexivity|]. split; [reflexivity|].
  apply (proj2 (sample_if_partition_between_bounds aliased_partitionable_axis
                  (mkVariableHelper kernel) two_nodes default_space
                  default_heuristics [0; 1]%nat fresh_world
                  ltac:(cbn; discriminate) eq_refl eq_refl
                  ltac:(discriminate) (or_introl eq_refl)
                  eq_refl eq_refl)).
  reflexivity.
Defined.

Lemma sample_var_synchronizer_record_witness :
  exists node' w',
    sample_var_synchronizer (with_var_name new_Node "dense/kernel:0")
      (mkVariableHelper kernel) two_nodes default_space fresh_world
    = (Ok node', w') /\
    var_name node' = "dense/kernel:0"%string /\
    partitioner node' = EmptyString /\
    part_config node' = [] /\
    helpers w' = helpers fresh_world /\
    match synchronizer node' with
    | NoSynchronizer => False
    | PS s =>
        PSSynchronizer.sync s = true /\ PSSynchronizer.staleness s = 0 /\
        (VariableHelper.var_type (mkVariableHelper kernel) = SPARSE
         \/ In "PS"%string (Space.synchronizer_types default_space)) /\
        PSSynchronizer.reduction_destination s = None
    | AR s =>
        VariableHelper.var_type (mkVariableHelper kernel) = DENSE /\
        (exists ty, In ty (Space.synchronizer_types default_space)
                    /\ ty <> "PS"%string) /\
        (exists c, In c (Space.compressor default_space) /\
                   Compressor_Value c = Ok (AllReduceSynchronizer.compressor s)) /\
        AllReduceSynchronizer.group s = None
    end.
Proof.
  eexists. eexists. split; [vm_compute; reflexivity|].
  apply (sample_var_synchronizer_record (with_var_name new_Node "dense/kernel:0")
           (mkVariableHelper kernel) two_nodes default_space fresh_world).
  vm_compute. reflexivity.
Defined.

Lemma sample_parts_synchronizers_record_witness :
  Heuristics.same_synchronizer_for_parts single_node_heuristics = false /\
  VariableHelper.var_type (mkVariableHelper embedding) = SPARSE /\
  exists parts' w',
    sample_parts_synchronizers
      [with_var_name new_Node "emb/table/part_0:0";
       with_var_name new_Node "emb/table/part_1:0"]
      (mkVariableHelper embedding) two_nodes default_space
      single_node_heuristics fresh_world
    = (Ok parts', w') /\
    List.length parts' = 2%nat /\
    map var_name parts' = ["emb/table/part_0:0"; "emb/table/part_1:0"]%string /\
    Forall (fun p => synchronizer p <> NoSynchronizer) parts' /\
    helpers w' = helpers fresh_world /\
    (Forall is_PS parts' \/ Forall is_AR parts').
Proof.
  split; [reflexivity|]. split; [reflexivity|].
  eexists. eexists. split; [vm_compute; reflexivity|].
  pose proof (sample_parts_synchronizers_record
                [with_var_name new_Node "emb/table/part_0:0";
                 with_var_name new_Node "emb/table/part_1:0"]
                (mkVariableHelper embedding) two_nodes default_space
                single_node_heuristics fresh_world _ _ eq_refl) as H.
  destruct H as [H1 [H2 [H3 [H4 H5]]]].
  split; [exact H1|]. split; [exact H2|]. split; [exact H3|].
  split; [exact H4|]. apply H5. left. reflexivity.
Defined.

Lemma sample_partition_config_returns_witness :
  aliased_partitionable_axis (mkVariableHelper kernel) = Ok [0; 1]%nat /\
  valid_axes [0; 1]%nat default_space = [0; 1]%nat /\
  VariableHelper.shape (mkVariableHelper kernel) = Some [3; 4] /\
  fst (Heuristics.num_partition_bounds default_heuristics) = BInt 2 /\
  exists c w',
    sample_partition_config aliased_partitionable_axis (mkVariableHelper kernel)
      two_nodes default_space default_heuristics fresh_world
    = (Ok c, w') /\
    helpers w' = helpers fresh_world /\ rng w' = tl (tl (rng fresh_world)).
Proof.
  split; [reflexivity|]. split; [reflexivity|]. split; [reflexivity|].
  split; [reflexivity|].
  apply (sample_partition_config_returns aliased_partitionable_axis
           (mkVariableHelper kernel) two_nodes default_space default_heuristics
           [0; 1]%nat [3; 4] 2 fresh_world).
  - reflexivity.
  - cbn. discriminate.
  - reflexivity.
  - reflexivity.
  - intros a Ha. cbn in Ha. destruct Ha as [<- | [<- | []]].
    + exists 3, 3. cbn. repeat split; lia.
    + exists 4, 4. cbn. repeat split; lia.
Defined.

Lemma sample_partition_config_small_extent_witness :
  aliased_partitionable_axis (mkVariableHelper single_row) = Ok [0%nat] /\
  VariableHelper.shape (mkVariableHelper single_row) = Some [1; 8] /\
  is_ok (fst (sample_partition_config aliased_partitionable_axis
                (mkVariableHelper single_row) two_nodes default_space
                default_heuristics fresh_world))
  = false.
Proof.
  split; [reflexivity|]. split; [reflexivity|].
  apply (sample_partition_config_small_extent aliased_partitionable_axis
           (mkVariableHelper single_row) two_nodes default_space
           default_heuristics [0%nat] [1; 8] fresh_world).
  - reflexivity.
  - reflexivity.
  - intros a dim Ha Hd. cbn in Ha. destruct Ha as [<- | []].
    cbn in Hd. injection Hd as <-. lia.
Defined.

Lemma resolve_chunk_size_or_num_group_outcome_witness :
  opt_str_eqb (Heuristics.merge_scheme chunk_heuristics) "by_chunk" = true /\
  Heuristics.chunk_size chunk_heuristics = Some 2 /\
  resolve_chunk_size_or_num_group five_records chunk_heuristics fresh_world
  = (Ok 2, fresh_world).
Proof.
  split; [reflexivity|]. split; [reflexivity|].
  apply (proj2 (resolve_chunk_size_or_num_group_outcome five_records
                  chunk_heuristics fresh_world) 2).
  - reflexivity.
  - reflexivity.
  - reflexivity.
Defined.

Lemma unknown_names_raise_witness :
  Heuristics.ps_load_balancer unknown_balancer_heuristics = Some "LP"%string /\
  Heuristics.merge_scheme unknown_scheme_heuristics = Some "by_size"%string /\
  sample_ps_reduction_destinations first_device_balancer first_device_balancer
    [ps_record] [("a:0"%string, 0%nat)] two_nodes [] unknown_balancer_heuristics
    fresh_world
  = (Raise (ValueError "Cannot recognize load balancer"), fresh_world) /\
  match sample_ar_groups one_group_assigner one_group_assigner
          [ar_record] [("b:0"%string, 0%nat)] [] unknown_scheme_heuristics
          fresh_world with
  | (Ok _, _) => False
  | (Raise e, w') =>
      match resolve_chunk_size_or_num_group [("b:0"%string, 0%nat)]
              unknown_scheme_heuristics fresh_world with
      | (Ok _, w1) => e = ValueError "unseen merge scheme.." /\ w' = w1
      | (Raise e1, w1) => e = e1 /\ w' = w1
      end
  end.
Proof.
  split; [reflexivity|]. split; [reflexivity|]. split.
  - apply (proj1 (unknown_names_raise first_device_balancer first_device_balancer
                    one_group_assigner one_group_assigner
                    [ps_record] [] unknown_balancer_heuristics "LP") eq_refl).
    cbn. intros [H | [H | [H | [H | [H | []]]]]]; discriminate H.
  - apply (proj2 (unknown_names_raise first_device_balancer first_device_balancer
                    one_group_assigner one_group_assigner
                    [ar_record] [] unknown_scheme_heuristics "by_size") eq_refl).
    cbn. intros [H | [H | [H | [H | []]]]]; discriminate H.
Defined.

Lemma post_assignment_frame_witness :
  exists node_config' w',
    sample_group_and_reduction_destinations
      first_device_balancer first_device_balancer
      one_group_assigner one_group_assigner
      [ps_record; ar_record; sharded_record] two_nodes [] default_heuristics
      fresh_world
    = (Ok node_config', w') /\
    Forall2 frame_node [ps_record; ar_record; sharded_record] node_config' /\
    List.length node_config' = 3%nat /\
    helpers w' = helpers fresh_world.
Proof.
  eexists. eexists. split; [vm_compute; reflexivity|].
  apply (post_assignment_frame first_device_balancer first_device_balancer
           one_group_assigner one_group_assigner
           [ps_record; ar_record; sharded_record] two_nodes []
           default_heuristics fresh_world).
  vm_compute. reflexivity.
Defined.

Lemma build_nodes_in_order_witness :
  exists expr w',
    build op_name_of aliased_partitionable_axis
      first_device_balancer first_device_balancer
      one_group_assigner one_group_assigner
      default_space threshold_heuristics
      [kernel; embedding] two_nodes fresh_world = (Ok expr, w') /\
    replicas expr = ResourceSpec.gpu_devices two_nodes /\
    map var_name (node_config expr) = map name [kernel; embedding] /\
    exists nodes_before wk node,
      foldM (build_var op_name_of aliased_partitionable_axis
               default_space threshold_heuristics two_nodes)
            [kernel] [] fresh_world
      = (Ok nodes_before, wk) /\
      nth_error (node_config expr) 1 = Some node /\
      node_built_at op_name_of aliased_partitionable_axis
        default_space threshold_heuristics two_nodes
        (snd (set_helper (name embedding) (VarH (mkVariableHelper embedding)) wk))
        embedding node.
Proof.
  eexists. eexists. split; [vm_compute; reflexivity|].
  pose proof (build_nodes_in_order op_name_of aliased_partitionable_axis
                first_device_balancer first_device_balancer
                one_group_assigner one_group_assigner
                default_space threshold_heuristics
                [kernel; embedding] two_nodes fresh_world _ _ eq_refl)
    as [Hreplicas [Hnames Hnodes]].
  split; [exact Hreplicas|]. split; [exact Hnames|].
  exact (Hnodes [kernel] embedding [] eq_refl).
Defined.

Lemma build_loop_records_helpers_witness :
  exists node_config' w',
    foldM (build_var op_name_of aliased_partitionable_axis
             never_partition_space default_heuristics two_nodes)
          [kernel; embedding] [] fresh_world
    = (Ok node_config', w') /\
    Forall (has_helper fresh_world) (leaves []) /\
    Forall (has_helper w') (leaves node_config').
Proof.
  eexists. eexists. split; [vm_compute; reflexivity|].
  split; [constructor|].
  apply (build_loop_records_helpers op_name_of aliased_partitionable_axis
           never_partition_space default_heuristics two_nodes
           [kernel; embedding] [] fresh_world).
  - vm_compute. reflexivity.
  - constructor.
Defined.

Lemma part_names_distinct_witness :
  part_name op_name_of kernel 2 = "dense/kernel/part_2:0"%string /\
  (forall j, part_name op_name_of kernel 2 = part_name op_name_of kernel j -> 2 = j) /\
  NoDup (map (part_name op_name_of kernel) (range 3)).
Proof.
  split; [reflexivity|]. split.
  - apply (proj1 (part_names_distinct op_name_of kernel) 2).
  - apply (proj2 (part_names_distinct op_name_of kernel) 3).
Defined.

Lemma build_as_written_witness :
  [kernel; embedding] <> [] /\
  Heuristics.enable_single_node_no_partition default_heuristics = false /\
  fst (build op_name_of VariableHelper.getattr_partitionable_axis
         first_device_balancer first_device_balancer
         one_group_assigner one_group_assigner
         default_space default_heuristics [kernel; embedding] two_nodes
         fresh_world)
  = Raise AttributeError.
Proof.
  split; [discriminate|]. split; [reflexivity|].
  apply (proj2 (build_as_written op_name_of
                  first_device_balancer first_device_balancer
                  one_group_assigner one_group_assigner
                  default_space default_heuristics [kernel; embedding] two_nodes
                  fresh_world)).
  - discriminate.
  - intros [_ [H _]]. discriminate H.
Defined.

Lemma sample_partition_config_descriptor_witness :
  exists c w',
    sample_partition_config aliased_partitionable_axis (mkVariableHelper kernel)
      two_nodes default_space default_heuristics fresh_world
    = (Ok c, w') /\
    exists axes a shape dim lower upper n,
      aliased_partitionable_axis (mkVariableHelper kernel) = Ok axes /\
      In a (valid_axes axes default_space) /\
      VariableHelper.shape (mkVariableHelper kernel) = Some shape /\
      nth_error shape a = Some dim /\
      fst (Heuristics.num_partition_bounds default_heuristics) = BInt lower /\
      upper_shards dim two_nodes
        (snd (Heuristics.num_partition_bounds default_heuristics)) = Some upper /\
      Z.max 2 lower <= n <= upper /\
      List.length (partition_list c) = List.length shape /\
      nth_error (partition_list c) a = Some n /\
      (forall j, j <> a -> (j < List.length shape)%nat ->
                 nth_error (partition_list c) j = Some 1) /\
      axis c = a /\ num_shards c = n.
Proof.
  eexists. eexists. split; [vm_compute; reflexivity|].
  eapply (sample_partition_config_descriptor aliased_partitionable_axis
            (mkVariableHelper kernel) two_nodes default_space default_heuristics
            fresh_world).
  vm_compute. reflexivity.
Defined.
